(** * excalidraw-fs: the directory scanner, the file-system context and the
    editor binder, embedded from [src/context/FileSystemContext.tsx],
    [src/components/Editor.tsx] and [src/components/FileExplorer.tsx]. *)

From Stdlib Require Import List String Ascii Bool Arith ZArith Lia.
From Stdlib Require Import Sorting.Sorted Sorting.Permutation.
From Stdlib Require Import Structures.OrderedTypeEx.
From Stdlib Require Import Floats.PrimFloat DecimalString.
Import ListNotations.

Local Open Scope string_scope.
Local Open Scope list_scope.

(** ** JavaScript built-ins used by the sources *)

Module JS.

(** [s.startsWith(p)]. *)
Definition startsWith (s p : string) : bool := String.prefix p s.

(** [s.endsWith(p)]: some tail of [s] is [p]. *)
Fixpoint endsWith (s p : string) : bool :=
  if String.eqb s p then true
  else match s with
       | EmptyString => false
       | String _ s' => endsWith s' p
       end.

(** A string in a boolean position: the empty string is falsy. *)
Definition truthy_string (s : string) : bool :=
  match s with EmptyString => false | _ => true end.

(** [Array.prototype.sort(cmp)].  ECMAScript asks for a stable sort; with a
    consistent comparator every stable sort returns the same array, so a
    stable insertion sort stands for the engine's algorithm.  [cmp a b > 0]
    is the only outcome that moves [b] in front of [a]. *)
Section Sort.
Context {A : Type} (cmp : A -> A -> Z).

Fixpoint insert (x : A) (l : list A) : list A :=
  match l with
  | [] => [x]
  | y :: r => if (0 <? cmp x y)%Z then y :: insert x r else x :: y :: r
  end.

Fixpoint sort (l : list A) : list A :=
  match l with
  | [] => []
  | x :: r => insert x (sort r)
  end.

(** [a] may stand in front of [b]. *)
Definition ordered (a b : A) : Prop := (cmp a b <= 0)%Z.
End Sort.

(** Values produced by [JSON.parse] and handed to the drawing engine.
    An object keeps its own properties in enumeration order. *)
#[local] Unset Elimination Schemes.
Inductive Value : Type :=
| VUndefined
| VNull
| VBool (b : bool)
| VNum (x : float)
| VStr (s : string)
| VArr (xs : list Value)
| VObj (props : list (string * Value)).
#[local] Set Elimination Schemes.

(** [ToBoolean]. *)
Definition truthy (v : Value) : bool :=
  match v with
  | VUndefined | VNull => false
  | VBool b => b
  | VNum x => negb (PrimFloat.eqb x 0%float || PrimFloat.is_nan x)
  | VStr s => truthy_string s
  | VArr _ | VObj _ => true
  end.

Definition nullish (v : Value) : bool :=
  match v with VUndefined | VNull => true | _ => false end.

(** [a || b] and [a ?? b]. *)
Definition or_else (a b : Value) : Value := if truthy a then a else b.
Definition coalesce (a b : Value) : Value := if nullish a then b else a.

Fixpoint assoc {B : Type} (k : string) (l : list (string * B)) : option B :=
  match l with
  | [] => None
  | (k', v) :: r => if String.eqb k' k then Some v else assoc k r
  end.

Fixpoint remove_key {B : Type} (k : string) (l : list (string * B))
  : list (string * B) :=
  match l with
  | [] => []
  | (k', v) :: r =>
      if String.eqb k' k then remove_key k r else (k', v) :: remove_key k r
  end.

(** Writing property [k]: an existing key keeps its place, a new one goes
    last. *)
Fixpoint set_key {B : Type} (k : string) (v : B) (l : list (string * B))
  : list (string * B) :=
  match l with
  | [] => [(k, v)]
  | (k', v') :: r =>
      if String.eqb k' k then (k', v) :: r else (k', v') :: set_key k v r
  end.

(** [s.includes(p)]. *)
Fixpoint includes (p s : string) : bool :=
  String.prefix p s
  || match s with
     | EmptyString => false
     | String _ s' => includes p s'
     end.

Fixpoint skip (n : nat) (s : string) : string :=
  match n, s with
  | S n', String _ s' => skip n' s'
  | _, _ => s
  end.

(** [s.replace(p, '')] with a string pattern: the first occurrence of [p]
    is taken out, the rest is kept. *)
Fixpoint removeFirst (p s : string) : string :=
  if String.prefix p s then skip (String.length p) s
  else match s with
       | EmptyString => EmptyString
       | String c s' => String c (removeFirst p s')
       end.

End JS.

(** ** The platform: the File System Access API

    The sources only declare the handle interfaces
    ([FileSystemContext.tsx], lines 9-38); the browser implements them.  The
    model below follows the File System Standard: a handle is a locator (a
    kind and a path), every operation resolves the locator in the directory
    tree as it is at that moment, and failures are the standard's
    exceptions. *)

Module Platform.

Inductive Kind : Type := KFile | KDirectory.

Definition Kind_eqb (a b : Kind) : bool :=
  match a, b with
  | KFile, KFile | KDirectory, KDirectory => true
  | _, _ => false
  end.

#[local] Unset Elimination Schemes.
Inductive Entry : Type :=
| EFile (content : string)
| EDir (children : list (string * Entry)).
#[local] Set Elimination Schemes.

Definition kindOf (e : Entry) : Kind :=
  match e with EFile _ => KFile | EDir _ => KDirectory end.

Inductive Error : Type :=
| TypeError
| NotFoundError
| TypeMismatchError
| InvalidModificationError
| AbortError.

Inductive Result (A : Type) : Type :=
| Ok (a : A)
| Err (e : Error).
Arguments Ok {A} a.
Arguments Err {A} e.

Definition rbind {A B : Type} (r : Result A) (k : A -> Result B) : Result B :=
  match r with Ok a => k a | Err e => Err e end.

Record Handle : Type := mkHandle { hkind : Kind; hpath : list string }.

Definition child (h : Handle) (name : string) (k : Kind) : Handle :=
  mkHandle k (hpath h ++ [name]).

Fixpoint path_eqb (p q : list string) : bool :=
  match p, q with
  | [], [] => true
  | a :: p', b :: q' => String.eqb a b && path_eqb p' q'
  | _, _ => false
  end.

(** [a.isSameEntry(b)]: the two locators are the same. *)
Definition isSameEntry (a b : Handle) : bool :=
  Kind_eqb (hkind a) (hkind b) && path_eqb (hpath a) (hpath b).

Fixpoint contains_slash (s : string) : bool :=
  match s with
  | EmptyString => false
  | String c s' => Ascii.eqb c "/"%char || contains_slash s'
  end.

(** A valid file name: not empty, not [.] or [..], no path separator. *)
Definition valid_name (s : string) : bool :=
  negb (String.eqb s EmptyString) && negb (String.eqb s ".")
  && negb (String.eqb s "..") && negb (contains_slash s).

Fixpoint lookup (p : list string) (e : Entry) : option Entry :=
  match p with
  | [] => Some e
  | n :: p' =>
      match e with
      | EFile _ => None
      | EDir cs =>
          match JS.assoc n cs with
          | Some c => lookup p' c
          | None => None
          end
      end
  end.

Fixpoint alter_child {B : Type} (n : string) (g : B -> Result B)
    (cs : list (string * B)) : Result (list (string * B)) :=
  match cs with
  | [] => Err NotFoundError
  | (m, c) :: r =>
      if String.eqb m n
      then rbind (g c) (fun c' => Ok ((m, c') :: r))
      else rbind (alter_child n g r) (fun r' => Ok ((m, c) :: r'))
  end.

(** Replace the entry at path [p] by what [f] makes of it. *)
Fixpoint alter (p : list string) (f : Entry -> Result Entry) (e : Entry)
  : Result Entry :=
  match p with
  | [] => f e
  | n :: p' =>
      match e with
      | EFile _ => Err NotFoundError
      | EDir cs => rbind (alter_child n (alter p' f) cs) (fun cs' => Ok (EDir cs'))
      end
  end.

(** [dir.entries()], in the order the platform keeps them. *)
Definition entries (dir : Handle) (disk : Entry)
  : Result (list (string * Entry)) :=
  match lookup (hpath dir) disk with
  | Some (EDir cs) => Ok cs
  | _ => Err NotFoundError
  end.

(** The step shared by [getFileHandle] and [getDirectoryHandle]: an entry of
    the wanted kind is returned as it is, one of the other kind is a
    [TypeMismatchError], and a missing one is created when [create] is set. *)
Definition get_or_create (want : Kind) (fresh : Entry) (name : string)
    (create : bool) (cs : list (string * Entry))
  : Result (list (string * Entry)) :=
  match JS.assoc name cs with
  | Some c => if Kind_eqb (kindOf c) want then Ok cs else Err TypeMismatchError
  | None => if create then Ok (cs ++ [(name, fresh)]) else Err NotFoundError
  end.

Definition on_children (f : list (string * Entry) -> Result (list (string * Entry)))
    (e : Entry) : Result Entry :=
  match e with
  | EDir cs => rbind (f cs) (fun cs' => Ok (EDir cs'))
  | EFile _ => Err NotFoundError
  end.

(** [dir.getFileHandle(name, { create })]. *)
Definition getFileHandle (dir : Handle) (name : string) (create : bool)
    (disk : Entry) : Result (Handle * Entry) :=
  if negb (valid_name name) then Err TypeError
  else rbind (alter (hpath dir) (on_children (get_or_create KFile (EFile EmptyString) name create)) disk)
         (fun disk' => Ok (child dir name KFile, disk')).

(** [dir.getDirectoryHandle(name, { create })]. *)
Definition getDirectoryHandle (dir : Handle) (name : string) (create : bool)
    (disk : Entry) : Result (Handle * Entry) :=
  if negb (valid_name name) then Err TypeError
  else rbind (alter (hpath dir) (on_children (get_or_create KDirectory (EDir []) name create)) disk)
         (fun disk' => Ok (child dir name KDirectory, disk')).

Definition remove_child (name : string) (recursive : bool)
    (cs : list (string * Entry)) : Result (list (string * Entry)) :=
  match JS.assoc name cs with
  | None => Err NotFoundError
  | Some (EDir (_ :: _)) =>
      if recursive then Ok (JS.remove_key name cs)
      else Err InvalidModificationError
  | Some _ => Ok (JS.remove_key name cs)
  end.

(** [dir.removeEntry(name, { recursive })]; [recursive] is false when the
    option is left out. *)
Definition removeEntry (dir : Handle) (name : string) (recursive : bool)
    (disk : Entry) : Result Entry :=
  if negb (valid_name name) then Err TypeError
  else alter (hpath dir) (on_children (remove_child name recursive)) disk.

(** [(await file.getFile()).text()].  A file is kept as the text it holds.
    The platform's UTF-8 codec alters a text in two cases only: [write]
    replaces lone surrogates and [text] drops a byte order mark at the
    head.  Texts are taken to have neither; what [JSON.stringify] prints,
    the only text the application writes, has neither. *)
Definition readText (file : Handle) (disk : Entry) : Result string :=
  match lookup (hpath file) disk with
  | Some (EFile c) => Ok c
  | _ => Err NotFoundError
  end.

(** [createWritable()], [write(content)], [close()]: the content replaces
    what the file held. *)
Definition writeText (file : Handle) (content : string) (disk : Entry)
  : Result Entry :=
  alter (hpath file)
    (fun e => match e with
              | EFile _ => Ok (EFile content)
              | EDir _ => Err NotFoundError
              end) disk.

End Platform.

(** ** [src/context/FileSystemContext.tsx] *)

Module FileSystemContext.
Import Platform.

(** [type FileNode]; [children] is absent ([None]) on a file. *)
#[local] Unset Elimination Schemes.
Inductive FileNode : Type :=
| mkNode (id name : string) (kind : Kind) (handle : Handle)
         (children : option (list FileNode)).
#[local] Set Elimination Schemes.

Definition id (n : FileNode) : string := let (i, _, _, _, _) := n in i.
Definition name (n : FileNode) : string := let (_, m, _, _, _) := n in m.
Definition kind (n : FileNode) : Kind := let (_, _, k, _, _) := n in k.
Definition handle (n : FileNode) : Handle := let (_, _, _, h, _) := n in h.
Definition children (n : FileNode) : option (list FileNode) :=
  let (_, _, _, _, c) := n in c.

Definition EXT : string := ".excalidraw".

(** The state the provider holds, the disk it works on and the console. *)
Record State : Type := mkState {
  rootHandle : option Handle;
  fileTree : list FileNode;
  selectedFile : option FileNode
}.

Record World : Type := mkWorld {
  disk : Entry;
  state : State;
  console : list string
}.

Definition setFileTree (t : list FileNode) (w : World) : World :=
  mkWorld (disk w)
    (mkState (rootHandle (state w)) t (selectedFile (state w))) (console w).

Definition setSelectedFile (s : option FileNode) (w : World) : World :=
  mkWorld (disk w)
    (mkState (rootHandle (state w)) (fileTree (state w)) s) (console w).

Definition setDisk (d : Entry) (w : World) : World :=
  mkWorld d (state w) (console w).

Definition console_error (msg : string) (w : World) : World :=
  mkWorld (disk w) (state w) (console w ++ [msg]).

(** An asynchronous function of the provider: it ends with a value or with
    a thrown error, and what it did to the world before stays done. *)
Definition M (A : Type) : Type := World -> Result A * World.

Definition ret {A : Type} (a : A) : M A := fun w => (Ok a, w).
Definition throw {A : Type} (e : Error) : M A := fun w => (Err e, w).

Definition bind {A B : Type} (m : M A) (k : A -> M B) : M B :=
  fun w => match m w with
           | (Ok a, w') => k a w'
           | (Err e, w') => (Err e, w')
           end.

(** [try { m } catch (err) { h err }]. *)
Definition try_catch {A : Type} (m : M A) (h : Error -> M A) : M A :=
  fun w => match m w with
           | (Ok a, w') => (Ok a, w')
           | (Err e, w') => h e w'
           end.

Definition modify (f : World -> World) : M unit := fun w => (Ok tt, f w).

(** A platform call that only reads the disk. *)
Definition ask {A : Type} (f : Entry -> Result A) : M A :=
  fun w => (f (disk w), w).

(** A platform call that changes the disk. *)
Definition act (f : Entry -> Result Entry) : M unit :=
  fun w => match f (disk w) with
           | Ok d => (Ok tt, setDisk d w)
           | Err e => (Err e, w)
           end.

Declare Scope ctx_scope.
Delimit Scope ctx_scope with ctx.
Notation "x <- m ;; k" := (bind m (fun x => k))
  (at level 61, m at next level, right associativity) : ctx_scope.
Notation "m ;;; k" := (bind m (fun _ => k))
  (at level 61, right associativity) : ctx_scope.
Local Open Scope ctx_scope.

Section WithCollation.

(** [String.prototype.localeCompare]: negative, zero or positive. *)
Variable localeCompare : string -> string -> Z.

(** The comparator both [sort] calls of [scanDirectory] pass. *)
Definition compareNodes (a b : FileNode) : Z :=
  if Kind_eqb (kind a) (kind b) then localeCompare (name a) (name b)
  else match kind a with KDirectory => (-1)%Z | KFile => 1%Z end.

Definition sortNodes : list FileNode -> list FileNode := JS.sort compareNodes.

(** [scanDirectory(dirHandle, path)] on the directory [dir] the handle
    resolves to; [h] is the handle's path.  The inner loop is the
    [for await] over [entries()], pushing nodes in enumeration order. *)
Fixpoint scanDir (h : list string) (path : string) (dir : Entry) {struct dir}
  : list FileNode :=
  match dir with
  | EFile _ => []
  | EDir cs =>
      sortNodes
        ((fix loop (cs : list (string * Entry)) : list FileNode :=
            match cs with
            | [] => []
            | (name, e) :: rest =>
                if Kind_eqb (kindOf e) KFile && negb (JS.endsWith name EXT)
                then loop rest
                else if JS.startsWith name "." then loop rest
                else
                  let nodePath :=
                    if JS.truthy_string path then (path ++ "/" ++ name)%string else name in
                  match e with
                  | EFile _ =>
                      mkNode nodePath name KFile
                        (mkHandle KFile (h ++ [name])) None :: loop rest
                  | EDir _ =>
                      mkNode nodePath name KDirectory
                        (mkHandle KDirectory (h ++ [name]))
                        (Some (sortNodes (scanDir (h ++ [name]) nodePath e)))
                        :: loop rest
                  end
            end) cs)
  end.

(** The [for await] loop of [scanDirectory] on its own: the nodes pushed
    for the entries [cs], before the final sort. *)
Definition scanLoop (h : list string) (path : string)
  : list (string * Entry) -> list FileNode :=
  fix loop (cs : list (string * Entry)) : list FileNode :=
    match cs with
    | [] => []
    | (name, e) :: rest =>
        if Kind_eqb (kindOf e) KFile && negb (JS.endsWith name EXT)
        then loop rest
        else if JS.startsWith name "." then loop rest
        else
          let nodePath :=
            if JS.truthy_string path then (path ++ "/" ++ name)%string else name in
          match e with
          | EFile _ =>
              mkNode nodePath name KFile
                (mkHandle KFile (h ++ [name])) None :: loop rest
          | EDir _ =>
              mkNode nodePath name KDirectory
                (mkHandle KDirectory (h ++ [name]))
                (Some (sortNodes (scanDir (h ++ [name]) nodePath e)))
                :: loop rest
          end
    end.

Definition scanDirectory (dirHandle : Handle) (path : string)
  : M (list FileNode) :=
  ask (fun d => rbind (entries dirHandle d)
                  (fun cs => Ok (scanDir (hpath dirHandle) path (EDir cs)))).

Definition refreshDirectory : M unit :=
  fun w =>
    match rootHandle (state w) with
    | None => ret tt w
    | Some root =>
        (tree <- scanDirectory root EmptyString ;; modify (setFileTree tree)) w
    end.

Definition createFile (parentHandle : Handle) (name : string) : M unit :=
  try_catch
    (let fileName := if JS.endsWith name EXT then name else (name ++ EXT)%string in
     act (fun d => rbind (getFileHandle parentHandle fileName true d)
                     (fun r => Ok (snd r))) ;;;
     refreshDirectory)
    (fun err => modify (console_error "Error creating file:") ;;; throw err).

Definition createFolder (parentHandle : Handle) (name : string) : M unit :=
  try_catch
    (act (fun d => rbind (getDirectoryHandle parentHandle name true d)
                     (fun r => Ok (snd r))) ;;;
     refreshDirectory)
    (fun err => modify (console_error "Error creating folder:") ;;; throw err).

Definition deleteEntry (parentHandle : Handle) (name : string) : M unit :=
  fun w =>
    try_catch
      (act (removeEntry parentHandle name false) ;;;
       (match selectedFile (state w) with
        | Some f =>
            if String.eqb (FileSystemContext.name f) name
            then modify (setSelectedFile None)
            else ret tt
        | None => ret tt
        end) ;;;
       refreshDirectory)
      (fun err => modify (console_error "Error deleting entry:") ;;; throw err)
      w.

Definition readFileContent (h : Handle) : M string := ask (readText h).

Definition saveFileContent (h : Handle) (content : string) : M unit :=
  act (writeText h content).

End WithCollation.

(** *** Vocabulary for statements about a scanned tree *)

(** A node and everything below it. *)
Fixpoint subtree (n : FileNode) : list FileNode :=
  match n with
  | mkNode _ _ _ _ None => [n]
  | mkNode _ _ _ _ (Some c) => n :: flat_map subtree c
  end.

(** Every node of a tree, at any depth. *)
Definition all_nodes (t : list FileNode) : list FileNode := flat_map subtree t.

Fixpoint child_lists (n : FileNode) : list (list FileNode) :=
  match n with
  | mkNode _ _ _ _ None => []
  | mkNode _ _ _ _ (Some c) => c :: flat_map child_lists c
  end.

(** Every sibling list of a tree: the root list and the [children] of each
    directory node. *)
Definition sibling_lists (t : list FileNode) : list (list FileNode) :=
  t :: flat_map child_lists t.

Definition joinPath (path name : string) : string :=
  if JS.truthy_string path then (path ++ "/" ++ name)%string else name.

(** The directories on disk that a scan of [dir] can reach without going
    through a name that starts with a dot, each with the id, the name and
    the handle path its node must carry. *)
Fixpoint visibleDirs (h : list string) (path : string) (dir : Entry)
  : list (string * string * list string) :=
  match dir with
  | EFile _ => []
  | EDir cs =>
      (fix each (cs : list (string * Entry)) :=
         match cs with
         | [] => []
         | (name, e) :: rest =>
             match e with
             | EDir _ =>
                 if JS.startsWith name "." then each rest
                 else (joinPath path name, name, h ++ [name])
                        :: visibleDirs (h ++ [name]) (joinPath path name) e
                        ++ each rest
             | EFile _ => each rest
             end
         end) cs
  end.

Definition count_named (nm : string) (t : list FileNode) : nat :=
  List.length (filter (fun n => String.eqb (name n) nm) t).

(** The open root, if any, still resolves to a directory on disk, so a
    rescan can enumerate it. *)
Definition rootResolves (w : World) : bool :=
  match rootHandle (state w) with
  | None => true
  | Some r =>
      match lookup (hpath r) (disk w) with
      | Some (EDir _) => true
      | _ => false
      end
  end.

(** What [deleteEntry] leaves as the selection when it succeeds. *)
Definition selectionAfterDelete (sel : option FileNode) (deleted : string)
  : option FileNode :=
  match sel with
  | Some f => if String.eqb (name f) deleted then None else Some f
  | None => None
  end.

(** Every pair of a directory node and one of its children, at any depth. *)
Fixpoint edgesOf (n : FileNode) : list (FileNode * FileNode) :=
  match n with
  | mkNode _ _ _ _ None => []
  | mkNode _ _ _ _ (Some c) => map (fun x => (n, x)) c ++ flat_map edgesOf c
  end.

Definition edges (t : list FileNode) : list (FileNode * FileNode) :=
  flat_map edgesOf t.

(** The diagram files on disk that a scan of [dir] can reach: the name ends
    in [.excalidraw], neither it nor a directory above it starts with a
    dot.  Each comes with the id, the name and the handle path of its
    node. *)
Fixpoint visibleFiles (h : list string) (path : string) (dir : Entry)
  : list (string * string * list string) :=
  match dir with
  | EFile _ => []
  | EDir cs =>
      (fix each (cs : list (string * Entry)) :=
         match cs with
         | [] => []
         | (name, e) :: rest =>
             if JS.startsWith name "." then each rest
             else
               match e with
               | EFile _ =>
                   if JS.endsWith name EXT
                   then (joinPath path name, name, h ++ [name]) :: each rest
                   else each rest
               | EDir _ =>
                   visibleFiles (h ++ [name]) (joinPath path name) e ++ each rest
               end
         end) cs
  end.

Fixpoint distinct (l : list string) : bool :=
  match l with
  | [] => true
  | x :: r => negb (existsb (String.eqb x) r) && distinct r
  end.

(** No directory of the tree holds two entries of the same name, as on a
    real disk. *)
Fixpoint uniqueNames (e : Entry) : bool :=
  match e with
  | EFile _ => true
  | EDir cs =>
      distinct (map fst cs)
      && (fix all (cs : list (string * Entry)) : bool :=
            match cs with
            | [] => true
            | (_, c) :: r => uniqueNames c && all r
            end) cs
  end.

(** The mutating operations the context value exposes, as one interface. *)
Inductive Mutation : Type :=
| CreateFile (parent : Handle) (name : string)
| CreateFolder (parent : Handle) (name : string)
| DeleteEntry (parent : Handle) (name : string)
| SaveFile (file : Handle) (content : string).

Definition perform (localeCompare : string -> string -> Z) (m : Mutation)
  : M unit :=
  match m with
  | CreateFile p n => createFile localeCompare p n
  | CreateFolder p n => createFolder localeCompare p n
  | DeleteEntry p n => deleteEntry localeCompare p n
  | SaveFile h c => saveFileContent h c
  end.

(** The name [createFile] gives the entry. *)
Definition fileNameOf (name : string) : string :=
  if JS.endsWith name EXT then name else (name ++ EXT)%string.

End FileSystemContext.

(** ** [src/components/FileExplorer.tsx]: delete and drag-and-drop *)

Module FileExplorer.
Import Platform FileSystemContext.
Local Open Scope ctx_scope.

(** [type DragState], when not [null]. *)
Record DragState : Type := mkDrag {
  node : FileNode;
  parentHandle : Handle
}.

(** What the explorer adds to the provider's world: the drag in progress,
    the ids of the rows showing the drop highlight ([isDragOver]) and the
    [alert] boxes shown so far. *)
Record UI : Type := mkUI {
  world : World;
  dragState : option DragState;
  dragOver : list string;
  alerts : list string
}.

Definition setIsDragOver_false (n : FileNode) (u : UI) : UI :=
  mkUI (world u) (dragState u)
       (filter (fun i => negb (String.eqb i (id n))) (dragOver u)) (alerts u).

Definition setDragState (d : option DragState) (u : UI) : UI :=
  mkUI (world u) d (dragOver u) (alerts u).

Definition alert (msg : string) (u : UI) : UI :=
  mkUI (world u) (dragState u) (dragOver u) (alerts u ++ [msg]).

(** [try { await m } catch { alert(msg) }]. *)
Definition run_or_alert (m : M unit) (msg : string) (u : UI) : UI :=
  match m (world u) with
  | (Ok _, w') => mkUI w' (dragState u) (dragOver u) (alerts u)
  | (Err _, w') => alert msg (mkUI w' (dragState u) (dragOver u) (alerts u))
  end.

Section WithContext.

Variable localeCompare : string -> string -> Z.

(** [moveFile] comes from [useFileSystem()]; the provider under
    [src/context] does not define it, so the handlers take it as given. *)
Variable moveFile : Handle -> Handle -> string -> M unit.

(** [handleDelete]; [confirmed] is the answer to [confirm(...)]. *)
Definition handleDelete (n : FileNode) (parent : Handle) (confirmed : bool)
    (u : UI) : UI :=
  if confirmed
  then run_or_alert (deleteEntry localeCompare parent (name n)) "Failed to delete" u
  else u.

(** [onDrop] of the row of node [n]. *)
Definition onDrop (n : FileNode) (u : UI) : UI :=
  let u := setIsDragOver_false n u in
  match kind n, dragState u with
  | KDirectory, Some d =>
      if isSameEntry (parentHandle d) (handle n) then u
      else
        let u := run_or_alert
                   (moveFile (parentHandle d) (handle n) (name (node d)))
                   "Failed to move file" u in
        setDragState None u
  | _, _ => u
  end.

(** [handleRootDrop] of the tree's background. *)
Definition handleRootDrop (u : UI) : UI :=
  match dragState u, rootHandle (state (world u)) with
  | Some d, Some root =>
      if isSameEntry (parentHandle d) root then setDragState None u
      else
        let u := run_or_alert
                   (moveFile (parentHandle d) root (name (node d)))
                   "Failed to move file" u in
        setDragState None u
  | _, _ => u
  end.

(** Modelled from the spec: [moveFile(sourceParent, destParent, name)] is
    missing from the sources.  It rejects when both parents are the same
    location; otherwise it reads the source bytes, creates the same-named
    entry under the destination, writes the bytes, removes the source
    entry and rescans. *)
Definition moveFile_spec (src dst : Handle) (name : string) : M unit :=
  if isSameEntry src dst then throw InvalidModificationError
  else
    content <- readFileContent (child src name KFile) ;;
    act (fun d => rbind (getFileHandle dst name true d) (fun r => Ok (snd r))) ;;;
    saveFileContent (child dst name KFile) content ;;;
    act (removeEntry src name false) ;;;
    refreshDirectory localeCompare.

(** The drag handlers of a row.  A directory row has no [dragstart]
    listener and its handler cancels the drag. *)
Definition setIsDragOver_true (n : FileNode) (u : UI) : UI :=
  mkUI (world u) (dragState u)
       (id n :: filter (fun i => negb (String.eqb i (id n))) (dragOver u))
       (alerts u).

Definition onDragStart (n : FileNode) (parent : Handle) (u : UI) : UI :=
  match kind n with
  | KDirectory => u
  | KFile => setDragState (Some (mkDrag n parent)) u
  end.

Definition onDragOver (n : FileNode) (u : UI) : UI :=
  match kind n, dragState u with
  | KDirectory, Some _ => setIsDragOver_true n u
  | _, _ => u
  end.

Definition onDragLeave (n : FileNode) (u : UI) : UI := setIsDragOver_false n u.

Definition onDragEnd (n : FileNode) (u : UI) : UI :=
  setIsDragOver_false n (setDragState None u).

(** [type InlineAddState], when not [null]. *)
Inductive AddType : Type := AddFile | AddFolder.

Record InlineAdd : Type := mkInlineAdd {
  addType : AddType;
  addParent : Handle;
  parentId : string
}.

(** [handleInlineSubmit] and [handleRootInlineSubmit]: the same body.  An
    error of the creation is caught and dropped; the result is the world
    and the new [inlineAdd]. *)
Definition handleInlineSubmit (inlineAdd : option InlineAdd) (name : string)
    (u : UI) : UI * option InlineAdd :=
  match inlineAdd with
  | None => (u, None)
  | Some a =>
      let m := match addType a with
               | AddFile => createFile localeCompare (addParent a) name
               | AddFolder => createFolder localeCompare (addParent a) name
               end in
      (mkUI (snd (m (world u))) (dragState u) (dragOver u) (alerts u), None)
  end.

(** The text a row shows for its node. *)
Definition displayName (n : FileNode) : string :=
  JS.removeFirst ".excalidraw" (name n).

(** What the user can do with the mouse on the tree. *)
Inductive Gesture : Type :=
| DragStart (n : FileNode) (parent : Handle)
| DragOver (n : FileNode)
| DragLeave (n : FileNode)
| Drop (n : FileNode)
| RootDrop
| DragEnd (n : FileNode)
| Delete (n : FileNode) (parent : Handle) (confirmed : bool).

Definition gesture (g : Gesture) (u : UI) : UI :=
  match g with
  | DragStart n parent => onDragStart n parent u
  | DragOver n => onDragOver n u
  | DragLeave n => onDragLeave n u
  | Drop n => onDrop n u
  | RootDrop => handleRootDrop u
  | DragEnd n => onDragEnd n u
  | Delete n parent confirmed => handleDelete n parent confirmed u
  end.

Definition gestures (gs : list Gesture) (u : UI) : UI :=
  fold_left (fun u g => gesture g u) gs u.

End WithContext.

End FileExplorer.

(** ** [src/components/Editor.tsx] *)

Module Editor.
Import Platform FileSystemContext.

(** The object passed to [setInitialData]. *)
Record InitialData : Type := mkInitialData {
  elements : JS.Value;
  appState : JS.Value;
  files : JS.Value
}.

(** A pending [setTimeout] callback of [handleChange]: what its closure
    captured and when it is due. *)
Record Timer : Type := mkTimer {
  tid : nat;
  due : nat;
  scene : InitialData;
  target : FileNode
}.

(** The component's state and refs, the provider's world it reads through
    [useFileSystem()], and the event loop's clock and timer table.
    [writes] is a history variable: the [saveFileContent] calls made so
    far, oldest first. *)
Record Editor : Type := mkEditor {
  ctx : World;
  initialData : option InitialData;
  isLoading : bool;
  error : option string;
  saveTimeoutRef : option nat;
  timers : list Timer;
  now : nat;
  nextTimer : nat;
  writes : list (Handle * string)
}.

Definition init (w : World) : Editor :=
  mkEditor w None false None None [] 0 1 [].

Definition selected (e : Editor) : option FileNode := selectedFile (state (ctx e)).

Definition setInitialData (d : option InitialData) (e : Editor) : Editor :=
  mkEditor (ctx e) d (isLoading e) (error e) (saveTimeoutRef e) (timers e)
           (now e) (nextTimer e) (writes e).

Definition setIsLoading (b : bool) (e : Editor) : Editor :=
  mkEditor (ctx e) (initialData e) b (error e) (saveTimeoutRef e) (timers e)
           (now e) (nextTimer e) (writes e).

Definition setError (m : option string) (e : Editor) : Editor :=
  mkEditor (ctx e) (initialData e) (isLoading e) m (saveTimeoutRef e) (timers e)
           (now e) (nextTimer e) (writes e).

Definition setCtx (w : World) (e : Editor) : Editor :=
  mkEditor w (initialData e) (isLoading e) (error e) (saveTimeoutRef e) (timers e)
           (now e) (nextTimer e) (writes e).

(** [v.k] for the property names the editor reads ([appState], [elements],
    [files], [viewBackgroundColor], ...): none is an index, [length] or a
    prototype member, so only an object can hold one.  [None] is the
    [TypeError] of reading a property of [null] or [undefined]. *)
Definition get (v : JS.Value) (k : string) : option JS.Value :=
  match v with
  | JS.VUndefined | JS.VNull => None
  | JS.VObj props =>
      Some (match JS.assoc k props with Some x => x | None => JS.VUndefined end)
  | _ => Some JS.VUndefined
  end.

Definition index_key (i : nat) : string :=
  DecimalString.NilZero.string_of_uint (Nat.to_uint i).

Fixpoint indexed {A : Type} (f : A -> JS.Value) (i : nat) (l : list A)
  : list (string * JS.Value) :=
  match l with
  | [] => []
  | x :: r => (index_key i, f x) :: indexed f (S i) r
  end.

(** The own enumerable properties of a value that is not [null] or
    [undefined], as object spread and rest destructuring see them. *)
Definition own_props (v : JS.Value) : list (string * JS.Value) :=
  match v with
  | JS.VObj props => props
  | JS.VArr xs => indexed (fun x => x) 0 xs
  | JS.VStr s =>
      indexed (fun c => JS.VStr (String c EmptyString)) 0 (list_ascii_of_string s)
  | _ => []
  end.

(** The document [loadFile] falls back to. *)
Definition emptyDocument : InitialData :=
  mkInitialData (JS.VArr [])
    (JS.VObj [("viewBackgroundColor", JS.VStr "#ffffff");
              ("currentItemFontFamily", JS.VNum 2%float);
              ("currentItemRoughness", JS.VNum 0%float)])
    (JS.VObj []).

Definition prop (o : list (string * JS.Value)) (k : string) : JS.Value :=
  match JS.assoc k o with Some x => x | None => JS.VUndefined end.

(** The body of the inner [try] after [JSON.parse] returned [parsed];
    [None] when it throws. *)
Definition documentOf (parsed : JS.Value) : option InitialData :=
  match get parsed "appState" with
  | None => None
  | Some a =>
      let restAppState :=
        JS.remove_key "collaborators" (own_props (JS.or_else a (JS.VObj []))) in
      match get parsed "elements", get parsed "files" with
      | Some els, Some fls =>
          Some (mkInitialData
                  (JS.or_else els (JS.VArr []))
                  (JS.VObj
                     (JS.set_key "currentItemRoughness"
                        (JS.coalesce (prop restAppState "currentItemRoughness")
                                     (JS.VNum 0%float))
                     (JS.set_key "currentItemFontFamily"
                        (JS.coalesce (prop restAppState "currentItemFontFamily")
                                     (JS.VNum 2%float))
                     (JS.set_key "viewBackgroundColor"
                        (JS.or_else (prop restAppState "viewBackgroundColor")
                                    (JS.VStr "#ffffff"))
                        restAppState))))
                  (JS.or_else fls (JS.VObj [])))
      | _, _ => None
      end
  end.

(** What the component renders. *)
Inductive View : Type :=
| NoFileSelected
| ErrorLoadingFile (message : string)
| Canvas (spinner : bool) (data : option InitialData).

Definition render (e : Editor) : View :=
  match selected e with
  | None => NoFileSelected
  | Some _ =>
      match error e with
      | Some m => if JS.truthy_string m then ErrorLoadingFile m
                  else Canvas (isLoading e) (initialData e)
      | None => Canvas (isLoading e) (initialData e)
      end
  end.

Definition DELAY : nat := 1000.

Section WithEngine.

(** [JSON.parse]; [None] is its [SyntaxError]. *)
Variable JSON_parse : string -> option JS.Value.
(** [JSON.stringify(v, null, 2)]. *)
Variable JSON_stringify : JS.Value -> string.
(** [err.message] of a platform error. *)
Variable message : Error -> string.

(** The first effect: reset on a selection change. *)
Definition resetEffect (e : Editor) : Editor :=
  let e := setInitialData None e in
  let e := setError None e in
  match selected e with
  | Some _ => setIsLoading true e
  | None => e
  end.

Definition loadFile (e : Editor) : Editor :=
  match selected e with
  | Some f =>
      match kind f with
      | KFile =>
          let e :=
            match readFileContent (handle f) (ctx e) with
            | (Ok content, w) =>
                let e := setCtx w e in
                match JSON_parse content with
                | Some parsed =>
                    match documentOf parsed with
                    | Some d => setInitialData (Some d) e
                    | None => setInitialData (Some emptyDocument) e
                    end
                | None => setInitialData (Some emptyDocument) e
                end
            | (Err err, w) =>
                let e := setCtx (console_error "Failed to read file" w) e in
                let m := message err in
                setError (Some (if JS.truthy_string m then m
                                else "Failed to read file")) e
            end in
          setIsLoading false e
      | KDirectory => setIsLoading false e
      end
  | None => setIsLoading false e
  end.

(** The second effect. *)
Definition loadEffect (e : Editor) : Editor :=
  match selected e with
  | Some _ => loadFile e
  | None => e
  end.

(** The provider's [selectFile(s)] followed by the render it causes: both
    effects depend on [selectedFile] and run in order.  This is the step
    of a call that changes the selection: when the state is set to the
    node object it already holds, React renders nothing and no effect
    runs. *)
Definition selectFile (s : option FileNode) (e : Editor) : Editor :=
  loadEffect (resetEffect (setCtx (setSelectedFile s (ctx e)) e)).

Definition clearTimeout (i : nat) (e : Editor) : Editor :=
  mkEditor (ctx e) (initialData e) (isLoading e) (error e) (saveTimeoutRef e)
           (filter (fun t => negb (Nat.eqb (tid t) i)) (timers e))
           (now e) (nextTimer e) (writes e).

(** [saveTimeoutRef.current = setTimeout(callback, 1000)]. *)
Definition armSave (sc : InitialData) (f : FileNode) (e : Editor) : Editor :=
  mkEditor (ctx e) (initialData e) (isLoading e) (error e)
           (Some (nextTimer e))
           (timers e ++ [mkTimer (nextTimer e) (now e + DELAY) sc f])
           (now e) (S (nextTimer e)) (writes e).

(** [handleChange(elements, appState, files)]. *)
Definition handleChange (sc : InitialData) (e : Editor) : Editor :=
  match selected e with
  | None => e
  | Some f =>
      let e :=
        match saveTimeoutRef e with
        | Some i => if Nat.eqb i 0 then e else clearTimeout i e
        | None => e
        end in
      armSave sc f e
  end.

Definition serialize (sc : InitialData) : string :=
  JSON_stringify
    (JS.VObj [("elements", elements sc); ("appState", appState sc);
              ("files", files sc)]).

(** The timer callback: serialize what the closure captured and save it
    through the handle of the file that was selected when the timer was
    armed; a failure is logged and dropped. *)
Definition fire (t : Timer) (e : Editor) : Editor :=
  let content := serialize (scene t) in
  let h := handle (target t) in
  let w :=
    match saveFileContent h content (ctx e) with
    | (Ok _, w) => w
    | (Err _, w) => console_error "Failed to save" w
    end in
  mkEditor w (initialData e) (isLoading e) (error e) (saveTimeoutRef e)
           (timers e) (now e) (nextTimer e) (writes e ++ [(h, content)]).

(** [dt] milliseconds pass with no other event: the timers that are due
    run, oldest first (all timers have the same delay, so the table is in
    due order). *)
Definition advance (dt : nat) (e : Editor) : Editor :=
  let t1 := now e + dt in
  let ready := filter (fun t => Nat.leb (due t) t1) (timers e) in
  let later := filter (fun t => negb (Nat.leb (due t) t1)) (timers e) in
  fold_left (fun e t => fire t e) ready
    (mkEditor (ctx e) (initialData e) (isLoading e) (error e)
              (saveTimeoutRef e) later t1 (nextTimer e) (writes e)).

(** A run of change events: each comes [gap] milliseconds after the one
    before it. *)
Definition burst (events : list (nat * InitialData)) (e : Editor) : Editor :=
  fold_left (fun e ev => handleChange (snd ev) (advance (fst ev) e)) events e.

(** What can happen to the mounted editor, and the state it is in after a
    sequence of such events. *)
Inductive Event : Type :=
| SelectionChanged (s : option FileNode)
| Changed (sc : InitialData)
| Elapsed (dt : nat).

Definition step (ev : Event) (e : Editor) : Editor :=
  match ev with
  | SelectionChanged s => selectFile s e
  | Changed sc => handleChange sc e
  | Elapsed dt => advance dt e
  end.

Definition run (evs : list Event) (e : Editor) : Editor :=
  fold_left (fun e ev => step ev e) evs e.

End WithEngine.

(** The scene of the last event of a run that starts with [first]. *)
Definition lastScene (first : InitialData) (events : list (nat * InitialData))
  : InitialData :=
  last (map snd events) first.

(** The state between two events of a burst that began in [e0]: one save is
    pending, the one armed for scene [sc] and file [f], due a full delay
    from now, and nothing has been written since [e0]. *)
Definition pending (f : FileNode) (sc : InitialData) (e0 e : Editor) : Prop :=
  exists i,
    timers e = [mkTimer i (now e + DELAY) sc f]
    /\ saveTimeoutRef e = Some i /\ 0 < i /\ 0 < nextTimer e
    /\ selected e = Some f /\ writes e = writes e0 /\ ctx e = ctx e0.

(** The timer table holds nothing but the timer [saveTimeoutRef] points at,
    and timer ids are positive, as the platform hands them out. *)
Definition tracked (e : Editor) : bool :=
  negb (Nat.eqb (nextTimer e) 0)
  && forallb (fun t =>
                match saveTimeoutRef e with
                | Some i => Nat.eqb i (tid t) && negb (Nat.eqb i 0)
                | None => false
                end) (timers e).

End Editor.

(** ** [src/context/FileSystemContext.tsx]: opening and restoring a directory *)

Module Session.
Import Platform FileSystemContext.

(** The answer of [queryPermission] and [requestPermission]. *)
Inductive Permission : Type := Granted | Denied | Prompt.

(** The provider's world together with the entry that [idb-keyval] keeps
    under [DIR_HANDLE_KEY]; the store is taken to be available. *)
Record Session : Type := mkSession {
  world : World;
  stored : option Handle
}.

Definition setRootHandle (h : Handle) (w : World) : World :=
  mkWorld (disk w)
    (mkState (Some h) (fileTree (state w)) (selectedFile (state w)))
    (console w).

Definition isAbort (e : Error) : bool :=
  match e with AbortError => true | _ => false end.

(** The page is loaded again: the React state starts empty, the console is
    new, the disk and the stored handle stay. *)
Definition reload (s : Session) : Session :=
  mkSession (mkWorld (disk (world s)) (mkState None [] None) []) (stored s).

Section WithCollation.
Variable localeCompare : string -> string -> Z.

(** [openDirectory]; [picked] is what [showDirectoryPicker()] gives, an
    [AbortError] when the user dismisses the picker. *)
Definition openDirectory (picked : Result Handle) (s : Session) : Session :=
  match picked with
  | Ok handle =>
      let w := setRootHandle handle (world s) in
      match scanDirectory localeCompare handle EmptyString w with
      | (Ok tree, w) =>
          mkSession (setSelectedFile None (setFileTree tree w)) (Some handle)
      | (Err err, w) =>
          mkSession (if isAbort err then w
                     else console_error "Error opening directory:" w)
                    (stored s)
      end
  | Err err =>
      mkSession (if isAbort err then world s
                 else console_error "Error opening directory:" (world s))
                (stored s)
  end.

(** The two places of [restoreDirectory] that adopt the stored handle. *)
Definition adopt (handle : Handle) (s : Session) : Session :=
  let w := setRootHandle handle (world s) in
  match scanDirectory localeCompare handle EmptyString w with
  | (Ok tree, w) => mkSession (setFileTree tree w) (stored s)
  | (Err _, w) =>
      mkSession (console_error "Could not restore last directory:" w) (stored s)
  end.

(** [restoreDirectory], run once on mount; [query] and [request] are what
    [queryPermission] and [requestPermission] answer if they are called. *)
Definition restoreDirectory (query request : Result Permission) (s : Session)
  : Session :=
  match stored s with
  | None => s
  | Some handle =>
      match query with
      | Ok Granted => adopt handle s
      | Ok _ =>
          match request with
          | Ok Granted => adopt handle s
          | Ok _ => s
          | Err _ =>
              mkSession (console_error "Could not restore last directory:"
                           (world s)) (stored s)
          end
      | Err _ =>
          mkSession (console_error "Could not restore last directory:"
                       (world s)) (stored s)
      end
  end.

End WithCollation.

End Session.

(** ** Concrete inputs used by the examples *)

Module Samples.
Import Platform FileSystemContext.

(** A comparator to run the scanner with: byte order of the names. *)
Definition byteCompare (a b : string) : Z :=
  match String.compare a b with
  | Lt => (-1)%Z
  | Eq => 0%Z
  | Gt => 1%Z
  end.

Definition root : Handle := mkHandle KDirectory [].

(** A directory with a hidden folder, a foreign file, an empty folder and a
    folder that has descendants. *)
Definition entries0 : list (string * Entry) :=
  [("b.excalidraw", EFile "{}");
   (".git", EDir [("z.excalidraw", EFile EmptyString)]);
   ("notes.txt", EFile "n");
   ("zdir", EDir [("b.excalidraw", EFile EmptyString); ("sub", EDir [])]);
   ("a.excalidraw", EFile "not json");
   ("adir", EDir [])].

Definition disk0 : Entry := EDir entries0.

Definition tree0 : list FileNode := scanDir byteCompare [] EmptyString disk0.

Definition world0 : World := mkWorld disk0 (mkState (Some root) tree0 None) [].

Definition fileA : FileNode :=
  mkNode "a.excalidraw" "a.excalidraw" KFile (mkHandle KFile ["a.excalidraw"]) None.

Definition fileB : FileNode :=
  mkNode "b.excalidraw" "b.excalidraw" KFile (mkHandle KFile ["b.excalidraw"]) None.

(** The file of the same name as [fileB], inside [zdir]. *)
Definition fileB_in_zdir : FileNode :=
  mkNode "zdir/b.excalidraw" "b.excalidraw" KFile
    (mkHandle KFile ["zdir"; "b.excalidraw"]) None.

Definition zdir : Handle := mkHandle KDirectory ["zdir"].

(** [world0] with the root's [b.excalidraw] selected. *)
Definition worldB : World := setSelectedFile (Some fileB) world0.

(** A fragment of [JSON.parse]: the two documents of [disk0] that parse. *)
Definition parse0 (s : string) : option JS.Value :=
  if String.eqb s "{}" then Some (JS.VObj [])
  else if String.eqb s "null" then Some JS.VNull
  else None.

(** A stand-in for [JSON.stringify]: it prints the number of elements. *)
Definition stringify0 (v : JS.Value) : string :=
  match v with
  | JS.VObj (("elements", JS.VArr xs) :: _) =>
      ("{ elements: " ++ Editor.index_key (List.length xs) ++ " }")%string
  | _ => "{}"
  end.

Definition message0 (e : Error) : string :=
  match e with
  | NotFoundError => "A requested file or directory could not be found."
  | _ => EmptyString
  end.

Definition scene1 : Editor.InitialData :=
  Editor.mkInitialData (JS.VArr [JS.VNull]) (JS.VObj []) (JS.VObj []).

Definition scene2 : Editor.InitialData :=
  Editor.mkInitialData (JS.VArr [JS.VNull; JS.VNull]) (JS.VObj []) (JS.VObj []).

Definition scene3 : Editor.InitialData :=
  Editor.mkInitialData (JS.VArr [JS.VNull; JS.VNull; JS.VNull]) (JS.VObj [])
    (JS.VObj []).

(** The editor with [a.excalidraw], whose content is not JSON, open and
    nothing pending. *)
Definition editorA : Editor.Editor :=
  Editor.selectFile parse0 message0 (Some fileA) (Editor.init world0).

(** A drag of the root's [b.excalidraw], whose parent is the root. *)
Definition dragging : FileExplorer.UI :=
  FileExplorer.mkUI world0 (Some (FileExplorer.mkDrag fileB root)) ["zdir"] [].

Definition adirNode : FileNode :=
  mkNode "adir" "adir" KDirectory (mkHandle KDirectory ["adir"]) (Some []).

Definition subNode : FileNode :=
  mkNode "zdir/sub" "sub" KDirectory (mkHandle KDirectory ["zdir"; "sub"])
    (Some []).

Definition zdirNode : FileNode :=
  mkNode "zdir" "zdir" KDirectory zdir (Some [subNode; fileB_in_zdir]).

(** A node whose file is no longer on disk. *)
Definition fileGone : FileNode :=
  mkNode "gone.excalidraw" "gone.excalidraw" KFile
    (mkHandle KFile ["gone.excalidraw"]) None.



(** The editor on [fileGone] with one change event pending. *)
Definition editorGone : Editor.Editor :=
  Editor.handleChange scene1
    (Editor.selectFile parse0 message0 (Some fileGone) (Editor.init world0)).

(** A scene that differs from [scene2] in its appState and files only. *)
Definition scene4 : Editor.InitialData :=
  Editor.mkInitialData (JS.VArr [JS.VNull; JS.VNull])
    (JS.VObj [("zoom", JS.VNum 1%float)]) (JS.VObj [("f1", JS.VNull)]).

(** A stand-in for [JSON.stringify] that looks at all three fields: it
    prints the number of elements, of appState keys and of files. *)
Definition stringifyAll (v : JS.Value) : string :=
  match v with
  | JS.VObj [("elements", JS.VArr xs); ("appState", JS.VObj a);
             ("files", JS.VObj fs)] =>
      ("{ elements: " ++ Editor.index_key (List.length xs)
         ++ ", appState: " ++ Editor.index_key (List.length a)
         ++ ", files: " ++ Editor.index_key (List.length fs) ++ " }")%string
  | _ => "{}"
  end.

(** The double quote. *)
Definition quote : string := String "034"%char EmptyString.

(** A file that is JSON but no diagram: its [elements] is a number and its
    [files] a string. *)
Definition oddText : string :=
  ("{" ++ quote ++ "elements" ++ quote ++ ":5,"
       ++ quote ++ "files" ++ quote ++ ":" ++ quote ++ "x" ++ quote ++ "}")%string.

Definition oddValue : JS.Value :=
  JS.VObj [("elements", JS.VNum 5%float); ("files", JS.VStr "x")].

(** [parse0] with [oddText] parsed as well. *)
Definition parseOdd (s : string) : option JS.Value :=
  if String.eqb s oddText then Some oddValue else parse0 s.

Definition diskOdd : Entry := EDir [("odd.excalidraw", EFile oddText)].

Definition worldOdd : World :=
  mkWorld diskOdd
    (mkState (Some root) (scanDir byteCompare [] EmptyString diskOdd) None) [].

Definition fileOdd : FileNode :=
  mkNode "odd.excalidraw" "odd.excalidraw" KFile
    (mkHandle KFile ["odd.excalidraw"]) None.

(** The explorer with no drag in progress. *)
Definition idle : FileExplorer.UI := FileExplorer.mkUI world0 None [] [].

(** A first visit: nothing stored yet. *)
Definition session0 : Session.Session := Session.mkSession world0 None.

(** A handle to a directory that is not on disk. *)
Definition nowhere : Handle := mkHandle KDirectory ["nowhere"].

End Samples.

(** * Properties *)

(** ** The sort *)

Section SortFacts.
Context {A : Type} (cmp : A -> A -> Z).

Lemma insert_perm (x : A) (l : list A) :
  Permutation (x :: l) (JS.insert cmp x l).
Proof.
  induction l as [|y r IH]; simpl; [reflexivity|].
  destruct (0 <? cmp x y)%Z; [|reflexivity].
  rewrite perm_swap. now constructor.
Qed.

Lemma sort_perm (l : list A) : Permutation l (JS.sort cmp l).
Proof.
  induction l as [|x r IH]; simpl; [constructor|].
  rewrite <- insert_perm. now constructor.
Qed.

Lemma sort_In (x : A) (l : list A) : In x (JS.sort cmp l) <-> In x l.
Proof.
  split; apply Permutation_in; [symmetry|]; apply sort_perm.
Qed.

(** A consistent comparator: a total preorder. *)
Hypothesis cmp_total : forall a b, (0 < cmp a b)%Z -> (cmp b a <= 0)%Z.
Hypothesis cmp_trans :
  forall a b c, (cmp a b <= 0)%Z -> (cmp b c <= 0)%Z -> (cmp a c <= 0)%Z.

Lemma insert_sorted (x : A) (l : list A) :
  StronglySorted (JS.ordered cmp) l ->
  StronglySorted (JS.ordered cmp) (JS.insert cmp x l).
Proof.
  unfold JS.ordered.
  induction 1 as [|y r Hr IH Hy]; simpl.
  - repeat constructor.
  - destruct (Z.ltb_spec 0 (cmp x y)) as [Hlt|Hle].
    + constructor; [exact IH|].
      rewrite Forall_forall. intros z Hz.
      apply (Permutation_in _ (Permutation_sym (insert_perm x r))) in Hz.
      destruct Hz as [<-|Hz]; [now apply cmp_total|].
      rewrite Forall_forall in Hy. now apply Hy.
    + constructor; [now constructor|].
      constructor; [exact Hle|].
      rewrite Forall_forall in *. intros z Hz.
      apply cmp_trans with y; [exact Hle|now apply Hy].
Qed.

Lemma sort_sorted (l : list A) : StronglySorted (JS.ordered cmp) (JS.sort cmp l).
Proof.
  induction l as [|x r IH]; simpl; [constructor|now apply insert_sorted].
Qed.
End SortFacts.

Lemma StronglySorted_nth {A : Type} (R : A -> A -> Prop) (l : list A) :
  StronglySorted R l ->
  forall i j a b,
    i < j -> nth_error l i = Some a -> nth_error l j = Some b -> R a b.
Proof.
  induction 1 as [|x r Hr IH Hx]; intros i j a b Hij Hi Hj.
  - destruct i; discriminate.
  - destruct j as [|j]; [lia|]. simpl in Hj.
    destruct i as [|i]; simpl in Hi.
    + injection Hi as <-. rewrite Forall_forall in Hx.
      apply Hx. eapply nth_error_In; eassumption.
    + apply (IH i j); [lia|assumption..].
Qed.

(** ** Strings *)

Lemma endsWith_refl (s : string) : JS.endsWith s s = true.
Proof. destruct s; simpl; [reflexivity|]. now rewrite Ascii.eqb_refl, String.eqb_refl. Qed.

Lemma endsWith_append (a p : string) : JS.endsWith (a ++ p) p = true.
Proof.
  induction a as [|c a IH].
  - apply endsWith_refl.
  - cbn [append]. unfold JS.endsWith; fold JS.endsWith.
    destruct (String.eqb (String c (a ++ p)) p); [reflexivity|exact IH].
Qed.

(** ** The scanner *)

Import Platform FileSystemContext.

Lemma Entry_induction (P : Entry -> Prop) :
  (forall c, P (EFile c)) ->
  (forall cs, Forall (fun p => P (snd p)) cs -> P (EDir cs)) ->
  forall e, P e.
Proof.
  intros Hf Hd. fix IH 1. intros [c|cs]; [apply Hf|].
  apply Hd. induction cs as [|[n e] r IHr]; constructor; [apply IH|exact IHr].
Qed.

Section ScanFacts.
Variable localeCompare : string -> string -> Z.

Lemma scanDir_unfold h path cs :
  scanDir localeCompare h path (EDir cs)
  = sortNodes localeCompare (scanLoop localeCompare h path cs).
Proof. reflexivity. Qed.

Lemma all_nodes_In (x : FileNode) (t : list FileNode) :
  In x (all_nodes t) <-> exists n, In n t /\ In x (subtree n).
Proof. unfold all_nodes. apply in_flat_map. Qed.

Lemma all_nodes_sort (x : FileNode) (t : list FileNode) :
  In x (all_nodes (sortNodes localeCompare t)) <-> In x (all_nodes t).
Proof.
  rewrite !all_nodes_In. unfold sortNodes.
  split; intros (n & Hn & Hx); exists n; split; trivial;
    now apply (sort_In (compareNodes localeCompare)).
Qed.

Lemma child_lists_sort (l : list FileNode) (t : list FileNode) :
  In l (flat_map child_lists (sortNodes localeCompare t))
  <-> In l (flat_map child_lists t).
Proof.
  rewrite !in_flat_map. unfold sortNodes.
  split; intros (n & Hn & Hx); exists n; split; trivial;
    now apply (sort_In (compareNodes localeCompare)).
Qed.

Lemma scan_shown (dir : Entry) :
  forall h path n,
    In n (all_nodes (scanDir localeCompare h path dir)) ->
    JS.startsWith (name n) "." = false
    /\ (kind n = KFile -> JS.endsWith (name n) EXT = true).
Proof.
  induction dir as [c|cs IH] using Entry_induction; intros h path n Hn.
  - destruct Hn.
  - rewrite scanDir_unfold, all_nodes_sort in Hn.
    induction cs as [|[nm e] r IHr]; simpl in Hn; [destruct Hn|].
    inversion IH as [|? ? He Hr]; subst. simpl in He.
    destruct (Kind_eqb (kindOf e) KFile && negb (JS.endsWith nm EXT)) eqn:Hf;
      [now apply IHr|].
    destruct (JS.startsWith nm ".") eqn:Hdot; [now apply IHr|].
    destruct e as [c|ds].
    + simpl in Hn. destruct Hn as [<-|Hn]; [|now apply IHr].
      split; simpl; [exact Hdot|intros _].
      simpl in Hf. now destruct (JS.endsWith nm EXT).
    + simpl in Hn. destruct Hn as [<-|Hn].
      * split; simpl; [exact Hdot|discriminate].
      * apply in_app_or in Hn. destruct Hn as [Hn|Hn]; [|now apply IHr].
        apply (proj1 (all_nodes_sort _ _)) in Hn. eapply He; eassumption.
Qed.

Lemma scan_retains (dir : Entry) :
  forall h path i nm hp,
    In (i, nm, hp) (visibleDirs h path dir) ->
    exists n, In n (all_nodes (scanDir localeCompare h path dir))
              /\ id n = i /\ name n = nm /\ kind n = KDirectory
              /\ handle n = mkHandle KDirectory hp.
Proof.
  induction dir as [c|cs IH] using Entry_induction; intros h path i nm hp Hin.
  - destruct Hin.
  - enough (exists n, In n (all_nodes (scanLoop localeCompare h path cs))
              /\ id n = i /\ name n = nm /\ kind n = KDirectory
              /\ handle n = mkHandle KDirectory hp) as (n & Hn & Hrest).
    { exists n. split; [|exact Hrest].
      rewrite scanDir_unfold. now apply all_nodes_sort. }
    induction cs as [|[nm' e] r IHr]; simpl in Hin; [destruct Hin|].
    inversion IH as [|? ? He Hr]; subst. simpl in He.
    assert (Hmono : forall n,
               In n (all_nodes (scanLoop localeCompare h path r)) ->
               In n (all_nodes (scanLoop localeCompare h path ((nm', e) :: r)))).
    { intros n Hn. simpl.
      destruct (Kind_eqb (kindOf e) KFile && negb (JS.endsWith nm' EXT)); trivial.
      destruct (JS.startsWith nm' "."); trivial.
      destruct e; simpl; [now right|right; apply in_or_app; now right]. }
    destruct e as [c|ds].
    + destruct (IHr Hr Hin) as (n & Hn & Hrest). exists n. split; auto.
    + destruct (JS.startsWith nm' ".") eqn:Hdot.
      * destruct (IHr Hr Hin) as (n & Hn & Hrest). exists n. split; auto.
      * destruct Hin as [Heq|Hin];
          [|apply in_app_or in Hin; destruct Hin as [Hin|Hin]].
        -- injection Heq as <- <- <-.
           eexists. split; [simpl; rewrite Hdot; simpl; left; reflexivity|].
           simpl. repeat split.
        -- destruct (He _ _ _ _ _ Hin) as (n & Hn & Hrest).
           exists n. split; [|exact Hrest].
           simpl. rewrite Hdot. simpl. right. apply in_or_app. left.
           now apply (proj2 (all_nodes_sort _ _)).
        -- destruct (IHr Hr Hin) as (n & Hn & Hrest). exists n. split; auto.
Qed.

(** C4.  In the tree a scan returns, no node at any depth has a name that
    starts with a dot, every file node's name ends in [.excalidraw], and
    every directory on disk that is reachable through names without a
    leading dot has its directory node, whatever its name and whether or
    not anything is left inside it. *)
Theorem scanDirectory_filters (h : list string) (path : string) (dir : Entry) :
  (forall n,
      In n (all_nodes (scanDir localeCompare h path dir)) ->
      JS.startsWith (name n) "." = false
      /\ (kind n = KFile -> JS.endsWith (name n) EXT = true))
  /\ (forall i nm hp,
         In (i, nm, hp) (visibleDirs h path dir) ->
         exists n, In n (all_nodes (scanDir localeCompare h path dir))
                   /\ id n = i /\ name n = nm /\ kind n = KDirectory
                   /\ handle n = mkHandle KDirectory hp).
Proof.
  split.
  - intros n. apply scan_shown.
  - intros i nm hp. apply scan_retains.
Qed.

End ScanFacts.

Lemma byteCompare_total (a b : string) :
  (0 < Samples.byteCompare a b)%Z -> (Samples.byteCompare b a <= 0)%Z.
Proof.
  unfold Samples.byteCompare. rewrite (String.compare_antisym a b).
  destruct (String.compare b a); simpl; lia.
Qed.

Lemma byteCompare_trans (a b c : string) :
  (Samples.byteCompare a b <= 0)%Z -> (Samples.byteCompare b c <= 0)%Z ->
  (Samples.byteCompare a c <= 0)%Z.
Proof.
  unfold Samples.byteCompare.
  destruct (String.compare a b) eqn:Hab; [| |lia]; intros _.
  - apply String.compare_eq_iff in Hab. now subst.
  - destruct (String.compare b c) eqn:Hbc; [| |lia]; intros _.
    + apply String.compare_eq_iff in Hbc. subst. now rewrite Hab.
    + apply String_as_OT.cmp_lt in Hab, Hbc.
      pose proof (String_as_OT.lt_trans _ _ _ Hab Hbc) as Hac.
      apply String_as_OT.cmp_lt in Hac. unfold String_as_OT.cmp in Hac.
      rewrite Hac. lia.
Qed.

Lemma scanDirectory_filters_witness :
  (JS.startsWith (name Samples.fileB_in_zdir) "." = false
   /\ (kind Samples.fileB_in_zdir = KFile ->
       JS.endsWith (name Samples.fileB_in_zdir) EXT = true))
  /\ exists n, In n (all_nodes Samples.tree0)
               /\ id n = "zdir/sub" /\ name n = "sub" /\ kind n = KDirectory
               /\ handle n = mkHandle KDirectory ["zdir"; "sub"].
Proof.
  destruct (scanDirectory_filters Samples.byteCompare [] EmptyString Samples.disk0)
    as [Hshown Hkept].
  split.
  - apply Hshown. vm_compute. tauto.
  - apply Hkept. vm_compute. tauto.
Defined.

Section ScanOrder.
Variable localeCompare : string -> string -> Z.

Lemma scan_sibling_lists (dir : Entry) :
  forall h path l,
    In l (sibling_lists (scanDir localeCompare h path dir)) ->
    l = [] \/ exists t, l = sortNodes localeCompare t.
Proof.
  induction dir as [c|cs IH] using Entry_induction; intros h path l Hl.
  - destruct Hl as [<-|[]]. now left.
  - rewrite scanDir_unfold in Hl. destruct Hl as [<-|Hl]; [right; eauto|].
    apply (proj1 (child_lists_sort _ _ _)) in Hl.
    induction cs as [|[nm e] r IHr]; simpl in Hl; [destruct Hl|].
    inversion IH as [|? ? He Hr]; subst. simpl in He.
    destruct (Kind_eqb (kindOf e) KFile && negb (JS.endsWith nm EXT));
      [now apply IHr|].
    destruct (JS.startsWith nm "."); [now apply IHr|].
    destruct e as [c|ds]; simpl in Hl; [now apply IHr|].
    destruct Hl as [<-|Hl]; [right; eauto|].
    apply in_app_or in Hl. destruct Hl as [Hl|Hl]; [|now apply IHr].
    apply (proj1 (child_lists_sort _ _ _)) in Hl.
    eapply He. right. exact Hl.
Qed.

(** [localeCompare] is a consistent comparison: a total preorder on
    names. *)
Hypothesis localeCompare_total :
  forall a b, (0 < localeCompare a b)%Z -> (localeCompare b a <= 0)%Z.
Hypothesis localeCompare_trans :
  forall a b c, (localeCompare a b <= 0)%Z -> (localeCompare b c <= 0)%Z ->
                (localeCompare a c <= 0)%Z.

Lemma compareNodes_total (a b : FileNode) :
  (0 < compareNodes localeCompare a b)%Z ->
  (compareNodes localeCompare b a <= 0)%Z.
Proof.
  unfold compareNodes.
  destruct (kind a), (kind b); simpl; try lia; apply localeCompare_total.
Qed.

Lemma compareNodes_trans (a b c : FileNode) :
  (compareNodes localeCompare a b <= 0)%Z ->
  (compareNodes localeCompare b c <= 0)%Z ->
  (compareNodes localeCompare a c <= 0)%Z.
Proof.
  unfold compareNodes.
  destruct (kind a), (kind b), (kind c); simpl; try lia;
    apply localeCompare_trans.
Qed.

(** C5.  In every sibling list of a scanned tree (the root list and the
    children of every directory node) a directory never comes after a
    file, and two nodes of the same kind stand in [localeCompare] order
    of their names. *)
Theorem scanDirectory_sibling_order (h : list string) (path : string)
    (dir : Entry) (l : list FileNode) :
  In l (sibling_lists (scanDir localeCompare h path dir)) ->
  forall i j a b,
    i < j -> nth_error l i = Some a -> nth_error l j = Some b ->
    (kind b = KDirectory -> kind a = KDirectory)
    /\ (kind a = kind b -> (localeCompare (name a) (name b) <= 0)%Z).
Proof.
  intros Hl i j a b Hij Ha Hb.
  assert (Hs : StronglySorted (JS.ordered (compareNodes localeCompare)) l).
  { destruct (scan_sibling_lists _ _ _ _ Hl) as [->|[t ->]]; [constructor|].
    apply sort_sorted; [apply compareNodes_total|apply compareNodes_trans]. }
  pose proof (StronglySorted_nth _ _ Hs i j a b Hij Ha Hb) as Hab.
  unfold JS.ordered, compareNodes in Hab.
  destruct (kind a), (kind b); simpl in Hab; split; intros; trivial;
    try discriminate; lia.
Qed.

End ScanOrder.

Lemma scanDirectory_sibling_order_witness :
  In Samples.tree0 (sibling_lists Samples.tree0)
  /\ 0 < 1
  /\ nth_error Samples.tree0 0 = Some Samples.adirNode
  /\ nth_error Samples.tree0 1 = Some Samples.zdirNode
  /\ (kind Samples.zdirNode = KDirectory -> kind Samples.adirNode = KDirectory)
  /\ (kind Samples.adirNode = kind Samples.zdirNode ->
      (Samples.byteCompare (name Samples.adirNode) (name Samples.zdirNode) <= 0)%Z).
Proof.
  assert (Hin : In Samples.tree0 (sibling_lists Samples.tree0)) by (left; reflexivity).
  assert (H0 : nth_error Samples.tree0 0 = Some Samples.adirNode) by reflexivity.
  assert (H1 : nth_error Samples.tree0 1 = Some Samples.zdirNode) by reflexivity.
  repeat (split; [assumption || lia|]).
  exact (scanDirectory_sibling_order Samples.byteCompare byteCompare_total
           byteCompare_trans [] EmptyString Samples.disk0 Samples.tree0 Hin 0 1
           Samples.adirNode Samples.zdirNode (Nat.lt_0_1) H0 H1).
Defined.

(** ** The platform *)

Lemma alter_child_assoc {B : Type} (n : string) (g : B -> Result B)
    (cs : list (string * B)) (c : B) :
  JS.assoc n cs = Some c ->
  match g c with
  | Ok c' => exists cs', alter_child n g cs = Ok cs' /\ JS.assoc n cs' = Some c'
  | Err e => alter_child n g cs = Err e
  end.
Proof.
  induction cs as [|[m x] r IH]; simpl; [discriminate|].
  destruct (String.eqb m n) eqn:Hm.
  - intros [= ->]. destruct (g c) as [c'|e]; simpl; [|reflexivity].
    eexists. split; [reflexivity|]. simpl. now rewrite Hm.
  - intros Hc. specialize (IH Hc). destruct (g c) as [c'|e].
    + destruct IH as (cs' & -> & Hcs'). simpl.
      eexists. split; [reflexivity|]. simpl. now rewrite Hm.
    + now rewrite IH.
Qed.

Lemma alter_lookup (p : list string) (f : Entry -> Result Entry) :
  forall e x,
    lookup p e = Some x ->
    match f x with
    | Ok x' => exists e', alter p f e = Ok e' /\ lookup p e' = Some x'
    | Err er => alter p f e = Err er
    end.
Proof.
  induction p as [|n p IH]; intros e x; simpl.
  - intros [= ->]. destruct (f x) as [x'|er]; eauto.
  - destruct e as [c|cs]; [discriminate|].
    destruct (JS.assoc n cs) as [c|] eqn:Hc; [|discriminate].
    intros Hx. specialize (IH c x Hx).
    pose proof (alter_child_assoc n (alter p f) cs c Hc) as Hch.
    destruct (f x) as [x'|er].
    + destruct IH as (c' & Hc' & Hl). rewrite Hc' in Hch.
      destruct Hch as (cs' & -> & Hcs'). simpl.
      eexists. split; [reflexivity|]. simpl. now rewrite Hcs'.
    + rewrite IH in Hch. now rewrite Hch.
Qed.

Lemma alter_id (p : list string) (f : Entry -> Result Entry) :
  forall e x, lookup p e = Some x -> f x = Ok x -> alter p f e = Ok e.
Proof.
  induction p as [|n p IH]; intros e x; simpl.
  - now intros [= ->].
  - destruct e as [c|cs]; [discriminate|].
    intros Hl Hf.
    assert (H : alter_child n (alter p f) cs = Ok cs).
    { induction cs as [|[m y] r IHr]; simpl in *; [discriminate|].
      destruct (String.eqb m n).
      - now rewrite (IH _ _ Hl Hf).
      - now rewrite (IHr Hl). }
    now rewrite H.
Qed.

Lemma remove_key_assoc {B : Type} (n : string) (cs : list (string * B)) :
  JS.assoc n (JS.remove_key n cs) = None.
Proof.
  induction cs as [|[m x] r IH]; simpl; [reflexivity|].
  destruct (String.eqb m n) eqn:Hm; [exact IH|]. simpl. now rewrite Hm.
Qed.

Lemma assoc_absent {B : Type} (n : string) (cs : list (string * B)) :
  ~ In n (map fst cs) -> JS.assoc n cs = None.
Proof.
  induction cs as [|[m x] r IH]; simpl; [reflexivity|]. intros Hn.
  destruct (String.eqb_spec m n) as [->|_]; [tauto|]. apply IH. tauto.
Qed.


(** ** The provider's operations *)

Section ContextFacts.
Variable localeCompare : string -> string -> Z.

Lemma scanDirectory_result (dirHandle : Handle) (path : string) (w w' : World)
    (t : list FileNode) :
  scanDirectory localeCompare dirHandle path w = (Ok t, w') ->
  w' = w
  /\ exists cs, lookup (hpath dirHandle) (disk w) = Some (EDir cs)
               /\ t = scanDir localeCompare (hpath dirHandle) path (EDir cs).
Proof.
  unfold scanDirectory, entries, ask.
  destruct (lookup (hpath dirHandle) (disk w)) as [[c|cs]|]; simpl;
    try discriminate.
  intros [= <- <-]. eauto.
Qed.

Lemma refreshDirectory_frame (w : World) :
  disk (snd (refreshDirectory localeCompare w)) = disk w
  /\ selectedFile (state (snd (refreshDirectory localeCompare w)))
     = selectedFile (state w)
  /\ rootHandle (state (snd (refreshDirectory localeCompare w)))
     = rootHandle (state w)
  /\ console (snd (refreshDirectory localeCompare w)) = console w.
Proof.
  unfold refreshDirectory, scanDirectory, entries, bind, ask, modify, ret.
  destruct (rootHandle (state w)) as [r|] eqn:Hr; simpl; [|now rewrite Hr].
  destruct (lookup (hpath r) (disk w)) as [[c|cs]|]; simpl; now rewrite ?Hr.
Qed.

Lemma refreshDirectory_ok (w : World) :
  rootResolves w = true -> fst (refreshDirectory localeCompare w) = Ok tt.
Proof.
  unfold rootResolves, refreshDirectory, scanDirectory, entries, bind, ask,
    modify, ret.
  destruct (rootHandle (state w)) as [r|]; simpl; [|reflexivity].
  destruct (lookup (hpath r) (disk w)) as [[c|cs]|]; simpl; congruence.
Qed.

Lemma refreshDirectory_failed (w : World) (e : Error) :
  fst (refreshDirectory localeCompare w) = Err e ->
  snd (refreshDirectory localeCompare w) = w.
Proof.
  unfold refreshDirectory, scanDirectory, entries, bind, ask, modify, ret.
  destruct (rootHandle (state w)) as [r|]; simpl; [|discriminate].
  destruct (lookup (hpath r) (disk w)) as [[c|cs]|]; simpl; congruence.
Qed.

Lemma deleteEntry_rejected (parent : Handle) (nm : string) (w : World)
    (e : Error) :
  removeEntry parent nm false (disk w) = Err e ->
  deleteEntry localeCompare parent nm w
  = (Err e, console_error "Error deleting entry:" w).
Proof.
  intros Hrm. unfold deleteEntry, try_catch, bind, act. now rewrite Hrm.
Qed.

(** C10.  When the platform's [removeEntry] fails, [deleteEntry] rethrows
    that error and leaves the selection, the tree snapshot and the disk as
    they were: the selection test and the rescan are never reached. *)
Theorem deleteEntry_failure_atomic (parent : Handle) (nm : string) (w : World)
    (e : Error) :
  removeEntry parent nm false (disk w) = Err e ->
  fst (deleteEntry localeCompare parent nm w) = Err e
  /\ selectedFile (state (snd (deleteEntry localeCompare parent nm w)))
     = selectedFile (state w)
  /\ fileTree (state (snd (deleteEntry localeCompare parent nm w)))
     = fileTree (state w)
  /\ disk (snd (deleteEntry localeCompare parent nm w)) = disk w.
Proof.
  intros Hrm. rewrite (deleteEntry_rejected _ _ _ _ Hrm). repeat split.
Qed.

(** C8.  After a successful [deleteEntry(parent, name)] the selection is
    empty exactly when the file that was selected has the deleted name (or
    nothing was selected); otherwise it is the same node as before.  Only
    the name is compared, never the parent or the id. *)
Theorem deleteEntry_selection (parent : Handle) (nm : string) (w : World) :
  fst (deleteEntry localeCompare parent nm w) = Ok tt ->
  selectedFile (state (snd (deleteEntry localeCompare parent nm w)))
  = selectionAfterDelete (selectedFile (state w)) nm.
Proof.
  unfold deleteEntry, try_catch, bind, act, selectionAfterDelete.
  destruct (removeEntry parent nm false (disk w)) as [d|e]; [|discriminate].
  set (w1 := setDisk d w).
  assert (Hsel : selectedFile (state w1) = selectedFile (state w)) by reflexivity.
  destruct (selectedFile (state w)) as [f|] eqn:Hf.
  - destruct (String.eqb (name f) nm); unfold modify, ret; simpl.
    + destruct (refreshDirectory localeCompare (setSelectedFile None w1))
        as [[[]|e] w2] eqn:Hrf; simpl; [intros _|discriminate].
      pose proof (refreshDirectory_frame (setSelectedFile None w1)) as (_ & H & _).
      now rewrite Hrf in H.
    + destruct (refreshDirectory localeCompare w1)
        as [[[]|e] w2] eqn:Hrf; simpl; [intros _|discriminate].
      pose proof (refreshDirectory_frame w1) as (_ & H & _).
      rewrite Hrf in H. simpl in H. congruence.
  - unfold ret; simpl.
    destruct (refreshDirectory localeCompare w1)
      as [[[]|e] w2] eqn:Hrf; simpl; [intros _|discriminate].
    pose proof (refreshDirectory_frame w1) as (_ & H & _).
    rewrite Hrf in H. simpl in H. congruence.
Qed.

Lemma count_named_insert (nm : string) (x : FileNode) (l : list FileNode) :
  count_named nm (JS.insert (compareNodes localeCompare) x l)
  = count_named nm (x :: l).
Proof.
  unfold count_named.
  induction l as [|y r IH]; simpl; [reflexivity|].
  destruct (0 <? compareNodes localeCompare x y)%Z; simpl; [|reflexivity].
  destruct (String.eqb (name y) nm); simpl in *; rewrite IH;
    destruct (String.eqb (name x) nm); reflexivity.
Qed.

Lemma count_named_sort (nm : string) (l : list FileNode) :
  count_named nm (sortNodes localeCompare l) = count_named nm l.
Proof.
  unfold sortNodes.
  induction l as [|x r IH]; simpl; [reflexivity|].
  rewrite count_named_insert. unfold count_named in *. simpl.
  destruct (String.eqb (name x) nm); simpl; now rewrite IH.
Qed.

Lemma count_scanLoop_absent (nm : string) (h : list string) (path : string)
    (cs : list (string * Entry)) :
  JS.assoc nm cs = None ->
  count_named nm (scanLoop localeCompare h path cs) = 0.
Proof.
  induction cs as [|[m e] r IH]; simpl; [reflexivity|].
  destruct (String.eqb_spec m nm) as [->|Hm]; [discriminate|]. intros Hr.
  destruct (Kind_eqb (kindOf e) KFile && negb (JS.endsWith m EXT)); [now apply IH|].
  destruct (JS.startsWith m "."); [now apply IH|].
  specialize (IH Hr). unfold count_named in *.
  apply String.eqb_neq in Hm.
  destruct e; simpl; rewrite Hm; exact IH.
Qed.

Lemma count_scanLoop_present (nm : string) (h : list string) (path : string)
    (cs : list (string * Entry)) (e : Entry) :
  NoDup (map fst cs) ->
  JS.assoc nm cs = Some e ->
  count_named nm (scanLoop localeCompare h path cs)
  = if (Kind_eqb (kindOf e) KFile && negb (JS.endsWith nm EXT))
       || JS.startsWith nm "."
    then 0 else 1.
Proof.
  induction cs as [|[m x] r IH]; simpl; [discriminate|].
  intros Hnd. inversion Hnd as [|? ? Hm Hr]; subst.
  destruct (String.eqb_spec m nm) as [->|Hne].
  - intros [= ->].
    pose proof (count_scanLoop_absent nm h path r (assoc_absent _ _ Hm)) as H0.
    destruct (Kind_eqb (kindOf e) KFile && negb (JS.endsWith nm EXT)); [exact H0|].
    destruct (JS.startsWith nm "."); [exact H0|]. simpl.
    unfold count_named in *.
    destruct e; simpl; rewrite String.eqb_refl; simpl; now rewrite H0.
  - intros He. specialize (IH Hr He).
    destruct (Kind_eqb (kindOf x) KFile && negb (JS.endsWith m EXT)); [exact IH|].
    destruct (JS.startsWith m "."); [exact IH|].
    unfold count_named in *. apply String.eqb_neq in Hne.
    destruct x; simpl; rewrite Hne; exact IH.
Qed.

Lemma deleteEntry_removed (parent : Handle) (nm : string) (w : World) (d : Entry) :
  removeEntry parent nm false (disk w) = Ok d ->
  disk (snd (deleteEntry localeCompare parent nm w)) = d
  /\ rootHandle (state (snd (deleteEntry localeCompare parent nm w)))
     = rootHandle (state w)
  /\ (rootResolves (setDisk d w) = true ->
      fst (deleteEntry localeCompare parent nm w) = Ok tt).
Proof.
  intros Hrm. unfold deleteEntry, try_catch, bind, act. rewrite Hrm.
  set (w1 := setDisk d w).
  set (step := match selectedFile (state w) with
               | Some f => if String.eqb (name f) nm
                           then modify (setSelectedFile None) else ret tt
               | None => ret tt
               end).
  assert (Hstep : exists w2, step w1 = (Ok tt, w2) /\ disk w2 = d
                             /\ rootHandle (state w2) = rootHandle (state w)
                             /\ rootResolves w2 = rootResolves w1).
  { unfold step. destruct (selectedFile (state w)) as [f|];
      [destruct (String.eqb (name f) nm)|]; eexists; split; try reflexivity;
      repeat split. }
  destruct Hstep as (w2 & -> & Hd & Hroot & Hres).
  pose proof (refreshDirectory_frame w2) as (Hfd & _ & Hfr & _).
  pose proof (refreshDirectory_ok w2) as Hok.
  pose proof (refreshDirectory_failed w2) as Hfail.
  destruct (refreshDirectory localeCompare w2) as [[[]|e] w3]; simpl in *.
  - repeat split; congruence.
  - rewrite (Hfail e eq_refl). repeat split; try congruence.
    intros H. rewrite <- Hres in H. specialize (Hok H). discriminate.
Qed.

(** C2, amended.  [deleteEntry] calls [removeEntry] without the recursive
    option.  A file or an empty directory of that name is removed from the
    parent, and the call succeeds when the root can still be rescanned; a
    directory that has descendants is refused by the platform, the error
    is rethrown and the disk is as before. *)
Theorem deleteEntry_removal (parent : Handle) (nm : string) (w : World)
    (cs : list (string * Entry)) (c : Entry) :
  valid_name nm = true ->
  lookup (hpath parent) (disk w) = Some (EDir cs) ->
  JS.assoc nm cs = Some c ->
  match c with
  | EDir (_ :: _) =>
      fst (deleteEntry localeCompare parent nm w) = Err InvalidModificationError
      /\ disk (snd (deleteEntry localeCompare parent nm w)) = disk w
  | _ =>
      lookup (hpath parent) (disk (snd (deleteEntry localeCompare parent nm w)))
      = Some (EDir (JS.remove_key nm cs))
      /\ JS.assoc nm (JS.remove_key nm cs) = None
      /\ (rootResolves (snd (deleteEntry localeCompare parent nm w)) = true ->
          fst (deleteEntry localeCompare parent nm w) = Ok tt)
  end.
Proof.
  intros Hv Hl Hc.
  pose proof (alter_lookup (hpath parent)
                (on_children (remove_child nm false)) _ _ Hl) as Ha.
  assert (Hrm : removeEntry parent nm false (disk w)
                = alter (hpath parent) (on_children (remove_child nm false)) (disk w)).
  { unfold removeEntry. now rewrite Hv. }
  assert (Hgone : forall d,
             removeEntry parent nm false (disk w) = Ok d ->
             lookup (hpath parent) d = Some (EDir (JS.remove_key nm cs)) ->
             lookup (hpath parent) (disk (snd (deleteEntry localeCompare parent nm w)))
             = Some (EDir (JS.remove_key nm cs))
             /\ JS.assoc nm (JS.remove_key nm cs) = None
             /\ (rootResolves (snd (deleteEntry localeCompare parent nm w)) = true ->
                 fst (deleteEntry localeCompare parent nm w) = Ok tt)).
  { intros d Hd Hld.
    destruct (deleteEntry_removed parent nm w d Hd) as (H1 & H2 & H3).
    rewrite H1. split; [exact Hld|]. split; [apply remove_key_assoc|].
    intros Hres. apply H3. unfold rootResolves in *. simpl.
    now rewrite H1, H2 in Hres. }
  assert (Hf : on_children (remove_child nm false) (EDir cs)
               = match c with
                 | EDir (_ :: _) => Err InvalidModificationError
                 | _ => Ok (EDir (JS.remove_key nm cs))
                 end).
  { unfold on_children, remove_child. rewrite Hc.
    now destruct c as [content|[|x xs]]. }
  rewrite Hf in Ha. clear Hf.
  destruct c as [content|[|x xs]].
  - destruct Ha as (d & Hd & Hld). rewrite <- Hrm in Hd. now apply (Hgone d).
  - destruct Ha as (d & Hd & Hld). rewrite <- Hrm in Hd. now apply (Hgone d).
  - rewrite <- Hrm in Ha.
    now rewrite (deleteEntry_rejected _ _ _ _ Ha).
Qed.

Lemma create_keeps (parent : Handle) (nm : string) (want : Kind) (fresh : Entry)
    (d : Entry) (cs : list (string * Entry)) (c : Entry) :
  lookup (hpath parent) d = Some (EDir cs) ->
  JS.assoc nm cs = Some c ->
  kindOf c = want ->
  alter (hpath parent) (on_children (get_or_create want fresh nm true)) d = Ok d.
Proof.
  intros Hl Hc Hk. apply alter_id with (EDir cs); [exact Hl|].
  unfold on_children, get_or_create. rewrite Hc, Hk.
  now destruct want.
Qed.

Lemma createFile_creates (parent : Handle) (nm : string) (w : World)
    (cs : list (string * Entry)) :
  let fileName := if JS.endsWith nm EXT then nm else (nm ++ EXT)%string in
  lookup (hpath parent) (disk w) = Some (EDir cs) ->
  valid_name fileName = true ->
  JS.assoc fileName cs = None ->
  lookup (hpath parent) (disk (snd (createFile localeCompare parent nm w)))
  = Some (EDir (cs ++ [(fileName, EFile EmptyString)])).
Proof.
  intros fileName Hl Hv Hc.
  pose proof (alter_lookup (hpath parent)
                (on_children (get_or_create KFile (EFile EmptyString) fileName true))
                _ _ Hl) as Ha.
  unfold on_children at 1, get_or_create at 1 in Ha. rewrite Hc in Ha.
  simpl in Ha. destruct Ha as (d & Hd & Hld).
  unfold createFile, try_catch, bind, act, getFileHandle. fold fileName.
  rewrite Hv. simpl. rewrite Hd. simpl.
  pose proof (refreshDirectory_frame (setDisk d w)) as (Hfd & _).
  destruct (refreshDirectory localeCompare (setDisk d w)) as [[[]|e] w'];
    simpl in *; now rewrite Hfd.
Qed.

(** C9, amended.  When the parent already holds a file named as
    [createFile] would name it (the given name, with [.excalidraw] appended
    when it does not end in it), or a directory named as [createFolder] is
    asked, the call raises no error and leaves the disk as it is; with
    names unique in the parent, a scan of the parent then shows one node
    of that name, or none when the name starts with a dot.  When
    [createFile] finds no entry of that name it adds an empty file under
    the suffixed name. *)
Theorem create_existing (parent : Handle) (nm : string) (w : World)
    (cs : list (string * Entry)) :
  lookup (hpath parent) (disk w) = Some (EDir cs) ->
  NoDup (map fst cs) ->
  rootResolves w = true ->
  (forall content,
      let fileName := if JS.endsWith nm EXT then nm else (nm ++ EXT)%string in
      valid_name fileName = true ->
      JS.assoc fileName cs = Some (EFile content) ->
      fst (createFile localeCompare parent nm w) = Ok tt
      /\ disk (snd (createFile localeCompare parent nm w)) = disk w
      /\ JS.endsWith fileName EXT = true
      /\ forall path,
           count_named fileName (scanDir localeCompare (hpath parent) path (EDir cs))
           = if JS.startsWith fileName "." then 0 else 1)
  /\ (forall children,
         valid_name nm = true ->
         JS.assoc nm cs = Some (EDir children) ->
         fst (createFolder localeCompare parent nm w) = Ok tt
         /\ disk (snd (createFolder localeCompare parent nm w)) = disk w
         /\ forall path,
              count_named nm (scanDir localeCompare (hpath parent) path (EDir cs))
              = if JS.startsWith nm "." then 0 else 1)
  /\ (let fileName := if JS.endsWith nm EXT then nm else (nm ++ EXT)%string in
      valid_name fileName = true ->
      JS.assoc fileName cs = None ->
      lookup (hpath parent) (disk (snd (createFile localeCompare parent nm w)))
      = Some (EDir (cs ++ [(fileName, EFile EmptyString)]))).
Proof.
  intros Hl Hnd Hroot.
  pose proof (refreshDirectory_ok w Hroot) as Hok.
  pose proof (refreshDirectory_frame w) as (Hfd & _).
  assert (Hw : setDisk (disk w) w = w) by now destruct w.
  split; [|split].
  - intros content fileName Hv Hc.
    assert (Hext : JS.endsWith fileName EXT = true).
    { unfold fileName. destruct (JS.endsWith nm EXT) eqn:He; [exact He|].
      apply endsWith_append. }
    assert (Hrun : createFile localeCompare parent nm w
                   = refreshDirectory localeCompare w).
    { unfold createFile, try_catch, bind, act, getFileHandle. fold fileName.
      rewrite Hv. simpl.
      rewrite (create_keeps parent fileName KFile _ _ cs (EFile content) Hl Hc eq_refl).
      simpl. rewrite Hw.
      destruct (refreshDirectory localeCompare w) as [[[]|e] w']; simpl in *;
        [reflexivity|discriminate]. }
    rewrite Hrun. repeat split; trivial.
    intros path. rewrite scanDir_unfold, count_named_sort.
    rewrite (count_scanLoop_present fileName _ _ cs _ Hnd Hc).
    simpl. now rewrite Hext.
  - intros children Hv Hc.
    assert (Hrun : createFolder localeCompare parent nm w
                   = refreshDirectory localeCompare w).
    { unfold createFolder, try_catch, bind, act, getDirectoryHandle.
      rewrite Hv. simpl.
      rewrite (create_keeps parent nm KDirectory _ _ cs (EDir children) Hl Hc eq_refl).
      simpl. rewrite Hw.
      destruct (refreshDirectory localeCompare w) as [[[]|e] w']; simpl in *;
        [reflexivity|discriminate]. }
    rewrite Hrun. repeat split; trivial.
    intros path. rewrite scanDir_unfold, count_named_sort.
    now rewrite (count_scanLoop_present nm _ _ cs _ Hnd Hc).
  - intros fileName Hv Hc. now apply createFile_creates.
Qed.

End ContextFacts.

(** C2 fails as stated: deleting [zdir], which holds a file and a folder,
    is rejected and [zdir] stays on disk with its content. *)
Lemma deleteEntry_recursive_counterexample :
  fst (deleteEntry Samples.byteCompare Samples.root "zdir" Samples.world0)
  = Err InvalidModificationError
  /\ lookup ["zdir"]
       (disk (snd (deleteEntry Samples.byteCompare Samples.root "zdir"
                     Samples.world0)))
     = Some (EDir [("b.excalidraw", EFile EmptyString); ("sub", EDir [])]).
Proof. vm_compute. split; reflexivity. Qed.

Lemma deleteEntry_removal_witness :
  valid_name "adir" = true
  /\ lookup (hpath Samples.root) (disk Samples.world0) = Some (EDir Samples.entries0)
  /\ JS.assoc "adir" Samples.entries0 = Some (EDir [])
  /\ lookup (hpath Samples.root)
       (disk (snd (deleteEntry Samples.byteCompare Samples.root "adir"
                     Samples.world0)))
     = Some (EDir (JS.remove_key "adir" Samples.entries0))
  /\ JS.assoc "adir" (JS.remove_key "adir" Samples.entries0) = None
  /\ (rootResolves (snd (deleteEntry Samples.byteCompare Samples.root "adir"
                           Samples.world0)) = true ->
      fst (deleteEntry Samples.byteCompare Samples.root "adir" Samples.world0)
      = Ok tt).
Proof.
  assert (Hv : valid_name "adir" = true) by reflexivity.
  assert (Hl : lookup (hpath Samples.root) (disk Samples.world0)
               = Some (EDir Samples.entries0)) by reflexivity.
  assert (Hc : JS.assoc "adir" Samples.entries0 = Some (EDir [])) by reflexivity.
  repeat (split; [assumption|]).
  exact (deleteEntry_removal Samples.byteCompare Samples.root "adir"
           Samples.world0 Samples.entries0 (EDir []) Hv Hl Hc).
Defined.

Lemma deleteEntry_failure_atomic_witness :
  removeEntry Samples.root "zdir" false (disk Samples.worldB)
  = Err InvalidModificationError
  /\ fst (deleteEntry Samples.byteCompare Samples.root "zdir" Samples.worldB)
     = Err InvalidModificationError
  /\ selectedFile (state (snd (deleteEntry Samples.byteCompare Samples.root "zdir"
                                 Samples.worldB)))
     = selectedFile (state Samples.worldB)
  /\ fileTree (state (snd (deleteEntry Samples.byteCompare Samples.root "zdir"
                             Samples.worldB)))
     = fileTree (state Samples.worldB)
  /\ disk (snd (deleteEntry Samples.byteCompare Samples.root "zdir" Samples.worldB))
     = disk Samples.worldB.
Proof.
  assert (H : removeEntry Samples.root "zdir" false (disk Samples.worldB)
              = Err InvalidModificationError) by reflexivity.
  split; [exact H|].
  exact (deleteEntry_failure_atomic Samples.byteCompare Samples.root "zdir"
           Samples.worldB InvalidModificationError H).
Defined.

(** The file deleted is [zdir/b.excalidraw]; the file selected is the
    root's [b.excalidraw], which stays on disk, and the selection is
    cleared all the same. *)
Lemma deleteEntry_selection_witness :
  fst (deleteEntry Samples.byteCompare Samples.zdir "b.excalidraw" Samples.worldB)
  = Ok tt
  /\ selectedFile (state (snd (deleteEntry Samples.byteCompare Samples.zdir
                                 "b.excalidraw" Samples.worldB)))
     = selectionAfterDelete (Some Samples.fileB) "b.excalidraw".
Proof.
  assert (H : fst (deleteEntry Samples.byteCompare Samples.zdir "b.excalidraw"
                     Samples.worldB) = Ok tt) by (vm_compute; reflexivity).
  split; [exact H|].
  exact (deleteEntry_selection Samples.byteCompare Samples.zdir "b.excalidraw"
           Samples.worldB H).
Defined.

(** C9 fails as stated in two ways.  [createFolder(root, ".git")] on a
    root that has [.git] raises no error and changes nothing, but a scan
    shows no node of that name; and [createFolder(root, "a.excalidraw")]
    on a root that has a file of that name is an error. *)
Lemma create_existing_counterexample :
  JS.assoc ".git" Samples.entries0 = Some (EDir [("z.excalidraw", EFile EmptyString)])
  /\ fst (createFolder Samples.byteCompare Samples.root ".git" Samples.world0)
     = Ok tt
  /\ count_named ".git"
       (fileTree (state (snd (createFolder Samples.byteCompare Samples.root
                                ".git" Samples.world0)))) = 0
  /\ JS.assoc "a.excalidraw" Samples.entries0 = Some (EFile "not json")
  /\ fst (createFolder Samples.byteCompare Samples.root "a.excalidraw"
            Samples.world0) = Err TypeMismatchError.
Proof. vm_compute. repeat split; reflexivity. Qed.

Lemma create_existing_witness :
  lookup (hpath Samples.root) (disk Samples.world0) = Some (EDir Samples.entries0)
  /\ NoDup (map fst Samples.entries0)
  /\ rootResolves Samples.world0 = true
  /\ valid_name "b.excalidraw" = true
  /\ JS.assoc "b.excalidraw" Samples.entries0 = Some (EFile "{}")
  /\ fst (createFile Samples.byteCompare Samples.root "b" Samples.world0) = Ok tt
  /\ disk (snd (createFile Samples.byteCompare Samples.root "b" Samples.world0))
     = disk Samples.world0
  /\ JS.endsWith "b.excalidraw" EXT = true
  /\ forall path,
       count_named "b.excalidraw"
         (scanDir Samples.byteCompare (hpath Samples.root) path
            (EDir Samples.entries0)) = 1.
Proof.
  assert (Hl : lookup (hpath Samples.root) (disk Samples.world0)
               = Some (EDir Samples.entries0)) by reflexivity.
  assert (Hnd : NoDup (map fst Samples.entries0)).
  { repeat (constructor; [simpl; intuition discriminate|]). constructor. }
  assert (Hr : rootResolves Samples.world0 = true) by reflexivity.
  assert (Hv : valid_name "b.excalidraw" = true) by reflexivity.
  assert (Hc : JS.assoc "b.excalidraw" Samples.entries0 = Some (EFile "{}"))
    by reflexivity.
  repeat (split; [assumption|]).
  exact (proj1 (create_existing Samples.byteCompare Samples.root "b"
                  Samples.world0 Samples.entries0 Hl Hnd Hr) "{}" Hv Hc).
Defined.

(** ** The editor *)

Import Editor.

Section EditorFacts.
Variable JSON_parse : string -> option JS.Value.
Variable JSON_stringify : JS.Value -> string.
Variable message : Error -> string.

Lemma tracked_spec (e : Editor) :
  tracked e = true ->
  0 < nextTimer e
  /\ forall t, In t (timers e) -> saveTimeoutRef e = Some (tid t) /\ 0 < tid t.
Proof.
  unfold tracked. rewrite andb_true_iff, negb_true_iff, Nat.eqb_neq, forallb_forall.
  intros [Hn Ht]. split; [lia|]. intros t Hin. specialize (Ht t Hin).
  destruct (saveTimeoutRef e) as [i|]; [|discriminate].
  rewrite andb_true_iff, negb_true_iff, Nat.eqb_eq, Nat.eqb_neq in Ht.
  destruct Ht as [-> Hi]. split; [reflexivity|lia].
Qed.

(** One save is pending: the one armed for scene [sc] and file [f]. *)
Lemma handleChange_arms (sc : InitialData) (f : FileNode) (e : Editor) :
  selected e = Some f ->
  tracked e = true ->
  handleChange sc e
  = mkEditor (ctx e) (initialData e) (isLoading e) (error e)
      (Some (nextTimer e)) [mkTimer (nextTimer e) (now e + DELAY) sc f]
      (now e) (S (nextTimer e)) (writes e).
Proof.
  intros Hsel Htr. apply tracked_spec in Htr. destruct Htr as [Hn Ht].
  unfold handleChange. rewrite Hsel.
  assert (Hclear : timers (match saveTimeoutRef e with
                           | Some i => if Nat.eqb i 0 then e else clearTimeout i e
                           | None => e
                           end) = []).
  { destruct (saveTimeoutRef e) as [i|] eqn:Hi.
    - destruct (Nat.eqb_spec i 0) as [->|Hi0].
      + destruct (timers e) as [|t r] eqn:Hts; [reflexivity|].
        destruct (Ht t (or_introl eq_refl)) as [Heq Hpos].
        injection Heq as Heq. lia.
      + unfold clearTimeout. simpl.
        induction (timers e) as [|t r IH]; [reflexivity|]. simpl.
        destruct (Ht t (or_introl eq_refl)) as [Heq _]. injection Heq as ->.
        rewrite Nat.eqb_refl. simpl. apply IH. intros t' Hin. apply Ht. now right.
    - destruct (timers e) as [|t r]; [reflexivity|].
      destruct (Ht t (or_introl eq_refl)) as [Heq _]. discriminate. }
  unfold armSave.
  destruct (saveTimeoutRef e) as [i|]; [destruct (Nat.eqb i 0)|];
    simpl in *; now rewrite Hclear.
Qed.

Lemma advance_early (i due0 : nat) (sc : InitialData) (f : FileNode)
    (e : Editor) (dt : nat) :
  timers e = [mkTimer i due0 sc f] ->
  now e + dt < due0 ->
  advance JSON_stringify dt e
  = mkEditor (ctx e) (initialData e) (isLoading e) (error e) (saveTimeoutRef e)
      (timers e) (now e + dt) (nextTimer e) (writes e).
Proof.
  intros Ht Hlt. unfold advance. rewrite Ht. simpl.
  destruct (Nat.leb_spec due0 (now e + dt)); [lia|]. reflexivity.
Qed.

Lemma advance_fires (i due0 : nat) (sc : InitialData) (f : FileNode)
    (e : Editor) (dt : nat) :
  timers e = [mkTimer i due0 sc f] ->
  due0 <= now e + dt ->
  advance JSON_stringify dt e
  = fire JSON_stringify (mkTimer i due0 sc f)
      (mkEditor (ctx e) (initialData e) (isLoading e) (error e)
         (saveTimeoutRef e) [] (now e + dt) (nextTimer e) (writes e)).
Proof.
  intros Ht Hle. unfold advance. rewrite Ht. simpl.
  destruct (Nat.leb_spec due0 (now e + dt)); [|lia]. reflexivity.
Qed.

Lemma pending_tracked f sc e0 e : pending f sc e0 e -> tracked e = true.
Proof.
  intros (i & Ht & Hr & Hi & Hn & _). unfold tracked. rewrite Ht, Hr. simpl.
  rewrite Nat.eqb_refl. simpl.
  destruct (Nat.eqb_spec (nextTimer e) 0); [lia|].
  destruct (Nat.eqb_spec i 0); [lia|]. reflexivity.
Qed.

Lemma pending_first f sc e :
  selected e = Some f -> tracked e = true -> pending f sc e (handleChange sc e).
Proof.
  intros Hsel Htr. rewrite (handleChange_arms sc f e Hsel Htr).
  apply tracked_spec in Htr. destruct Htr as [Hn _].
  exists (nextTimer e). simpl. repeat split; trivial; lia.
Qed.

Lemma pending_next f sc sc' e0 e gap :
  pending f sc e0 e -> gap < DELAY ->
  pending f sc' e0 (handleChange sc' (advance JSON_stringify gap e)).
Proof.
  intros Hp Hgap. pose proof (pending_tracked _ _ _ _ Hp) as Htr.
  destruct Hp as (i & Ht & Hr & Hi & Hn & Hsel & Hw & Hc).
  rewrite (advance_early i _ sc f e gap Ht) by lia.
  rewrite (handleChange_arms sc' f); [| exact Hsel | exact Htr].
  exists (nextTimer e). simpl. repeat split; trivial; lia.
Qed.

Lemma pending_burst f e0 events :
  Forall (fun ev => fst ev < DELAY) events ->
  forall sc e,
    pending f sc e0 e ->
    pending f (lastScene sc events) e0 (burst JSON_stringify events e).
Proof.
  induction 1 as [|[gap sc'] r Hgap Hr IH]; intros sc e Hp; [exact Hp|].
  simpl in Hgap. unfold burst. simpl.
  replace (lastScene sc ((gap, sc') :: r)) with (lastScene sc' r).
  - apply IH. now apply pending_next with sc.
  - unfold lastScene. simpl. destruct (map snd r) as [|x xs] eqn:Hm; [reflexivity|].
    clear. revert x. induction xs as [|y ys IHy]; intros x; [reflexivity|].
    simpl in *. destruct ys; [reflexivity|]. apply (IHy y).
Qed.

Lemma pending_settles f sc e0 e quiet :
  pending f sc e0 e -> DELAY <= quiet ->
  writes (advance JSON_stringify quiet e)
  = writes e0 ++ [(handle f, serialize JSON_stringify sc)]
  /\ timers (advance JSON_stringify quiet e) = []
  /\ disk (ctx (advance JSON_stringify quiet e))
     = match writeText (handle f) (serialize JSON_stringify sc) (disk (ctx e0)) with
       | Ok d => d
       | Err _ => disk (ctx e0)
       end.
Proof.
  intros (i & Ht & Hr & Hi & Hn & Hsel & Hw & Hc) Hq.
  rewrite (advance_fires i _ sc f e quiet Ht) by lia.
  unfold fire, saveFileContent, act. simpl. rewrite Hw, Hc.
  repeat split.
  destruct (writeText (handle f) (serialize JSON_stringify sc) (disk (ctx e0)));
    reflexivity.
Qed.

(** Every state the editor can reach keeps [tracked]: the hypothesis of the
    results below costs nothing. *)
Lemma tracked_ext (e e' : Editor) :
  timers e' = timers e -> saveTimeoutRef e' = saveTimeoutRef e ->
  nextTimer e' = nextTimer e -> tracked e' = tracked e.
Proof. unfold tracked. now intros -> -> ->. Qed.

Lemma tracked_fewer (e e' : Editor) :
  incl (timers e') (timers e) -> saveTimeoutRef e' = saveTimeoutRef e ->
  nextTimer e' = nextTimer e -> tracked e = true -> tracked e' = true.
Proof.
  unfold tracked. intros Hincl -> ->.
  rewrite !andb_true_iff, !forallb_forall. intros [Hn Ht]. split; [exact Hn|].
  intros t Hin. apply Ht, Hincl, Hin.
Qed.

Lemma fire_all_frame (ts : list Timer) (e : Editor) :
  timers (fold_left (fun e t => fire JSON_stringify t e) ts e) = timers e
  /\ saveTimeoutRef (fold_left (fun e t => fire JSON_stringify t e) ts e)
     = saveTimeoutRef e
  /\ nextTimer (fold_left (fun e t => fire JSON_stringify t e) ts e)
     = nextTimer e.
Proof.
  revert e. induction ts as [|t r IH]; intros e; simpl; [now repeat split|].
  destruct (IH (fire JSON_stringify t e)) as (A & B & C).
  rewrite A, B, C. now repeat split.
Qed.

Lemma tracked_init (w : World) : tracked (init w) = true.
Proof. reflexivity. Qed.

Lemma tracked_handleChange (sc : InitialData) (e : Editor) :
  tracked e = true -> tracked (handleChange sc e) = true.
Proof.
  intros Htr. destruct (selected e) as [f|] eqn:Hsel.
  - rewrite (handleChange_arms sc f e Hsel Htr).
    apply tracked_spec in Htr. destruct Htr as [Hn _].
    unfold tracked. simpl. rewrite Nat.eqb_refl.
    destruct (Nat.eqb_spec (nextTimer e) 0); [lia|reflexivity].
  - unfold handleChange. now rewrite Hsel.
Qed.

Lemma tracked_advance (dt : nat) (e : Editor) :
  tracked e = true -> tracked (advance JSON_stringify dt e) = true.
Proof.
  intros Htr. unfold advance.
  match goal with
  | |- tracked (fold_left _ ?ts ?e0) = true =>
      destruct (fire_all_frame ts e0) as (A & B & C);
      apply (tracked_fewer e); [rewrite A|rewrite B|rewrite C|exact Htr]
  end; simpl; trivial.
  intros t Hin. apply filter_In in Hin. tauto.
Qed.
(** C3.  While a file is selected, a change event followed by any number
    of further change events, each less than the debounce delay after the
    one before, and then a quiet period of at least the delay, makes
    exactly one [saveFileContent] call: to the selected file's handle, with
    what [JSON.stringify] prints for the object that holds the elements,
    the appState and the files of the last event.  No timer is left, and
    the disk holds that content if the write went through. *)
Theorem debounce_collapses (e : Editor) (f : FileNode) (first : InitialData)
    (events : list (nat * InitialData)) (quiet : nat) :
  selected e = Some f ->
  tracked e = true ->
  Forall (fun ev => fst ev < DELAY) events ->
  DELAY <= quiet ->
  let final := lastScene first events in
  let text :=
    JSON_stringify
      (JS.VObj [("elements", elements final); ("appState", appState final);
                ("files", files final)]) in
  writes (advance JSON_stringify quiet
            (burst JSON_stringify events (handleChange first e)))
  = writes e ++ [(handle f, text)]
  /\ timers (advance JSON_stringify quiet
               (burst JSON_stringify events (handleChange first e))) = []
  /\ disk (ctx (advance JSON_stringify quiet
                  (burst JSON_stringify events (handleChange first e))))
     = match writeText (handle f) text (disk (ctx e)) with
       | Ok d => d
       | Err _ => disk (ctx e)
       end.
Proof.
  intros Hsel Htr Hgaps Hq final text.
  change text with (serialize JSON_stringify final). unfold final.
  apply pending_settles; [|exact Hq].
  apply pending_burst; [exact Hgaps|].
  now apply pending_first.
Qed.

Lemma loadFile_frame (e : Editor) :
  timers (loadFile JSON_parse message e) = timers e
  /\ saveTimeoutRef (loadFile JSON_parse message e) = saveTimeoutRef e
  /\ now (loadFile JSON_parse message e) = now e
  /\ nextTimer (loadFile JSON_parse message e) = nextTimer e
  /\ writes (loadFile JSON_parse message e) = writes e
  /\ selected (loadFile JSON_parse message e) = selected e
  /\ disk (ctx (loadFile JSON_parse message e)) = disk (ctx e).
Proof.
  unfold loadFile, readFileContent, ask.
  destruct (selected e) as [f|] eqn:Hsel; [|now repeat split].
  destruct (kind f); [|now repeat split].
  destruct (readText (handle f) (disk (ctx e))) as [content|err]; simpl.
  - destruct (JSON_parse content) as [parsed|]; [destruct (documentOf parsed)|];
      now repeat split.
  - now repeat split.
Qed.

Lemma selectFile_frame (s : option FileNode) (e : Editor) :
  timers (selectFile JSON_parse message s e) = timers e
  /\ saveTimeoutRef (selectFile JSON_parse message s e) = saveTimeoutRef e
  /\ now (selectFile JSON_parse message s e) = now e
  /\ nextTimer (selectFile JSON_parse message s e) = nextTimer e
  /\ writes (selectFile JSON_parse message s e) = writes e
  /\ selected (selectFile JSON_parse message s e) = s
  /\ disk (ctx (selectFile JSON_parse message s e)) = disk (ctx e).
Proof.
  unfold selectFile, loadEffect.
  set (e1 := resetEffect (setCtx (setSelectedFile s (ctx e)) e)).
  assert (H1 : timers e1 = timers e /\ saveTimeoutRef e1 = saveTimeoutRef e
               /\ now e1 = now e /\ nextTimer e1 = nextTimer e
               /\ writes e1 = writes e /\ selected e1 = s
               /\ disk (ctx e1) = disk (ctx e)).
  { unfold e1, resetEffect, selected. simpl. destruct s; now repeat split. }
  destruct H1 as (A & B & C & D & E & F & G).
  destruct (selected e1) as [f|] eqn:Hsel.
  - pose proof (loadFile_frame e1) as (A' & B' & C' & D' & E' & F' & G').
    repeat split; congruence.
  - repeat split; congruence.
Qed.

Lemma tracked_selectFile (s : option FileNode) (e : Editor) :
  tracked e = true -> tracked (selectFile JSON_parse message s e) = true.
Proof.
  intros Htr. destruct (selectFile_frame s e) as (A & B & _ & C & _).
  now rewrite (tracked_ext e _ A B C).
Qed.

Lemma tracked_run (evs : list Event) :
  forall e, tracked e = true ->
            tracked (run JSON_parse JSON_stringify message evs e) = true.
Proof.
  induction evs as [|ev r IH]; intros e Htr; [exact Htr|].
  simpl. apply IH. destruct ev; simpl.
  - now apply tracked_selectFile.
  - now apply tracked_handleChange.
  - now apply tracked_advance.
Qed.

(** C1, amended.  A selection change cancels nothing: the timer armed by
    a change event while [f] was selected is still in the table after
    [selectFile], and when the delay has passed it writes the captured
    scene to [f]'s handle although the selection is by then [s].  It is a
    later change event, arriving under the new selection before the timer
    is due, that clears it; the only write is then the new file's. *)
Theorem selection_change_keeps_timer (e : Editor) (f : FileNode)
    (sc : InitialData) (s : option FileNode) (quiet : nat) :
  selected e = Some f ->
  tracked e = true ->
  DELAY <= quiet ->
  timers (selectFile JSON_parse message s (handleChange sc e))
  = timers (handleChange sc e)
  /\ writes (advance JSON_stringify quiet
              (selectFile JSON_parse message s (handleChange sc e)))
     = writes e
       ++ [(handle f,
            JSON_stringify
              (JS.VObj [("elements", elements sc); ("appState", appState sc);
                        ("files", files sc)]))]
  /\ selected (advance JSON_stringify quiet
                (selectFile JSON_parse message s (handleChange sc e))) = s
  /\ forall f' sc' gap,
       s = Some f' -> gap < DELAY ->
       writes (advance JSON_stringify quiet
                 (handleChange sc'
                    (advance JSON_stringify gap
                       (selectFile JSON_parse message s (handleChange sc e)))))
       = writes e
         ++ [(handle f',
              JSON_stringify
                (JS.VObj [("elements", elements sc');
                          ("appState", appState sc'); ("files", files sc')]))].
Proof.
  intros Hsel Htr Hq.
  change (JSON_stringify
            (JS.VObj [("elements", elements sc); ("appState", appState sc);
                      ("files", files sc)]))
    with (serialize JSON_stringify sc).
  pose proof (selectFile_frame s (handleChange sc e))
    as (Ht & Hr & Hn & Hnx & Hw & Hs & Hd).
  split; [exact Ht|].
  set (e2 := selectFile JSON_parse message s (handleChange sc e)) in *.
  rewrite (handleChange_arms sc f e Hsel Htr) in Ht, Hr, Hn, Hnx, Hw, Hd.
  simpl in Ht, Hr, Hn, Hnx, Hw, Hd.
  pose proof (tracked_spec e Htr) as [Hpos _].
  split; [|split].
  - rewrite (advance_fires _ _ sc f e2 quiet Ht) by lia.
    simpl. now rewrite Hw.
  - rewrite (advance_fires _ _ sc f e2 quiet Ht) by lia.
    unfold fire, selected, saveFileContent, act. simpl.
    fold (selected e2).
    destruct (writeText (handle f) (serialize JSON_stringify sc) (disk (ctx e2)));
      simpl; exact Hs.
  - intros f' sc' gap -> Hgap.
    assert (Htr2 : tracked e2 = true).
    { unfold tracked. rewrite Ht, Hr, Hnx. simpl. rewrite Nat.eqb_refl.
      destruct (Nat.eqb_spec (nextTimer e) 0); [lia|reflexivity]. }
    assert (Hp : pending f' sc' e2
                   (handleChange sc' (advance JSON_stringify gap e2))).
    { rewrite (advance_early _ _ sc f e2 gap Ht) by lia.
      rewrite (handleChange_arms sc' f'); [| exact Hs | exact Htr2].
      exists (nextTimer e2). simpl. repeat split; trivial; lia. }
    destruct (pending_settles f' sc' e2 _ quiet Hp Hq) as [H _].
    rewrite H, Hw. reflexivity.
Qed.

Lemma documentOf_not_an_object (v : JS.Value) :
  match v with
  | JS.VObj _ => True
  | JS.VUndefined | JS.VNull => documentOf v = None
  | _ => documentOf v = Some emptyDocument
  end.
Proof. destruct v; reflexivity || exact I. Qed.

(** C6, amended.  A change of the selection to a file whose content is
    read never sets an error: the spinner goes off and the canvas is
    rendered with a document.  That document is the empty one (no
    elements, a white background, font family 2, roughness 0, no files)
    whenever the content does not parse to an object: [JSON.parse] throws,
    or returns [null], a number, a string, a boolean or an array.  Content
    that parses to an object is not checked any further: its [elements]
    and [files] are loaded as they are when truthy, whatever they hold. *)
Theorem loadFile_invalid_json (e : Editor) (f : FileNode) (content : string) :
  kind f = KFile ->
  selected e <> Some f ->
  readText (handle f) (disk (ctx e)) = Ok content ->
  let e' := selectFile JSON_parse message (Some f) e in
  error e' = None
  /\ isLoading e' = false
  /\ (exists d, initialData e' = Some d /\ render e' = Canvas false (Some d))
  /\ ((forall props, JSON_parse content <> Some (JS.VObj props)) ->
      initialData e'
      = Some (mkInitialData
                (JS.VArr [])
                (JS.VObj [("viewBackgroundColor", JS.VStr "#ffffff");
                          ("currentItemFontFamily", JS.VNum 2%float);
                          ("currentItemRoughness", JS.VNum 0%float)])
                (JS.VObj [])))
  /\ (forall props,
         JSON_parse content = Some (JS.VObj props) ->
         exists st,
           initialData e'
           = Some (mkInitialData
                     (JS.or_else (prop props "elements") (JS.VArr []))
                     (JS.VObj st)
                     (JS.or_else (prop props "files") (JS.VObj [])))).
Proof.
  intros Hk _ Hread e'. unfold e'. clear e'.
  unfold selectFile, loadEffect, resetEffect, loadFile, render, selected,
    readFileContent, ask.
  simpl. rewrite Hk. simpl. rewrite Hread. simpl.
  destruct (JSON_parse content) as [v|] eqn:Hparse.
  - destruct v as [| |b|x|t|xs|props];
      try (simpl; repeat split; eauto; intros; discriminate).
    simpl. split; [reflexivity|]. split; [reflexivity|].
    split; [eauto|]. split.
    + intros Hno. now destruct (Hno props).
    + intros props' [= <-]. eexists. reflexivity.
  - simpl. repeat split; eauto. intros; discriminate.
Qed.

End EditorFacts.

(** ** The explorer *)

Import FileExplorer.

Section ExplorerFacts.
Variable moveFile : Handle -> Handle -> string -> M unit.

(** C7.  A drop whose target is the same location as the dragged file's
    parent does nothing: [onDrop] on that directory's row and
    [handleRootDrop] on the root both return before [moveFile] is called,
    whatever [moveFile] is, so the disk, the tree snapshot and the
    selection are as before and no alert is shown. *)
Theorem drop_on_same_parent (u : UI) (d : DragState) (target : Handle) :
  dragState u = Some d ->
  isSameEntry (parentHandle d) target = true ->
  (forall n,
      kind n = KDirectory -> FileSystemContext.handle n = target ->
      world (onDrop moveFile n u) = world u
      /\ alerts (onDrop moveFile n u) = alerts u)
  /\ (rootHandle (state (world u)) = Some target ->
      world (handleRootDrop moveFile u) = world u
      /\ alerts (handleRootDrop moveFile u) = alerts u).
Proof.
  intros Hd Hsame. split.
  - intros n Hk Hh. unfold onDrop. simpl. rewrite Hk, Hd, Hh, Hsame. now split.
  - intros Hroot. unfold handleRootDrop. rewrite Hd, Hroot, Hsame. now split.
Qed.
End ExplorerFacts.

Lemma moveFile_spec_same_parent localeCompare (src dst : Handle) (nm : string)
    (w : World) :
  isSameEntry src dst = true ->
  moveFile_spec localeCompare src dst nm w = (Err InvalidModificationError, w).
Proof. intros H. unfold moveFile_spec. now rewrite H. Qed.

(** ** The properties on the sample inputs *)

(** C1 fails as stated.  With [a.excalidraw] open, one change event arms
    the save; the selection then goes to none, or to [b.excalidraw]; one
    second later the timer fires all the same and [a.excalidraw] is
    written. *)
Lemma selection_change_counterexample :
  selected (advance Samples.stringify0 1000
              (selectFile Samples.parse0 Samples.message0 None
                 (handleChange Samples.scene1 Samples.editorA))) = None
  /\ writes (advance Samples.stringify0 1000
               (selectFile Samples.parse0 Samples.message0 None
                  (handleChange Samples.scene1 Samples.editorA)))
     = [(FileSystemContext.handle Samples.fileA, "{ elements: 1 }")]
  /\ selected (advance Samples.stringify0 1000
                 (selectFile Samples.parse0 Samples.message0 (Some Samples.fileB)
                    (handleChange Samples.scene1 Samples.editorA)))
     = Some Samples.fileB
  /\ writes (advance Samples.stringify0 1000
               (selectFile Samples.parse0 Samples.message0 (Some Samples.fileB)
                  (handleChange Samples.scene1 Samples.editorA)))
     = [(FileSystemContext.handle Samples.fileA, "{ elements: 1 }")]
  /\ readText (FileSystemContext.handle Samples.fileA)
       (disk (ctx (advance Samples.stringify0 1000
                     (selectFile Samples.parse0 Samples.message0
                        (Some Samples.fileB)
                        (handleChange Samples.scene1 Samples.editorA)))))
     = Ok "{ elements: 1 }".
Proof. vm_compute. repeat split; reflexivity. Qed.

Lemma selection_change_keeps_timer_witness :
  selected Samples.editorA = Some Samples.fileA
  /\ tracked Samples.editorA = true
  /\ DELAY <= 1000
  /\ timers (selectFile Samples.parse0 Samples.message0 (Some Samples.fileB)
              (handleChange Samples.scene1 Samples.editorA))
     = timers (handleChange Samples.scene1 Samples.editorA)
  /\ writes (advance Samples.stringify0 1000
              (selectFile Samples.parse0 Samples.message0 (Some Samples.fileB)
                 (handleChange Samples.scene1 Samples.editorA)))
     = writes Samples.editorA
       ++ [(FileSystemContext.handle Samples.fileA, "{ elements: 1 }")].
Proof.
  assert (Hs : selected Samples.editorA = Some Samples.fileA) by reflexivity.
  assert (Ht : tracked Samples.editorA = true) by reflexivity.
  assert (Hq : DELAY <= 1000) by (unfold DELAY; lia).
  repeat (split; [assumption|]).
  destruct (selection_change_keeps_timer Samples.parse0 Samples.stringify0
              Samples.message0 Samples.editorA Samples.fileA Samples.scene1
              (Some Samples.fileB) 1000 Hs Ht Hq) as (H1 & H2 & _).
  split; [exact H1|exact H2].
Defined.

Lemma debounce_collapses_witness :
  selected Samples.editorA = Some Samples.fileA
  /\ tracked Samples.editorA = true
  /\ Forall (fun ev => fst ev < DELAY) [(999, Samples.scene2); (10, Samples.scene4)]
  /\ DELAY <= 1000
  /\ writes (advance Samples.stringifyAll 1000
              (burst Samples.stringifyAll
                 [(999, Samples.scene2); (10, Samples.scene4)]
                 (handleChange Samples.scene1 Samples.editorA)))
     = writes Samples.editorA
       ++ [(FileSystemContext.handle Samples.fileA,
            "{ elements: 2, appState: 1, files: 1 }")].
Proof.
  assert (Hs : selected Samples.editorA = Some Samples.fileA) by reflexivity.
  assert (Ht : tracked Samples.editorA = true) by reflexivity.
  assert (Hg : Forall (fun ev => fst ev < DELAY)
                 [(999, Samples.scene2); (10, Samples.scene4)]).
  { unfold DELAY. repeat constructor; simpl; lia. }
  assert (Hq : DELAY <= 1000) by (unfold DELAY; lia).
  repeat (split; [assumption|]).
  exact (proj1 (debounce_collapses Samples.stringifyAll Samples.editorA
                  Samples.fileA Samples.scene1
                  [(999, Samples.scene2); (10, Samples.scene4)] 1000
                  Hs Ht Hg Hq)).
Defined.

(** C6 fails as stated.  [odd.excalidraw] holds JSON that is no diagram:
    its [elements] is the number 5 and its [files] the string [x].
    Selecting it loads both as they are, with the default appState, and
    not the empty document. *)
Lemma loadFile_unvalidated_counterexample :
  readText (FileSystemContext.handle Samples.fileOdd)
    (disk (ctx (init Samples.worldOdd))) = Ok Samples.oddText
  /\ Samples.parseOdd Samples.oddText
     = Some (JS.VObj [("elements", JS.VNum 5%float); ("files", JS.VStr "x")])
  /\ initialData (selectFile Samples.parseOdd Samples.message0
                    (Some Samples.fileOdd) (init Samples.worldOdd))
     = Some (mkInitialData
               (JS.VNum 5%float)
               (JS.VObj [("viewBackgroundColor", JS.VStr "#ffffff");
                         ("currentItemFontFamily", JS.VNum 2%float);
                         ("currentItemRoughness", JS.VNum 0%float)])
               (JS.VStr "x"))
  /\ initialData (selectFile Samples.parseOdd Samples.message0
                    (Some Samples.fileOdd) (init Samples.worldOdd))
     <> Some emptyDocument
  /\ error (selectFile Samples.parseOdd Samples.message0
              (Some Samples.fileOdd) (init Samples.worldOdd)) = None.
Proof.
  split; [reflexivity|]. split; [reflexivity|]. split; [reflexivity|].
  split; [|reflexivity].
  change (initialData (selectFile Samples.parseOdd Samples.message0
                         (Some Samples.fileOdd) (init Samples.worldOdd)))
    with (Some (mkInitialData
                  (JS.VNum 5%float)
                  (JS.VObj [("viewBackgroundColor", JS.VStr "#ffffff");
                            ("currentItemFontFamily", JS.VNum 2%float);
                            ("currentItemRoughness", JS.VNum 0%float)])
                  (JS.VStr "x"))).
  discriminate.
Qed.

Lemma loadFile_invalid_json_witness :
  kind Samples.fileA = KFile
  /\ selected (init Samples.world0) <> Some Samples.fileA
  /\ readText (FileSystemContext.handle Samples.fileA)
       (disk (ctx (init Samples.world0))) = Ok "not json"
  /\ (forall props, Samples.parse0 "not json" <> Some (JS.VObj props))
  /\ initialData (selectFile Samples.parse0 Samples.message0
                    (Some Samples.fileA) (init Samples.world0))
     = Some (mkInitialData
               (JS.VArr [])
               (JS.VObj [("viewBackgroundColor", JS.VStr "#ffffff");
                         ("currentItemFontFamily", JS.VNum 2%float);
                         ("currentItemRoughness", JS.VNum 0%float)])
               (JS.VObj []))
  /\ error (selectFile Samples.parse0 Samples.message0 (Some Samples.fileA)
              (init Samples.world0)) = None.
Proof.
  assert (Hk : kind Samples.fileA = KFile) by reflexivity.
  assert (Hn : selected (init Samples.world0) <> Some Samples.fileA)
    by discriminate.
  assert (Hr : readText (FileSystemContext.handle Samples.fileA)
                 (disk (ctx (init Samples.world0))) = Ok "not json")
    by reflexivity.
  assert (Hp : forall props,
             Samples.parse0 "not json" <> Some (JS.VObj props))
    by discriminate.
  repeat (split; [assumption|]).
  destruct (loadFile_invalid_json Samples.parse0 Samples.message0
              (init Samples.world0) Samples.fileA "not json" Hk Hn Hr)
    as (He & _ & _ & Hfall & _).
  split; [exact (Hfall Hp)|exact He].
Defined.

Lemma drop_on_same_parent_witness :
  dragState Samples.dragging
  = Some (mkDrag Samples.fileB Samples.root)
  /\ isSameEntry (parentHandle (mkDrag Samples.fileB Samples.root)) Samples.root
     = true
  /\ rootHandle (state (world Samples.dragging)) = Some Samples.root
  /\ world (handleRootDrop (moveFile_spec Samples.byteCompare) Samples.dragging)
     = world Samples.dragging
  /\ alerts (handleRootDrop (moveFile_spec Samples.byteCompare) Samples.dragging)
     = alerts Samples.dragging.
Proof.
  assert (Hd : dragState Samples.dragging
               = Some (mkDrag Samples.fileB Samples.root)) by reflexivity.
  assert (Hs : isSameEntry (parentHandle (mkDrag Samples.fileB Samples.root))
                 Samples.root = true) by reflexivity.
  assert (Hr : rootHandle (state (world Samples.dragging)) = Some Samples.root)
    by reflexivity.
  repeat (split; [assumption|]).
  exact (proj2 (drop_on_same_parent (moveFile_spec Samples.byteCompare)
                  Samples.dragging (mkDrag Samples.fileB Samples.root)
                  Samples.root Hd Hs) Hr).
Defined.

(** * Further properties *)

(** ** More about the scanner *)

Lemma distinct_NoDup (l : list string) : distinct l = true <-> NoDup l.
Proof.
  induction l as [|x r IH]; simpl.
  - split; [constructor|reflexivity].
  - rewrite andb_true_iff, negb_true_iff, IH. split.
    + intros [Hx Hr]. constructor; [|exact Hr]. intros Hin.
      assert (existsb (String.eqb x) r = true); [|congruence].
      apply existsb_exists. exists x. split; [exact Hin|apply String.eqb_refl].
    + intros Hnd. inversion Hnd as [|? ? Hx Hr]; subst. split; [|exact Hr].
      destruct (existsb (String.eqb x) r) eqn:He; [|reflexivity].
      apply existsb_exists in He. destruct He as (y & Hy & Hxy).
      apply String.eqb_eq in Hxy. subst. contradiction.
Qed.

Lemma uniqueNames_dir (cs : list (string * Entry)) :
  uniqueNames (EDir cs) = true <->
  NoDup (map fst cs) /\ Forall (fun p => uniqueNames (snd p) = true) cs.
Proof.
  simpl. rewrite andb_true_iff, distinct_NoDup.
  assert (H : (fix all (cs : list (string * Entry)) : bool :=
                 match cs with
                 | [] => true
                 | (_, c) :: r => uniqueNames c && all r
                 end) cs = true
              <-> Forall (fun p => uniqueNames (snd p) = true) cs).
  { induction cs as [|[n c] r IH]; [split; [constructor|reflexivity]|].
    rewrite andb_true_iff, IH. split.
    - intros [Hc Hr]. now constructor.
    - intros HF. inversion HF; subst. now split. }
  now rewrite H.
Qed.

Lemma assoc_In {B : Type} (n : string) (x : B) (cs : list (string * B)) :
  NoDup (map fst cs) -> In (n, x) cs -> JS.assoc n cs = Some x.
Proof.
  induction cs as [|[m y] r IH]; simpl; [contradiction|].
  intros Hnd. inversion Hnd as [|? ? Hm Hr]; subst.
  intros [[= -> ->]|Hin].
  - now rewrite String.eqb_refl.
  - destruct (String.eqb_spec m n) as [->|_]; [|now apply IH].
    exfalso. apply Hm. apply in_map_iff. exists (n, x). now split.
Qed.

Section SortFacts2.
Context {A : Type} (cmp : A -> A -> Z).

Lemma sort_sorted_id (l : list A) :
  StronglySorted (JS.ordered cmp) l -> JS.sort cmp l = l.
Proof.
  induction 1 as [|x r Hr IH Hx]; simpl; [reflexivity|].
  rewrite IH. destruct r as [|y r']; [reflexivity|]. simpl.
  inversion Hx as [|? ? Hxy _]; subst. unfold JS.ordered in Hxy.
  destruct (Z.ltb_spec 0 (cmp x y)); [lia|reflexivity].
Qed.

Lemma sorted_perm_unique (R : A -> A -> Prop) (l : list A) :
  forall l',
    StronglySorted R l -> StronglySorted R l' -> Permutation l l' ->
    (forall a b, In a l -> In b l -> R a b -> R b a -> a = b) ->
    l = l'.
Proof.
  induction l as [|x r IH]; intros l' Hs Hs' Hp Hanti.
  - apply Permutation_nil in Hp. now subst.
  - destruct l' as [|y r'].
    + apply Permutation_sym, Permutation_nil in Hp. discriminate.
    + inversion Hs as [|? ? Hr Hx]; subst.
      inversion Hs' as [|? ? Hr' Hy]; subst.
      assert (Hxy : x = y).
      { assert (Hxin : In x (y :: r')) by (eapply Permutation_in; [exact Hp|now left]).
        assert (Hyin : In y (x :: r))
          by (eapply Permutation_in; [apply Permutation_sym; exact Hp|now left]).
        destruct Hxin as [->|Hxin]; [reflexivity|].
        destruct Hyin as [->|Hyin]; [reflexivity|].
        rewrite Forall_forall in Hx, Hy.
        apply Hanti; [now left|now right|now apply Hx|now apply Hy]. }
      subst y. f_equal. apply IH; trivial.
      * now apply Permutation_cons_inv in Hp.
      * intros a b Ha Hb. apply Hanti; now right.
Qed.
End SortFacts2.

Section ScanMore.
Variable localeCompare : string -> string -> Z.

Lemma edges_In (pc : FileNode * FileNode) (t : list FileNode) :
  In pc (edges t) <-> exists n, In n t /\ In pc (edgesOf n).
Proof. unfold edges. apply in_flat_map. Qed.

Lemma edges_sort (pc : FileNode * FileNode) (t : list FileNode) :
  In pc (edges (sortNodes localeCompare t)) <-> In pc (edges t).
Proof.
  rewrite !edges_In. unfold sortNodes.
  split; intros (n & Hn & Hx); exists n; split; trivial;
    now apply (sort_In (compareNodes localeCompare)).
Qed.

Lemma sortNodes_In (n : FileNode) (t : list FileNode) :
  In n (sortNodes localeCompare t) <-> In n t.
Proof. apply sort_In. Qed.

Lemma scan_paths (dir : Entry) :
  forall h path,
    (forall n, In n (scanDir localeCompare h path dir) ->
               id n = joinPath path (name n)
               /\ hpath (handle n) = h ++ [name n])
    /\ (forall p c, In (p, c) (edges (scanDir localeCompare h path dir)) ->
                    id c = joinPath (id p) (name c)
                    /\ hpath (handle c) = hpath (handle p) ++ [name c]).
Proof.
  induction dir as [c|cs IH] using Entry_induction; intros h path.
  - split; [intros n []|intros p c' []].
  - rewrite scanDir_unfold. split.
    + intros n Hn. apply (proj1 (sortNodes_In _ _)) in Hn.
      clear IH. induction cs as [|[nm e] r IHr]; simpl in Hn; [destruct Hn|].
      destruct (Kind_eqb (kindOf e) KFile && negb (JS.endsWith nm EXT));
        [now apply IHr|].
      destruct (JS.startsWith nm "."); [now apply IHr|].
      destruct e; simpl in Hn; (destruct Hn as [<-|Hn]; [now split|now apply IHr]).
    + intros p c Hpc. apply (proj1 (edges_sort _ _)) in Hpc.
      induction cs as [|[nm e] r IHr]; simpl in Hpc; [destruct Hpc|].
      inversion IH as [|? ? He Hr]; subst. simpl in He.
      destruct (Kind_eqb (kindOf e) KFile && negb (JS.endsWith nm EXT));
        [now apply IHr|].
      destruct (JS.startsWith nm "."); [now apply IHr|].
      destruct e as [x|ds]; simpl in Hpc; [now apply IHr|].
      apply in_app_or in Hpc. destruct Hpc as [Hpc|Hpc]; [|now apply IHr].
      apply in_app_or in Hpc. destruct Hpc as [Hpc|Hpc].
      * apply in_map_iff in Hpc. destruct Hpc as (x & [= <- <-] & Hx).
        apply (proj1 (sortNodes_In _ _)) in Hx. simpl.
        now apply (proj1 (He (h ++ [nm]) (joinPath path nm))).
      * apply (proj1 (edges_sort _ _)) in Hpc.
        now apply (proj2 (He (h ++ [nm]) (joinPath path nm))).
Qed.

(** X3.  In a scanned tree the kind of a node and the kind of its handle
    agree, a file node has no [children] field and a directory node always
    has one, empty or not. *)
Theorem node_shape_follows_kind (dir : Entry) :
  forall h path n,
    In n (all_nodes (scanDir localeCompare h path dir)) ->
    hkind (handle n) = kind n
    /\ (children n = None <-> kind n = KFile).
Proof.
  induction dir as [c|cs IH] using Entry_induction; intros h path n Hn.
  - destruct Hn.
  - rewrite scanDir_unfold, all_nodes_sort in Hn.
    induction cs as [|[nm e] r IHr]; simpl in Hn; [destruct Hn|].
    inversion IH as [|? ? He Hr]; subst. simpl in He.
    destruct (Kind_eqb (kindOf e) KFile && negb (JS.endsWith nm EXT));
      [now apply IHr|].
    destruct (JS.startsWith nm "."); [now apply IHr|].
    destruct e as [x|ds]; simpl in Hn.
    + destruct Hn as [<-|Hn]; [|now apply IHr]. simpl. now split.
    + destruct Hn as [<-|Hn].
      * simpl. split; [reflexivity|]. split; discriminate.
      * apply in_app_or in Hn. destruct Hn as [Hn|Hn]; [|now apply IHr].
        apply (proj1 (all_nodes_sort localeCompare _ _)) in Hn. eapply He; eassumption.
Qed.

(** X1.  The file nodes of a scanned tree are exactly the
    [visibleFiles] of the disk: the files whose name ends in
    [.excalidraw] and does not start with a dot, in the scanned directory
    or below it through directories whose names do not start with a dot
    either.  Each such file has a node with its id, name and handle path,
    and every file node comes from one.  A file whose own name starts with
    a dot, such as [.secret.excalidraw], is none of them and has no
    node. *)
Theorem file_nodes_are_the_visible_files (dir : Entry) :
  forall h path i nm hp,
    (In (i, nm, hp) (visibleFiles h path dir) <->
     exists n, In n (all_nodes (scanDir localeCompare h path dir))
               /\ id n = i /\ name n = nm /\ kind n = KFile
               /\ hpath (handle n) = hp)
    /\ (In (i, nm, hp) (visibleFiles h path dir) ->
        JS.startsWith nm "." = false /\ JS.endsWith nm EXT = true).
Proof.
  assert (Hiff : forall h path i nm hp,
             In (i, nm, hp) (visibleFiles h path dir) <->
             exists n, In n (all_nodes (scanDir localeCompare h path dir))
                       /\ id n = i /\ name n = nm /\ kind n = KFile
                       /\ hpath (handle n) = hp);
    [|intros h path i nm hp; split; [apply Hiff|];
      intros Hin; apply (proj1 (Hiff h path i nm hp)) in Hin;
      destruct Hin as (n & Hn & _ & <- & Hk & _);
      destruct (scan_shown localeCompare dir h path n Hn) as [Hdot Hext];
      split; [exact Hdot|now apply Hext]].
  induction dir as [c|cs IH] using Entry_induction; intros h path i nm hp.
  - simpl. split; [intros []|intros (n & [] & _)].
  - assert (Hsort : (exists n, In n (all_nodes (scanDir localeCompare h path (EDir cs)))
                /\ id n = i /\ name n = nm /\ kind n = KFile /\ hpath (handle n) = hp)
             <-> (exists n, In n (all_nodes (scanLoop localeCompare h path cs))
                /\ id n = i /\ name n = nm /\ kind n = KFile /\ hpath (handle n) = hp)).
    { rewrite scanDir_unfold.
      split; intros (n & Hn & Hrest); exists n; (split; [|exact Hrest]).
      - now apply (proj1 (all_nodes_sort localeCompare _ _)).
      - now apply (proj2 (all_nodes_sort localeCompare _ _)). }
    rewrite Hsort. clear Hsort.
    induction cs as [|[nm' e] r IHr].
    + simpl. split; [intros []|intros (n & [] & _)].
    + inversion IH as [|? ? He Hr]; subst. simpl in He. specialize (IHr Hr).
      simpl.
      destruct (JS.startsWith nm' ".") eqn:Hdot.
      { rewrite IHr.
        destruct (Kind_eqb (kindOf e) KFile && negb (JS.endsWith nm' EXT));
          reflexivity. }
      destruct e as [x|ds]; simpl.
      * destruct (JS.endsWith nm' EXT); simpl; [|exact IHr].
        split.
        -- intros [[= <- <- <-]|Hin].
           ++ eexists. split; [left; reflexivity|]. simpl. repeat split.
           ++ apply IHr in Hin. destruct Hin as (n & Hn & Hrest).
              exists n. split; [now right|exact Hrest].
        -- intros (n & [<-|Hn] & Hi & Hnm & Hk & Hhp).
           ++ left. simpl in *. now subst.
           ++ right. apply IHr. exists n. repeat split; trivial.
      * split.
        -- intros Hin. apply in_app_or in Hin. destruct Hin as [Hin|Hin].
           ++ apply He in Hin. destruct Hin as (n & Hn & Hrest).
              exists n. split; [|exact Hrest].
              right. apply in_or_app. left.
              now apply (proj2 (all_nodes_sort localeCompare _ _)).
           ++ apply IHr in Hin. destruct Hin as (n & Hn & Hrest).
              exists n. split; [|exact Hrest]. right. apply in_or_app. now right.
        -- intros (n & [<-|Hn] & Hi & Hnm & Hk & Hhp); [discriminate|].
           apply in_or_app. apply in_app_or in Hn. destruct Hn as [Hn|Hn].
           ++ left. apply He. exists n. split; [|now repeat split].
              now apply (proj1 (all_nodes_sort localeCompare _ _)).
           ++ right. apply IHr. exists n. now repeat split.
Qed.
(** X2.  Ids and handles follow the tree: a node returned for a directory
    has the id [path/name] (just [name] under an empty path) and the
    handle path of the directory extended by its name, and every child of
    a directory node has the parent's id and handle path extended the same
    way. *)
Theorem node_ids_follow_tree (dir : Entry) (h : list string) (path : string) :
  (forall n, In n (scanDir localeCompare h path dir) ->
             id n = joinPath path (name n)
             /\ hpath (handle n) = h ++ [name n])
  /\ (forall p c, In (p, c) (edges (scanDir localeCompare h path dir)) ->
                  id c = joinPath (id p) (name c)
                  /\ hpath (handle c) = hpath (handle p) ++ [name c]).
Proof. apply scan_paths. Qed.

End ScanMore.

Section ScanStable.
Variable localeCompare : string -> string -> Z.

(** What one entry adds to the list the loop builds. *)
Lemma scanLoop_cons (h : list string) (path nm : string) (e : Entry)
    (r : list (string * Entry)) :
  scanLoop localeCompare h path ((nm, e) :: r)
  = (if (Kind_eqb (kindOf e) KFile && negb (JS.endsWith nm EXT))
        || JS.startsWith nm "."
     then []
     else [match e with
           | EFile _ =>
               mkNode (joinPath path nm) nm KFile (mkHandle KFile (h ++ [nm])) None
           | EDir _ =>
               mkNode (joinPath path nm) nm KDirectory
                 (mkHandle KDirectory (h ++ [nm]))
                 (Some (sortNodes localeCompare
                          (scanDir localeCompare (h ++ [nm]) (joinPath path nm) e)))
           end])
    ++ scanLoop localeCompare h path r.
Proof.
  simpl.
  destruct (Kind_eqb (kindOf e) KFile && negb (JS.endsWith nm EXT)); [reflexivity|].
  destruct (JS.startsWith nm "."); [reflexivity|]. now destruct e.
Qed.

Lemma scanLoop_perm (h : list string) (path : string)
    (cs cs' : list (string * Entry)) :
  Permutation cs cs' ->
  Permutation (scanLoop localeCompare h path cs) (scanLoop localeCompare h path cs').
Proof.
  induction 1 as [|[nm e] l l' _ IH|[nm e] [nm' e'] l|l l' l'' _ IH1 _ IH2].
  - reflexivity.
  - rewrite !scanLoop_cons. now apply Permutation_app_head.
  - rewrite !scanLoop_cons. rewrite !app_assoc.
    apply Permutation_app_tail, Permutation_app_comm.
  - now transitivity (scanLoop localeCompare h path l').
Qed.

Lemma scanLoop_names (h : list string) (path : string)
    (cs : list (string * Entry)) :
  (forall n, In n (scanLoop localeCompare h path cs) -> In (name n) (map fst cs))
  /\ (NoDup (map fst cs) ->
      NoDup (map name (scanLoop localeCompare h path cs))).
Proof.
  induction cs as [|[nm e] r [IHin IHnd]]; [split; [intros n []|constructor]|].
  rewrite scanLoop_cons.
  set (skip := (Kind_eqb (kindOf e) KFile && negb (JS.endsWith nm EXT))
               || JS.startsWith nm ".").
  split.
  - intros n Hn. simpl. apply in_app_or in Hn. destruct Hn as [Hn|Hn].
    + left. destruct skip; [destruct Hn|].
      destruct Hn as [<-|[]]. now destruct e.
    + right. now apply IHin.
  - intros Hnd. inversion Hnd as [|? ? Hnm Hr]; subst.
    destruct skip; simpl; [now apply IHnd|].
    constructor; [|now apply IHnd].
    replace (name _) with nm by now destruct e.
    intros Hin. apply in_map_iff in Hin. destruct Hin as (n & <- & Hn).
    apply Hnm. now apply IHin.
Qed.

Lemma same_name_same_node (l : list FileNode) (a b : FileNode) :
  NoDup (map name l) -> In a l -> In b l -> name a = name b -> a = b.
Proof.
  induction l as [|x r IH]; simpl; [contradiction|].
  intros Hnd. inversion Hnd as [|? ? Hx Hr]; subst.
  intros [->|Ha] [->|Hb] Hn; trivial.
  - exfalso. apply Hx. rewrite Hn. now apply in_map.
  - exfalso. apply Hx. rewrite <- Hn. now apply in_map.
  - now apply IH.
Qed.

Hypothesis localeCompare_total :
  forall a b, (0 < localeCompare a b)%Z -> (localeCompare b a <= 0)%Z.
Hypothesis localeCompare_trans :
  forall a b c, (localeCompare a b <= 0)%Z -> (localeCompare b c <= 0)%Z ->
                (localeCompare a c <= 0)%Z.

Lemma sortNodes_sorted (l : list FileNode) :
  StronglySorted (JS.ordered (compareNodes localeCompare))
    (sortNodes localeCompare l).
Proof.
  apply sort_sorted;
    [now apply compareNodes_total|now apply compareNodes_trans].
Qed.

Lemma sortNodes_twice (l : list FileNode) :
  sortNodes localeCompare (sortNodes localeCompare l) = sortNodes localeCompare l.
Proof. apply sort_sorted_id, sortNodes_sorted. Qed.

Lemma sort_scanDir (h : list string) (path : string) (dir : Entry) :
  sortNodes localeCompare (scanDir localeCompare h path dir)
  = scanDir localeCompare h path dir.
Proof.
  destruct dir as [c|cs]; [reflexivity|].
  rewrite scanDir_unfold. apply sortNodes_twice.
Qed.

(** X4.  On a disk with unique names and under a consistent
    [localeCompare], every node's handle resolves to an entry of the
    node's kind, and the children of a directory node are what a scan of
    that directory under the node's id returns: the second sort in
    [scanDirectory] changes nothing. *)
Theorem children_are_rescans (dir : Entry) :
  uniqueNames dir = true ->
  forall h path n,
    In n (all_nodes (scanDir localeCompare h path dir)) ->
    exists rel x,
      hpath (handle n) = h ++ rel
      /\ lookup rel dir = Some x
      /\ kindOf x = kind n
      /\ (kind n = KDirectory ->
          children n = Some (scanDir localeCompare (h ++ rel) (id n) x)).
Proof.
  induction dir as [c|cs IH] using Entry_induction; intros Hu h path n Hn.
  - destruct Hn.
  - apply uniqueNames_dir in Hu. destruct Hu as [Hnd Hsub].
    rewrite scanDir_unfold in Hn.
    apply (proj1 (all_nodes_sort localeCompare _ _)) in Hn.
    assert (Hall : forall r, incl r cs ->
               In n (all_nodes (scanLoop localeCompare h path r)) ->
               exists rel x,
                 hpath (handle n) = h ++ rel
                 /\ lookup rel (EDir cs) = Some x
                 /\ kindOf x = kind n
                 /\ (kind n = KDirectory ->
                     children n = Some (scanDir localeCompare (h ++ rel) (id n) x)));
      [|now apply (Hall cs (incl_refl cs))].
    clear Hn. intros r. induction r as [|[nm e] r IHr]; intros Hincl Hn.
    + destruct Hn.
    + assert (Hin : In (nm, e) cs) by (apply Hincl; now left).
      assert (Hr : incl r cs) by (intros x Hx; apply Hincl; now right).
      pose proof (assoc_In nm e cs Hnd Hin) as Hassoc.
      rewrite Forall_forall in IH, Hsub.
      pose proof (IH _ Hin (Hsub _ Hin)) as He. simpl in He.
      rewrite scanLoop_cons in Hn. unfold all_nodes in Hn.
      rewrite flat_map_app in Hn. apply in_app_or in Hn.
      destruct Hn as [Hn|Hn]; [|now apply IHr].
      destruct ((Kind_eqb (kindOf e) KFile && negb (JS.endsWith nm EXT))
                || JS.startsWith nm "."); [destruct Hn|].
      destruct e as [c|ds]; cbn [flat_map subtree app In] in Hn.
      * destruct Hn as [<-|[]]. exists [nm], (EFile c).
        cbn [handle hpath kind kindOf lookup]. rewrite Hassoc.
        repeat split. discriminate.
      * rewrite app_nil_r in Hn. destruct Hn as [<-|Hn].
        -- exists [nm], (EDir ds).
           cbn [handle hpath kind kindOf lookup children id]. rewrite Hassoc.
           repeat split. intros _. f_equal. apply sort_scanDir.
        -- apply (proj1 (all_nodes_sort localeCompare _ _)) in Hn.
           destruct (He (h ++ [nm]) _ n Hn) as (rel & x & Hp & Hl & Hk & Hc).
           exists (nm :: rel), x. cbn [lookup]. rewrite Hassoc.
           rewrite <- app_assoc in Hp, Hc. simpl in Hp, Hc. now repeat split.
Qed.

Hypothesis localeCompare_antisym :
  forall a b, (localeCompare a b <= 0)%Z -> (localeCompare b a <= 0)%Z -> a = b.

(** X5.  When [localeCompare] is a consistent order that tells all names
    apart and the names of a directory are unique, the scan does not depend
    on the order in which the platform enumerates the entries. *)
Theorem scan_order_independent (h : list string) (path : string)
    (cs cs' : list (string * Entry)) :
  NoDup (map fst cs) ->
  Permutation cs cs' ->
  scanDir localeCompare h path (EDir cs) = scanDir localeCompare h path (EDir cs').
Proof.
  intros Hnd Hp. rewrite !scanDir_unfold.
  apply (sorted_perm_unique (JS.ordered (compareNodes localeCompare)));
    try apply sortNodes_sorted.
  - unfold sortNodes. rewrite <- !sort_perm. now apply scanLoop_perm.
  - intros a b Ha Hb Hab Hba.
    apply (proj1 (sortNodes_In localeCompare _ _)) in Ha, Hb.
    apply (same_name_same_node (scanLoop localeCompare h path cs)); trivial.
    + now apply scanLoop_names.
    + unfold JS.ordered, compareNodes in Hab, Hba.
      destruct (kind a), (kind b); simpl in *; try lia;
        now apply localeCompare_antisym.
Qed.
End ScanStable.

Lemma append_inj_l (p a b : string) : (p ++ a = p ++ b)%string -> a = b.
Proof. induction p as [|c p IH]; simpl; [trivial|]. intros [= H]. now apply IH. Qed.

Lemma joinPath_inj (p a b : string) : joinPath p a = joinPath p b -> a = b.
Proof.
  unfold joinPath. destruct (JS.truthy_string p); [|trivial].
  intros H. apply append_inj_l in H. now injection H.
Qed.

Section ScanKeys.
Variable localeCompare : string -> string -> Z.

Lemma sortNodes_names (l : list FileNode) :
  NoDup (map name l) -> NoDup (map name (sortNodes localeCompare l)).
Proof.
  apply Permutation_NoDup, Permutation_map. unfold sortNodes. apply sort_perm.
Qed.

Lemma scan_siblings_named (dir : Entry) :
  uniqueNames dir = true ->
  forall h path l,
    In l (sibling_lists (scanDir localeCompare h path dir)) ->
    NoDup (map name l)
    /\ exists p, forall n, In n l -> id n = joinPath p (name n).
Proof.
  induction dir as [c|cs IH] using Entry_induction; intros Hu h path l Hl.
  - destruct Hl as [<-|[]]. split; [constructor|]. exists path. intros n [].
  - apply uniqueNames_dir in Hu. destruct Hu as [Hnd Hsub].
    destruct Hl as [<-|Hl].
    + split.
      * rewrite scanDir_unfold. apply sortNodes_names.
        now apply scanLoop_names.
      * exists path. intros n Hn.
        now apply (proj1 (scan_paths localeCompare (EDir cs) h path)).
    + rewrite scanDir_unfold in Hl.
      apply (proj1 (child_lists_sort localeCompare _ _)) in Hl.
      clear Hnd. induction cs as [|[nm e] r IHr]; [destruct Hl|].
      inversion IH as [|? ? He Hr]; subst. inversion Hsub as [|? ? Hue Hur]; subst.
      simpl in He, Hue.
      rewrite scanLoop_cons, flat_map_app in Hl. apply in_app_or in Hl.
      destruct Hl as [Hl|Hl]; [|now apply IHr].
      destruct ((Kind_eqb (kindOf e) KFile && negb (JS.endsWith nm EXT))
                || JS.startsWith nm "."); [destruct Hl|].
      destruct e as [c|ds]; cbn [flat_map child_lists app] in Hl;
        [destruct Hl|].
      rewrite app_nil_r in Hl.
      set (X := scanDir localeCompare (h ++ [nm]) (joinPath path nm) (EDir ds)) in *.
      destruct Hl as [<-|Hl].
      * destruct (He Hue (h ++ [nm]) (joinPath path nm) X (or_introl eq_refl))
          as (HX & p & Hp).
        split; [now apply sortNodes_names|].
        exists p. intros n Hn. apply Hp.
        now apply (proj1 (sortNodes_In localeCompare _ _)).
      * apply (proj1 (child_lists_sort localeCompare _ _)) in Hl.
        apply (He Hue (h ++ [nm]) (joinPath path nm)). now right.
Qed.

(** X6.  On a disk with unique names, the nodes of every sibling list of a
    scanned tree have pairwise different names and pairwise different ids,
    so the React keys of the rows of one folder never collide. *)
Theorem sibling_keys_distinct (dir : Entry) (h : list string) (path : string)
    (l : list FileNode) :
  uniqueNames dir = true ->
  In l (sibling_lists (scanDir localeCompare h path dir)) ->
  NoDup (map name l) /\ NoDup (map id l).
Proof.
  intros Hu Hl.
  destruct (scan_siblings_named dir Hu h path l Hl) as (Hn & p & Hp).
  split; [exact Hn|].
  clear Hl. induction l as [|x r IH]; [constructor|].
  simpl in *. inversion Hn as [|? ? Hx Hr]; subst.
  constructor; [|apply IH; auto].
  intros Hin. apply Hx. apply in_map_iff in Hin.
  destruct Hin as (y & Hy & Hyin). apply in_map_iff. exists y. split; [|exact Hyin].
  rewrite (Hp x), (Hp y) in Hy by auto. now apply joinPath_inj in Hy.
Qed.
End ScanKeys.

(** ** More about the platform *)

Lemma assoc_None_notin {B : Type} (n : string) (cs : list (string * B)) :
  JS.assoc n cs = None -> ~ In n (map fst cs).
Proof.
  induction cs as [|[m x] r IH]; simpl; [tauto|].
  destruct (String.eqb_spec m n) as [->|Hne]; [discriminate|].
  intros Hr [Heq|Hin]; [contradiction|]. now apply IH.
Qed.

Lemma assoc_app_fresh {B : Type} (n : string) (x : B) (cs : list (string * B)) :
  JS.assoc n cs = None -> JS.assoc n (cs ++ [(n, x)]) = Some x.
Proof.
  induction cs as [|[m y] r IH]; simpl; [now rewrite String.eqb_refl|].
  destruct (String.eqb m n); [discriminate|exact IH].
Qed.

Lemma remove_key_app_fresh {B : Type} (n : string) (x : B)
    (cs : list (string * B)) :
  JS.assoc n cs = None -> JS.remove_key n (cs ++ [(n, x)]) = cs.
Proof.
  induction cs as [|[m y] r IH]; simpl; [now rewrite String.eqb_refl|].
  destruct (String.eqb m n); [discriminate|]. intros H. now rewrite IH.
Qed.

Lemma remove_key_names {B : Type} (n : string) (cs : list (string * B)) :
  NoDup (map fst cs) -> NoDup (map fst (JS.remove_key n cs)).
Proof.
  induction cs as [|[m y] r IH]; simpl; [constructor|].
  intros Hnd. inversion Hnd as [|? ? Hm Hr]; subst.
  destruct (String.eqb m n); [now apply IH|]. simpl.
  constructor; [|now apply IH].
  intros Hin. apply Hm. clear -Hin.
  induction r as [|[k z] r IHr]; simpl in *; [contradiction|].
  destruct (String.eqb k n); [right; now apply IHr|].
  simpl in Hin. destruct Hin as [->|Hin]; [now left|right; now apply IHr].
Qed.

Lemma remove_key_Forall {B : Type} (P : string * B -> Prop) (n : string)
    (cs : list (string * B)) :
  Forall P cs -> Forall P (JS.remove_key n cs).
Proof.
  induction 1 as [|[m y] r Hy Hr IH]; simpl; [constructor|].
  destruct (String.eqb m n); [exact IH|now constructor].
Qed.

Lemma alter_child_keeps {B : Type} (P : B -> Prop) (n : string)
    (g : B -> Result B) (cs cs' : list (string * B)) :
  alter_child n g cs = Ok cs' ->
  (forall c c', P c -> g c = Ok c' -> P c') ->
  map fst cs' = map fst cs
  /\ (Forall (fun p => P (snd p)) cs -> Forall (fun p => P (snd p)) cs').
Proof.
  revert cs'. induction cs as [|[m c] r IH]; simpl; intros cs' Hcs Hg;
    [discriminate|].
  destruct (String.eqb m n).
  - destruct (g c) as [c'|] eqn:Hc; [|discriminate]. injection Hcs as <-.
    split; [reflexivity|]. intros HF. inversion HF; subst.
    constructor; [simpl in *; eauto|assumption].
  - destruct (alter_child n g r) as [r'|]; [|discriminate]. injection Hcs as <-.
    destruct (IH r' eq_refl Hg) as [Hn HF]. simpl. split; [now rewrite Hn|].
    intros HF'. inversion HF'; subst. constructor; [assumption|now apply HF].
Qed.

Lemma alter_unique (p : list string) (f : Entry -> Result Entry) :
  (forall x y, uniqueNames x = true -> f x = Ok y -> uniqueNames y = true) ->
  forall e e',
    uniqueNames e = true -> alter p f e = Ok e' -> uniqueNames e' = true.
Proof.
  intros Hf. induction p as [|n p IH]; intros e e' Hu Ha; simpl in Ha.
  - eauto.
  - destruct e as [c|cs]; [discriminate|].
    destruct (alter_child n (alter p f) cs) as [cs'|] eqn:Hc; [|discriminate].
    injection Ha as <-.
    apply uniqueNames_dir in Hu. destruct Hu as [Hnd HF].
    destruct (alter_child_keeps (fun c => uniqueNames c = true) _ _ _ _ Hc)
      as [Hn HF']; [intros c c' Hc1 Hc2; now apply (IH c c')|].
    apply uniqueNames_dir. rewrite Hn. split; [exact Hnd|now apply HF'].
Qed.

Lemma alter_undo (p : list string) (f g : Entry -> Result Entry) :
  forall e x y,
    lookup p e = Some x -> f x = Ok y -> g y = Ok x ->
    exists e1, alter p f e = Ok e1 /\ alter p g e1 = Ok e.
Proof.
  induction p as [|n p IH]; intros e x y Hl Hf Hg; simpl in *.
  - injection Hl as ->. exists y. now split.
  - destruct e as [c|cs]; [discriminate|].
    assert (H : exists cs1, alter_child n (alter p f) cs = Ok cs1
                            /\ alter_child n (alter p g) cs1 = Ok cs).
    { induction cs as [|[m c] r IHr]; simpl in *; [discriminate|].
      destruct (String.eqb m n) eqn:Hm.
      - destruct (IH c x y Hl Hf Hg) as (c1 & -> & Hc1). simpl.
        eexists. split; [reflexivity|]. simpl. now rewrite Hm, Hc1.
      - destruct (IHr Hl) as (r1 & -> & Hr1). simpl.
        eexists. split; [reflexivity|]. simpl. now rewrite Hm, Hr1. }
    destruct H as (cs1 & -> & Hcs1). simpl.
    eexists. split; [reflexivity|]. simpl. now rewrite Hcs1.
Qed.


(** ** More about the provider's operations *)

Section ContextMore.
Variable localeCompare : string -> string -> Z.

(** Each mutation ends in a rescan, and the rescan is the only step that
    can fail after the disk has changed. *)
Lemma createFile_steps (parent : Handle) (nm : string) (w : World) :
  let fileName := if JS.endsWith nm EXT then nm else (nm ++ EXT)%string in
  match getFileHandle parent fileName true (disk w) with
  | Ok r =>
      match refreshDirectory localeCompare (setDisk (snd r) w) with
      | (Ok _, w') => createFile localeCompare parent nm w = (Ok tt, w')
      | (Err e, w') =>
          createFile localeCompare parent nm w
          = (Err e, console_error "Error creating file:" w')
      end
  | Err e =>
      createFile localeCompare parent nm w
      = (Err e, console_error "Error creating file:" w)
  end.
Proof.
  intros fileName. unfold createFile, try_catch, bind, act. fold fileName.
  destruct (getFileHandle parent fileName true (disk w)) as [r|e]; simpl;
    [|reflexivity].
  now destruct (refreshDirectory localeCompare (setDisk (snd r) w)) as [[[]|e] w'].
Qed.

Lemma createFolder_steps (parent : Handle) (nm : string) (w : World) :
  match getDirectoryHandle parent nm true (disk w) with
  | Ok r =>
      match refreshDirectory localeCompare (setDisk (snd r) w) with
      | (Ok _, w') => createFolder localeCompare parent nm w = (Ok tt, w')
      | (Err e, w') =>
          createFolder localeCompare parent nm w
          = (Err e, console_error "Error creating folder:" w')
      end
  | Err e =>
      createFolder localeCompare parent nm w
      = (Err e, console_error "Error creating folder:" w)
  end.
Proof.
  unfold createFolder, try_catch, bind, act.
  destruct (getDirectoryHandle parent nm true (disk w)) as [r|e]; simpl;
    [|reflexivity].
  now destruct (refreshDirectory localeCompare (setDisk (snd r) w)) as [[[]|e] w'].
Qed.

Lemma deleteEntry_steps (parent : Handle) (nm : string) (w : World) :
  match removeEntry parent nm false (disk w) with
  | Ok d =>
      let w1 := setSelectedFile (selectionAfterDelete (selectedFile (state w)) nm)
                  (setDisk d w) in
      match refreshDirectory localeCompare w1 with
      | (Ok _, w') => deleteEntry localeCompare parent nm w = (Ok tt, w')
      | (Err e, w') =>
          deleteEntry localeCompare parent nm w
          = (Err e, console_error "Error deleting entry:" w')
      end
  | Err e =>
      deleteEntry localeCompare parent nm w
      = (Err e, console_error "Error deleting entry:" w)
  end.
Proof.
  unfold deleteEntry, try_catch, bind, act, selectionAfterDelete.
  destruct (removeEntry parent nm false (disk w)) as [d|e]; [|reflexivity].
  assert (Hw : forall v : World,
             setSelectedFile (selectedFile (state v)) v = v)
    by (intros [dk [rt tr sl] cn]; reflexivity).
  destruct (selectedFile (state w)) as [f|] eqn:Hsel.
  - destruct (String.eqb (name f) nm); unfold modify, ret.
    + cbv zeta.
      now destruct (refreshDirectory localeCompare
                      (setSelectedFile None (setDisk d w))) as [[[]|e] w'].
    + cbv zeta.
      replace (setSelectedFile (Some f) (setDisk d w)) with (setDisk d w)
        by (rewrite <- (Hw (setDisk d w)) at 1; simpl; now rewrite Hsel).
      now destruct (refreshDirectory localeCompare (setDisk d w)) as [[[]|e] w'].
  - unfold ret. cbv zeta.
    replace (setSelectedFile None (setDisk d w)) with (setDisk d w)
      by (rewrite <- (Hw (setDisk d w)) at 1; simpl; now rewrite Hsel).
    now destruct (refreshDirectory localeCompare (setDisk d w)) as [[[]|e] w'].
Qed.

Lemma refreshDirectory_tree (w : World) (root : Handle) :
  rootHandle (state w) = Some root ->
  fst (refreshDirectory localeCompare w) = Ok tt ->
  exists cs,
    lookup (hpath root) (disk w) = Some (EDir cs)
    /\ fileTree (state (snd (refreshDirectory localeCompare w)))
       = scanDir localeCompare (hpath root) EmptyString (EDir cs).
Proof.
  unfold refreshDirectory, scanDirectory, entries, bind, ask, modify, ret.
  intros ->. simpl.
  destruct (lookup (hpath root) (disk w)) as [[c|cs]|]; simpl; try discriminate.
  intros _. now exists cs.
Qed.
End ContextMore.

Section ContextMore2.
Variable localeCompare : string -> string -> Z.

(** What a mutation does to the disk, whether or not its rescan succeeds. *)
Lemma perform_disk (m : Mutation) (w : World) :
  disk (snd (perform localeCompare m w))
  = match m with
    | CreateFile p n =>
        match getFileHandle p (fileNameOf n) true (disk w) with
        | Ok r => snd r
        | Err _ => disk w
        end
    | CreateFolder p n =>
        match getDirectoryHandle p n true (disk w) with
        | Ok r => snd r
        | Err _ => disk w
        end
    | DeleteEntry p n =>
        match removeEntry p n false (disk w) with
        | Ok d => d
        | Err _ => disk w
        end
    | SaveFile h c =>
        match writeText h c (disk w) with
        | Ok d => d
        | Err _ => disk w
        end
    end.
Proof.
  destruct m as [p n|p n|p n|h c]; simpl.
  - pose proof (createFile_steps localeCompare p n w) as H. cbv zeta in H.
    unfold fileNameOf.
    destruct (getFileHandle p _ true (disk w)) as [r|e]; [|now rewrite H].
    pose proof (refreshDirectory_frame localeCompare (setDisk (snd r) w)) as (Hd & _).
    destruct (refreshDirectory localeCompare (setDisk (snd r) w)) as [[[]|e] w'];
      rewrite H; exact Hd.
  - pose proof (createFolder_steps localeCompare p n w) as H.
    destruct (getDirectoryHandle p n true (disk w)) as [r|e]; [|now rewrite H].
    pose proof (refreshDirectory_frame localeCompare (setDisk (snd r) w)) as (Hd & _).
    destruct (refreshDirectory localeCompare (setDisk (snd r) w)) as [[[]|e] w'];
      rewrite H; exact Hd.
  - pose proof (deleteEntry_steps localeCompare p n w) as H.
    destruct (removeEntry p n false (disk w)) as [d|e]; [|now rewrite H].
    cbv zeta in H.
    match type of H with
    | match refreshDirectory _ ?w1 with _ => _ end =>
        pose proof (refreshDirectory_frame localeCompare w1) as (Hd & _);
        destruct (refreshDirectory localeCompare w1) as [[[]|e] w'];
        rewrite H; exact Hd
    end.
  - unfold saveFileContent, act.
    now destruct (writeText h c (disk w)).
Qed.

Lemma on_children_unique (f : list (string * Entry) -> Result (list (string * Entry))) :
  (forall cs cs',
      NoDup (map fst cs) ->
      Forall (fun p => uniqueNames (snd p) = true) cs ->
      f cs = Ok cs' ->
      NoDup (map fst cs')
      /\ Forall (fun p => uniqueNames (snd p) = true) cs') ->
  forall x y, uniqueNames x = true -> on_children f x = Ok y ->
              uniqueNames y = true.
Proof.
  intros Hf [c|cs] y Hu; simpl; [discriminate|].
  destruct (f cs) as [cs'|] eqn:Hcs; [|discriminate]. intros [= <-].
  apply uniqueNames_dir in Hu. apply uniqueNames_dir.
  now apply (Hf cs cs').
Qed.

Lemma get_or_create_unique (want : Kind) (fresh : Entry) (nm : string) :
  uniqueNames fresh = true ->
  forall x y, uniqueNames x = true ->
              on_children (get_or_create want fresh nm true) x = Ok y ->
              uniqueNames y = true.
Proof.
  intros Hfresh. apply on_children_unique. intros cs cs' Hnd HF.
  unfold get_or_create. destruct (JS.assoc nm cs) as [c|] eqn:Hc.
  - destruct (Kind_eqb (kindOf c) want); [|discriminate]. now intros [= <-].
  - intros [= <-]. split.
    + rewrite map_app. simpl. apply NoDup_app; trivial.
      * repeat constructor. intros [].
      * intros a Ha [<-|[]]. now apply (assoc_None_notin _ _ Hc).
    + apply Forall_app. split; [exact HF|]. now repeat constructor.
Qed.

Lemma remove_child_unique (nm : string) (recursive : bool) :
  forall x y, uniqueNames x = true ->
              on_children (remove_child nm recursive) x = Ok y ->
              uniqueNames y = true.
Proof.
  apply on_children_unique. intros cs cs' Hnd HF. unfold remove_child.
  assert (Hgood : NoDup (map fst (JS.remove_key nm cs))
                  /\ Forall (fun p => uniqueNames (snd p) = true)
                       (JS.remove_key nm cs))
    by (split; [now apply remove_key_names|now apply remove_key_Forall]).
  destruct (JS.assoc nm cs) as [[c|[|x xs]]|]; try discriminate;
    try (now intros [= <-]).
  destruct recursive; [now intros [= <-]|discriminate].
Qed.

(** X7.  [createFile], [createFolder], [deleteEntry] and
    [saveFileContent] keep the names of every directory unique, whether
    they succeed or fail. *)
Theorem mutations_keep_names_unique (m : Mutation) (w : World) :
  uniqueNames (disk w) = true ->
  uniqueNames (disk (snd (perform localeCompare m w))) = true.
Proof.
  intros Hu. rewrite perform_disk. destruct m as [p n|p n|p n|h c].
  - unfold getFileHandle. destruct (negb (valid_name (fileNameOf n))); [exact Hu|].
    destruct (alter (hpath p) _ (disk w)) as [d|] eqn:Ha; simpl; [|exact Hu].
    eapply alter_unique; [|exact Hu|exact Ha].
    now apply get_or_create_unique.
  - unfold getDirectoryHandle. destruct (negb (valid_name n)); [exact Hu|].
    destruct (alter (hpath p) _ (disk w)) as [d|] eqn:Ha; simpl; [|exact Hu].
    eapply alter_unique; [|exact Hu|exact Ha].
    now apply get_or_create_unique.
  - unfold removeEntry. destruct (negb (valid_name n)); [exact Hu|].
    destruct (alter (hpath p) _ (disk w)) as [d|] eqn:Ha; simpl; [|exact Hu].
    eapply alter_unique; [|exact Hu|exact Ha].
    apply remove_child_unique.
  - unfold writeText.
    destruct (alter (hpath h) _ (disk w)) as [d|] eqn:Ha; simpl; [|exact Hu].
    eapply alter_unique; [|exact Hu|exact Ha].
    intros [x|cs] y _; [now intros [= <-]|discriminate].
Qed.

(** X8.  After a [createFile], [createFolder] or [deleteEntry] that
    succeeded, the root still resolves and the tree snapshot is the scan of
    the root as the disk now is. *)
Theorem mutation_leaves_fresh_tree (m : Mutation) (w : World) (root : Handle) :
  (forall h c, m <> SaveFile h c) ->
  rootHandle (state w) = Some root ->
  fst (perform localeCompare m w) = Ok tt ->
  exists cs,
    lookup (hpath root) (disk (snd (perform localeCompare m w))) = Some (EDir cs)
    /\ fileTree (state (snd (perform localeCompare m w)))
       = scanDir localeCompare (hpath root) EmptyString (EDir cs).
Proof.
  intros Hm Hroot.
  assert (Hlast : forall w1 r,
             rootHandle (state w1) = Some root ->
             perform localeCompare m w
             = (match fst (refreshDirectory localeCompare w1) with
                | Ok _ => (Ok tt, snd (refreshDirectory localeCompare w1))
                | Err e => r e
                end) ->
             (forall e, fst (r e) <> Ok tt) ->
             fst (perform localeCompare m w) = Ok tt ->
             exists cs,
               lookup (hpath root) (disk (snd (perform localeCompare m w)))
               = Some (EDir cs)
               /\ fileTree (state (snd (perform localeCompare m w)))
                  = scanDir localeCompare (hpath root) EmptyString (EDir cs)).
  { intros w1 r Hr1 Heq Hr. rewrite Heq.
    pose proof (refreshDirectory_tree localeCompare w1 root Hr1) as Ht.
    pose proof (refreshDirectory_frame localeCompare w1) as (Hd & _).
    destruct (fst (refreshDirectory localeCompare w1)) as [[]|e] eqn:Hf.
    - intros _. simpl. destruct (Ht eq_refl) as (cs & Hl & Htree).
      exists cs. now rewrite Hd.
    - intros H. now apply Hr in H. }
  destruct m as [p n|p n|p n|h c]; simpl.
  - pose proof (createFile_steps localeCompare p n w) as H. cbv zeta in H.
    destruct (getFileHandle p _ true (disk w)) as [r|e];
      [|rewrite H; discriminate].
    apply (Hlast (setDisk (snd r) w)
             (fun e => (Err e, console_error "Error creating file:"
                                 (snd (refreshDirectory localeCompare
                                         (setDisk (snd r) w)))))); trivial.
    + simpl. destruct (refreshDirectory localeCompare (setDisk (snd r) w))
        as [[[]|e] w']; exact H.
    + discriminate.
  - pose proof (createFolder_steps localeCompare p n w) as H.
    destruct (getDirectoryHandle p n true (disk w)) as [r|e];
      [|rewrite H; discriminate].
    apply (Hlast (setDisk (snd r) w)
             (fun e => (Err e, console_error "Error creating folder:"
                                 (snd (refreshDirectory localeCompare
                                         (setDisk (snd r) w)))))); trivial.
    + simpl. destruct (refreshDirectory localeCompare (setDisk (snd r) w))
        as [[[]|e] w']; exact H.
    + discriminate.
  - pose proof (deleteEntry_steps localeCompare p n w) as H.
    destruct (removeEntry p n false (disk w)) as [d|e];
      [|rewrite H; discriminate].
    cbv zeta in H.
    match type of H with
    | match refreshDirectory _ ?w1 with _ => _ end =>
        apply (Hlast w1
                 (fun e => (Err e, console_error "Error deleting entry:"
                                     (snd (refreshDirectory localeCompare w1)))));
        trivial;
        [simpl; destruct (refreshDirectory localeCompare w1) as [[[]|e] w']; exact H
        |discriminate]
    end.
  - now destruct (Hm h c).
Qed.
End ContextMore2.






Lemma writeText_scan (h : Handle) (c : string) (localeCompare : string -> string -> Z) :
  forall d d',
    writeText h c d = Ok d' ->
    kindOf d' = kindOf d
    /\ forall hp path, scanDir localeCompare hp path d'
                       = scanDir localeCompare hp path d.
Proof.
  unfold writeText. induction (hpath h) as [|n p IH]; intros d d' Ha; simpl in Ha.
  - destruct d; [|discriminate]. injection Ha as <-. now split.
  - destruct d as [x|cs]; [discriminate|].
    destruct (alter_child n _ cs) as [cs'|] eqn:Hc; [|discriminate].
    injection Ha as <-. split; [reflexivity|]. intros hp path.
    rewrite !scanDir_unfold. f_equal.
    revert cs' Hc. induction cs as [|[m e] r IHr]; intros cs' Hc; simpl in Hc;
      [discriminate|].
    destruct (String.eqb m n).
    + destruct (alter p _ e) as [e'|] eqn:He; [|discriminate].
      injection Hc as <-. destruct (IH _ _ He) as [Hk Hs].
      rewrite !scanLoop_cons, Hk, Hs. now destruct e, e'.
    + destruct (alter_child n _ r) as [r'|] eqn:Hr; [|discriminate].
      injection Hc as <-. rewrite !scanLoop_cons. now rewrite (IHr r').
Qed.

Section ContextMore3.
Variable localeCompare : string -> string -> Z.

Lemma create_then_remove (parent : Handle) (nm : string) (want : Kind)
    (fresh : Entry) (d : Entry) (cs : list (string * Entry)) :
  lookup (hpath parent) d = Some (EDir cs) ->
  JS.assoc nm cs = None ->
  match fresh with EDir (_ :: _) => False | _ => True end ->
  exists d1,
    alter (hpath parent) (on_children (get_or_create want fresh nm true)) d = Ok d1
    /\ alter (hpath parent) (on_children (remove_child nm false)) d1 = Ok d.
Proof.
  intros Hl Hc Hfresh.
  apply alter_undo with (EDir cs) (EDir (cs ++ [(nm, fresh)])); trivial.
  - unfold on_children, get_or_create. now rewrite Hc.
  - unfold on_children, remove_child.
    rewrite (assoc_app_fresh nm fresh cs Hc), (remove_key_app_fresh nm fresh cs Hc).
    now destruct fresh as [c|[|x xs]].
Qed.

(** X9.  Creating a folder, or a file, under a name the parent does not
    hold and then deleting that entry leaves the disk exactly as it was. *)
Theorem create_delete_round_trip (parent : Handle) (nm : string) (w : World)
    (cs : list (string * Entry)) :
  lookup (hpath parent) (disk w) = Some (EDir cs) ->
  (valid_name nm = true ->
   JS.assoc nm cs = None ->
   disk (snd (perform localeCompare (DeleteEntry parent nm)
                (snd (perform localeCompare (CreateFolder parent nm) w))))
   = disk w)
  /\ (valid_name (fileNameOf nm) = true ->
      JS.assoc (fileNameOf nm) cs = None ->
      disk (snd (perform localeCompare (DeleteEntry parent (fileNameOf nm))
                   (snd (perform localeCompare (CreateFile parent nm) w))))
      = disk w).
Proof.
  intros Hl. split; intros Hv Hc; rewrite !perform_disk.
  - destruct (create_then_remove parent nm KDirectory (EDir []) _ cs Hl Hc I)
      as (d1 & H1 & H2).
    unfold getDirectoryHandle, removeEntry. rewrite Hv. simpl.
    rewrite H1. simpl. now rewrite H2.
  - destruct (create_then_remove parent (fileNameOf nm) KFile
                (EFile EmptyString) _ cs Hl Hc I) as (d1 & H1 & H2).
    unfold getFileHandle, removeEntry. rewrite Hv. simpl.
    rewrite H1. simpl. now rewrite H2.
Qed.

End ContextMore3.

Lemma alter_child_other {B : Type} (n m : string) (g : B -> Result B)
    (cs cs' : list (string * B)) :
  alter_child n g cs = Ok cs' -> m <> n -> JS.assoc m cs' = JS.assoc m cs.
Proof.
  revert cs'. induction cs as [|[k x] r IH]; intros cs' Hc Hmn; simpl in *;
    [discriminate|].
  destruct (String.eqb_spec k n) as [->|Hkn].
  - destruct (g x) as [x'|]; [|discriminate]. injection Hc as <-. simpl.
    destruct (String.eqb_spec n m) as [->|_]; [contradiction|reflexivity].
  - destruct (alter_child n g r) as [r'|] eqn:Hr; [|discriminate].
    injection Hc as <-. simpl. now rewrite (IH r').
Qed.

Lemma alter_child_same {B : Type} (n : string) (g : B -> Result B)
    (cs cs' : list (string * B)) :
  alter_child n g cs = Ok cs' ->
  exists x x', JS.assoc n cs = Some x /\ g x = Ok x' /\ JS.assoc n cs' = Some x'.
Proof.
  revert cs'. induction cs as [|[k x] r IH]; intros cs' Hc; simpl in *;
    [discriminate|].
  destruct (String.eqb k n) eqn:Hk.
  - destruct (g x) as [x'|] eqn:Hg; [|discriminate]. injection Hc as <-.
    exists x, x'. simpl. now rewrite Hk.
  - destruct (alter_child n g r) as [r'|] eqn:Hr; [|discriminate].
    injection Hc as <-. simpl. rewrite Hk. now apply IH.
Qed.



Section ContextMore4.
Variable localeCompare : string -> string -> Z.

(** Writing a file changes no directory listing: wherever a path led
    before, it leads to an entry of the same kind that scans the same. *)
Lemma writeText_lookup (h : Handle) (c : string) (q : list string) :
  forall d d',
    writeText h c d = Ok d' ->
    match lookup q d, lookup q d' with
    | Some x, Some x' =>
        kindOf x' = kindOf x
        /\ forall hp path, scanDir localeCompare hp path x'
                           = scanDir localeCompare hp path x
    | None, None => True
    | _, _ => False
    end.
Proof.
  unfold writeText. revert q.
  induction (hpath h) as [|n p IH]; intros q d d' Ha.
  - simpl in Ha. destruct d as [c0|cs]; [|discriminate]. injection Ha as <-.
    destruct q; simpl; [now split|exact I].
  - destruct q as [|m q].
    + simpl lookup. apply (writeText_scan (mkHandle KFile (n :: p)) c). exact Ha.
    + simpl in Ha. destruct d as [c0|cs]; [discriminate|].
      destruct (alter_child n _ cs) as [cs'|] eqn:Hc; [|discriminate].
      injection Ha as <-. simpl.
      destruct (String.eqb_spec m n) as [->|Hmn].
      * destruct (alter_child_same _ _ _ _ Hc) as (x & x' & -> & Hx & ->).
        now apply IH.
      * rewrite (alter_child_other n m _ _ _ Hc Hmn).
        destruct (JS.assoc m cs) as [x|]; [|exact I].
        destruct (lookup q x); [now split|exact I].
Qed.

(** X11.  [saveFileContent] does not change what any scan returns: for
    every directory handle and path prefix, [scanDirectory] gives the same
    result after the save as before it, failure included. *)
Theorem save_keeps_every_scan (h dir : Handle) (c path : string) (w : World) :
  fst (scanDirectory localeCompare dir path (snd (saveFileContent h c w)))
  = fst (scanDirectory localeCompare dir path w).
Proof.
  unfold saveFileContent, act.
  destruct (writeText h c (disk w)) as [d|e] eqn:Hw; [|reflexivity].
  unfold scanDirectory, entries, ask. simpl.
  pose proof (writeText_lookup h c (hpath dir) _ _ Hw) as H.
  destruct (lookup (hpath dir) (disk w)) as [x|],
           (lookup (hpath dir) d) as [x'|]; try contradiction; [|reflexivity].
  destruct H as [Hk Hs].
  destruct x as [c0|cs], x' as [c1|cs']; try discriminate; [reflexivity|].
  simpl. f_equal. apply Hs.
Qed.

Lemma scanLoop_app (h : list string) (path : string)
    (a b : list (string * Entry)) :
  scanLoop localeCompare h path (a ++ b)
  = scanLoop localeCompare h path a ++ scanLoop localeCompare h path b.
Proof.
  induction a as [|[nm e] r IH]; [reflexivity|].
  rewrite <- app_comm_cons, !scanLoop_cons, IH. now rewrite app_assoc.
Qed.

Lemma fileNameOf_suffix (nm : string) : JS.endsWith (fileNameOf nm) EXT = true.
Proof.
  unfold fileNameOf. destruct (JS.endsWith nm EXT) eqn:He; [exact He|].
  apply endsWith_append.
Qed.

(** X13.  The name [createFile] gives an entry always ends in
    [.excalidraw] and is never suffixed twice: calling [createFile] with
    the suffixed name is the same call. *)
Theorem createFile_name_settles (parent : Handle) (nm : string) :
  JS.endsWith (fileNameOf nm) EXT = true
  /\ fileNameOf (fileNameOf nm) = fileNameOf nm
  /\ createFile localeCompare parent (fileNameOf nm)
     = createFile localeCompare parent nm.
Proof.
  pose proof (fileNameOf_suffix nm) as Hs.
  assert (Hi : fileNameOf (fileNameOf nm) = fileNameOf nm)
    by (unfold fileNameOf at 1; now rewrite Hs).
  repeat split; trivial.
  unfold createFile. fold (fileNameOf (fileNameOf nm)). fold (fileNameOf nm).
  now rewrite Hi.
Qed.

(** X12.  [createFile] on the open root with a valid name that the root
    does not hold and that does not start with a dot succeeds, puts an
    empty file on disk, and the refreshed tree has exactly one node of the
    suffixed name: a file node whose id is its name. *)
Theorem createFile_shows_node (root : Handle) (nm : string) (w : World)
    (cs : list (string * Entry)) :
  rootHandle (state w) = Some root ->
  lookup (hpath root) (disk w) = Some (EDir cs) ->
  NoDup (map fst cs) ->
  valid_name (fileNameOf nm) = true ->
  JS.assoc (fileNameOf nm) cs = None ->
  JS.startsWith (fileNameOf nm) "." = false ->
  fst (createFile localeCompare root nm w) = Ok tt
  /\ readText (child root (fileNameOf nm) KFile)
       (disk (snd (createFile localeCompare root nm w))) = Ok EmptyString
  /\ In (mkNode (fileNameOf nm) (fileNameOf nm) KFile
           (child root (fileNameOf nm) KFile) None)
        (fileTree (state (snd (createFile localeCompare root nm w))))
  /\ count_named (fileNameOf nm)
       (fileTree (state (snd (createFile localeCompare root nm w)))) = 1.
Proof.
  intros Hroot Hl Hnd Hv Hc Hdot.
  pose proof (alter_lookup (hpath root)
                (on_children (get_or_create KFile (EFile EmptyString)
                                (fileNameOf nm) true)) _ _ Hl) as Ha.
  unfold on_children at 1, get_or_create at 1 in Ha. rewrite Hc in Ha.
  simpl in Ha. destruct Ha as (d & Hd & Hld).
  pose proof (createFile_steps localeCompare root nm w) as Hst.
  cbv zeta in Hst. fold (fileNameOf nm) in Hst.
  unfold getFileHandle in Hst. rewrite Hv in Hst. simpl in Hst.
  rewrite Hd in Hst. simpl in Hst.
  assert (Hres : rootResolves (setDisk d w) = true).
  { unfold rootResolves. simpl. now rewrite Hroot, Hld. }
  pose proof (refreshDirectory_ok localeCompare _ Hres) as Hok.
  pose proof (refreshDirectory_tree localeCompare (setDisk d w) root Hroot Hok)
    as (cs' & Hl' & Htree).
  pose proof (refreshDirectory_frame localeCompare (setDisk d w)) as (Hfd & _).
  simpl in Hl'. rewrite Hld in Hl'. injection Hl' as <-.
  destruct (refreshDirectory localeCompare (setDisk d w)) as [[[]|e] w'];
    simpl in Hok; [|discriminate].
  rewrite Hst. cbn [fst snd] in *. split; [reflexivity|].
  assert (Hnew : JS.assoc (fileNameOf nm) (cs ++ [(fileNameOf nm, EFile EmptyString)])
                 = Some (EFile EmptyString)) by now apply assoc_app_fresh.
  split; [|split].
  - unfold readText, child. simpl. rewrite Hfd. simpl.
    clear -Hld Hnew. revert Hld. generalize (hpath root) as p, d.
    induction p as [|n p IH]; intros e Hl; simpl in *.
    + injection Hl as ->. simpl. now rewrite Hnew.
    + destruct e as [c|es]; [discriminate|].
      destruct (JS.assoc n es) as [x|]; [|discriminate]. now apply IH.
  - rewrite Htree, scanDir_unfold.
    apply (proj2 (sortNodes_In localeCompare _ _)).
    rewrite scanLoop_app. apply in_or_app. right.
    rewrite scanLoop_cons. simpl.
    rewrite fileNameOf_suffix, Hdot. simpl. now left.
  - rewrite Htree, scanDir_unfold, count_named_sort.
    rewrite (count_scanLoop_present localeCompare (fileNameOf nm) _ _ _
               (EFile EmptyString)); trivial.
    + simpl. now rewrite fileNameOf_suffix, Hdot.
    + rewrite map_app. simpl. apply NoDup_app; trivial.
      * repeat constructor. intros [].
      * intros a Ha [<-|[]]. now apply (assoc_None_notin _ _ Hc).
Qed.
End ContextMore4.

(** ** More about the editor *)

Lemma assoc_set_key_same {B : Type} (k : string) (v : B)
    (l : list (string * B)) :
  JS.assoc k (JS.set_key k v l) = Some v.
Proof.
  induction l as [|[k' v'] r IH]; simpl; [now rewrite String.eqb_refl|].
  destruct (String.eqb k' k) eqn:Hk; simpl; now rewrite Hk.
Qed.

Lemma assoc_set_key_other {B : Type} (k k0 : string) (v : B)
    (l : list (string * B)) :
  k0 <> k -> JS.assoc k0 (JS.set_key k v l) = JS.assoc k0 l.
Proof.
  intros Hne. induction l as [|[k' v'] r IH]; simpl.
  - destruct (String.eqb_spec k k0) as [->|_]; [contradiction|reflexivity].
  - destruct (String.eqb_spec k' k) as [->|Hk]; simpl.
    + destruct (String.eqb_spec k k0) as [->|_]; [contradiction|reflexivity].
    + now rewrite IH.
Qed.

Lemma assoc_remove_key_other {B : Type} (k k0 : string)
    (l : list (string * B)) :
  k0 <> k -> JS.assoc k0 (JS.remove_key k l) = JS.assoc k0 l.
Proof.
  intros Hne. induction l as [|[k' v'] r IH]; simpl; [reflexivity|].
  destruct (String.eqb_spec k' k) as [->|Hk]; simpl.
  - destruct (String.eqb_spec k k0) as [->|_]; [contradiction|exact IH].
  - now rewrite IH.
Qed.

(** X14.  A parsed JSON object always loads.  Its [elements] and [files]
    are kept when truthy; the loaded [appState] never has
    [collaborators], has [viewBackgroundColor] replaced by [#ffffff] when
    falsy, [currentItemFontFamily] by 2 and [currentItemRoughness] by 0
    only when null or missing, and agrees with the file on every other
    key. *)
Theorem documentOf_object (props : list (string * JS.Value)) :
  let given :=
    own_props (JS.or_else (prop props "appState") (JS.VObj [])) in
  exists o,
    documentOf (JS.VObj props)
    = Some (mkInitialData
              (JS.or_else (prop props "elements") (JS.VArr []))
              (JS.VObj o)
              (JS.or_else (prop props "files") (JS.VObj [])))
    /\ JS.assoc "collaborators" o = None
    /\ prop o "viewBackgroundColor"
       = JS.or_else (prop given "viewBackgroundColor") (JS.VStr "#ffffff")
    /\ prop o "currentItemFontFamily"
       = JS.coalesce (prop given "currentItemFontFamily") (JS.VNum 2%float)
    /\ prop o "currentItemRoughness"
       = JS.coalesce (prop given "currentItemRoughness") (JS.VNum 0%float)
    /\ forall k,
         k <> "collaborators" -> k <> "viewBackgroundColor" ->
         k <> "currentItemFontFamily" -> k <> "currentItemRoughness" ->
         JS.assoc k o = JS.assoc k given.
Proof.
  intros given. unfold documentOf, get. fold (prop props "appState").
  fold (prop props "elements"). fold (prop props "files"). fold given.
  set (rest := JS.remove_key "collaborators" given).
  eexists. split; [reflexivity|].
  assert (Hrest : forall k, k <> "collaborators" ->
                            prop rest k = prop given k).
  { intros k Hk. unfold prop, rest. now rewrite assoc_remove_key_other. }
  split; [|split; [|split; [|split]]].
  - rewrite !assoc_set_key_other by discriminate. apply remove_key_assoc.
  - unfold prop at 1. rewrite !assoc_set_key_other by discriminate.
    rewrite assoc_set_key_same. now rewrite Hrest by discriminate.
  - unfold prop at 1. rewrite assoc_set_key_other by discriminate.
    rewrite assoc_set_key_same. now rewrite Hrest by discriminate.
  - unfold prop at 1. rewrite assoc_set_key_same.
    now rewrite Hrest by discriminate.
  - intros k H1 H2 H3 H4. rewrite !assoc_set_key_other by congruence.
    unfold rest. now rewrite assoc_remove_key_other.
Qed.

Section EditorMore.
Variable JSON_parse : string -> option JS.Value.
Variable JSON_stringify : JS.Value -> string.
Variable message : Error -> string.

(** X15.  Selecting a file that cannot be read loads no document, turns
    the spinner off, logs the failure, and shows the error panel with the
    error's message, or with [Failed to read file] when the message is
    empty. *)
Theorem loadFile_read_failure (e : Editor) (f : FileNode) (err : Error) :
  kind f = KFile ->
  readText (handle f) (disk (ctx e)) = Err err ->
  let shown := if JS.truthy_string (message err) then message err
               else "Failed to read file" in
  initialData (selectFile JSON_parse message (Some f) e) = None
  /\ isLoading (selectFile JSON_parse message (Some f) e) = false
  /\ error (selectFile JSON_parse message (Some f) e) = Some shown
  /\ render (selectFile JSON_parse message (Some f) e) = ErrorLoadingFile shown
  /\ console (ctx (selectFile JSON_parse message (Some f) e))
     = console (ctx e) ++ ["Failed to read file"].
Proof.
  intros Hk Hread shown.
  unfold selectFile, loadEffect, resetEffect, loadFile, render, selected,
    readFileContent, ask.
  simpl. rewrite Hk. simpl. rewrite Hread. simpl. fold shown.
  repeat split.
  assert (Ht : JS.truthy_string shown = true)
    by (unfold shown; destruct (JS.truthy_string (message err)) eqn:H; trivial).
  now rewrite Ht.
Qed.

Lemma fire_all_writes (ts : list Timer) (e : Editor) :
  writes (fold_left (fun e t => fire JSON_stringify t e) ts e)
  = writes e
    ++ map (fun t => (handle (target t), serialize JSON_stringify (scene t))) ts
  /\ selected (fold_left (fun e t => fire JSON_stringify t e) ts e) = selected e
  /\ now (fold_left (fun e t => fire JSON_stringify t e) ts e) = now e.
Proof.
  revert e. induction ts as [|t r IH]; intros e; simpl.
  - now rewrite app_nil_r.
  - destruct (IH (fire JSON_stringify t e)) as (A & B & C).
    rewrite A, B, C. split; [|split].
    + unfold fire. simpl. now rewrite <- app_assoc.
    + unfold fire, selected, saveFileContent, act. simpl.
      now destruct (writeText _ _ _).
    + reflexivity.
Qed.

Lemma advance_selected (dt : nat) (e : Editor) :
  selected (advance JSON_stringify dt e) = selected e.
Proof.
  unfold advance.
  match goal with
  | |- selected (fold_left _ ?ts ?e0) = _ =>
      destruct (fire_all_writes ts e0) as (_ & B & _); now rewrite B
  end.
Qed.

Lemma timers_bound_step (ev : Event) (e : Editor) :
  tracked e = true -> List.length (timers e) <= 1 ->
  List.length (timers (step JSON_parse JSON_stringify message ev e)) <= 1.
Proof.
  intros Htr Hlen. destruct ev as [s|sc|dt]; simpl.
  - destruct (selectFile_frame JSON_parse message s e) as (A & _). now rewrite A.
  - destruct (selected e) as [f|] eqn:Hsel.
    + now rewrite (handleChange_arms sc f e Hsel Htr).
    + unfold handleChange. now rewrite Hsel.
  - unfold advance.
    match goal with
    | |- List.length (timers (fold_left _ ?ts ?e0)) <= 1 =>
        destruct (fire_all_frame JSON_stringify ts e0) as (A & _); rewrite A
    end.
    simpl. etransitivity; [apply filter_length_le|exact Hlen].
Qed.

(** X16.  Whatever sequence of selection changes, change events and
    waiting the editor goes through from its initial state, at most one
    save timer is pending. *)
Theorem at_most_one_pending_save (evs : list Event) (w : World) :
  List.length (timers (run JSON_parse JSON_stringify message evs (init w))) <= 1.
Proof.
  assert (H : forall e, tracked e = true -> List.length (timers e) <= 1 ->
                        List.length (timers (run JSON_parse JSON_stringify message
                                          evs e)) <= 1).
  { induction evs as [|ev r IH]; intros e Htr Hlen; [exact Hlen|].
    simpl. apply IH.
    - apply (tracked_run JSON_parse JSON_stringify message [ev] e Htr).
    - now apply timers_bound_step. }
  apply H; [reflexivity|simpl; lia].
Qed.
End EditorMore.


Section EditorMore2.
Variable JSON_parse : string -> option JS.Value.
Variable JSON_stringify : JS.Value -> string.
Variable message : Error -> string.

Lemma run_snoc (evs : list Event) (ev : Event) (e : Editor) :
  run JSON_parse JSON_stringify message (evs ++ [ev]) e
  = step JSON_parse JSON_stringify message ev
      (run JSON_parse JSON_stringify message evs e).
Proof. unfold run. now rewrite fold_left_app. Qed.

Lemma advance_effect (dt : nat) (e : Editor) :
  incl (timers (advance JSON_stringify dt e)) (timers e)
  /\ exists fired,
       incl fired (timers e)
       /\ writes (advance JSON_stringify dt e)
          = writes e
            ++ map (fun t => (handle (target t),
                              serialize JSON_stringify (scene t))) fired.
Proof.
  unfold advance.
  match goal with
  | |- incl (timers (fold_left _ ?ts ?e0)) _ /\ _ =>
      destruct (fire_all_frame JSON_stringify ts e0) as (A & _);
      destruct (fire_all_writes JSON_stringify ts e0) as (B & _);
      rewrite A, B; simpl; split;
      [intros t Ht; apply filter_In in Ht; tauto
      |exists ts; split; [intros t Ht; apply filter_In in Ht; tauto|reflexivity]]
  end.
Qed.

(** X17.  Starting with nothing selected, every [saveFileContent] call
    the editor ever makes writes what [JSON.stringify] prints for the
    object that holds the elements, the appState and the files of a scene
    that a change event reported, to the handle of a file that was
    selected at some point. *)
Theorem writes_come_from_events (evs : list Event) (w : World) :
  selectedFile (state w) = None ->
  forall hw,
    In hw (writes (run JSON_parse JSON_stringify message evs (init w))) ->
    exists f sc,
      In (SelectionChanged (Some f)) evs /\ In (Changed sc) evs
      /\ hw = (handle f,
               JSON_stringify
                 (JS.VObj [("elements", elements sc);
                           ("appState", appState sc); ("files", files sc)])).
Proof.
  intros Hnone.
  set (from := fun (evs : list Event) (t : Handle * string) =>
                 exists f sc,
                   In (SelectionChanged (Some f)) evs /\ In (Changed sc) evs
                   /\ t = (handle f, serialize JSON_stringify sc)).
  assert (Hinv : let e := run JSON_parse JSON_stringify message evs (init w) in
                 (forall f, selected e = Some f ->
                            In (SelectionChanged (Some f)) evs)
                 /\ (forall t, In t (timers e) ->
                       from evs (handle (target t),
                                 serialize JSON_stringify (scene t)))
                 /\ (forall hw, In hw (writes e) -> from evs hw));
    [|intros hw Hhw; now apply Hinv].
  induction evs as [|ev evs IH] using rev_ind.
  - simpl. split; [|split].
    + unfold selected. simpl. rewrite Hnone. discriminate.
    + intros t [].
    + intros hw [].
  - rewrite run_snoc. cbv zeta in IH |- *.
    pose proof (tracked_run JSON_parse JSON_stringify message evs (init w)
                  eq_refl) as Htr.
    set (e := run JSON_parse JSON_stringify message evs (init w)) in *.
    destruct IH as (Isel & Itim & Iwr).
    assert (Hmono : forall t, from evs t -> from (evs ++ [ev]) t).
    { intros t (f & sc & H1 & H2 & H3). exists f, sc.
      repeat split; trivial; apply in_or_app; now left. }
    destruct ev as [s|sc|dt]; simpl.
    + destruct (selectFile_frame JSON_parse message s e)
        as (A & _ & _ & _ & B & C & _).
      rewrite A, B, C. split; [|split].
      * intros f ->. apply in_or_app. right. now left.
      * intros t Ht. now apply Hmono, Itim.
      * intros hw Hhw. now apply Hmono, Iwr.
    + destruct (selected e) as [f|] eqn:Hsel.
      * rewrite (handleChange_arms sc f e Hsel Htr). unfold selected. simpl.
        fold (selected e). rewrite Hsel. split; [|split].
        -- intros f' [= <-]. apply in_or_app. left. now apply Isel.
        -- intros t [<-|[]]. simpl. exists f, sc. repeat split.
           ++ apply in_or_app. left. now apply Isel.
           ++ apply in_or_app. right. now left.
        -- intros hw Hhw. now apply Hmono, Iwr.
      * unfold handleChange. rewrite Hsel. split; [|split].
        -- rewrite Hsel. discriminate.
        -- intros t Ht. now apply Hmono, Itim.
        -- intros hw Hhw. now apply Hmono, Iwr.
    + rewrite advance_selected.
      destruct (advance_effect dt e) as (Hsub & fired & Hfired & ->).
      split; [|split].
      * intros f Hf. apply in_or_app. left. now apply Isel.
      * intros t Ht. now apply Hmono, Itim, Hsub.
      * intros hw Hhw. apply in_app_or in Hhw. destruct Hhw as [Hhw|Hhw].
        -- now apply Hmono, Iwr.
        -- apply in_map_iff in Hhw. destruct Hhw as (t & <- & Ht).
           now apply Hmono, Itim, Hfired.
Qed.

(** X18.  While a file stays selected, change events that are each
    followed by a quiet period of at least the delay are all saved, one
    write each, in order: each write is what [JSON.stringify] prints for
    the object that holds the elements, the appState and the files of its
    change event. *)
Theorem settled_changes_are_all_saved (e : Editor) (f : FileNode)
    (changes : list (InitialData * nat)) :
  selected e = Some f ->
  tracked e = true ->
  Forall (fun c => DELAY <= snd c) changes ->
  writes (run JSON_parse JSON_stringify message
            (flat_map (fun c => [Changed (fst c); Elapsed (snd c)]) changes) e)
  = writes e
    ++ map (fun c =>
              (handle f,
               JSON_stringify
                 (JS.VObj [("elements", elements (fst c));
                           ("appState", appState (fst c));
                           ("files", files (fst c))]))) changes.
Proof.
  intros Hsel Htr Hq.
  change (fun c : InitialData * nat =>
            (handle f,
             JSON_stringify
               (JS.VObj [("elements", elements (fst c));
                         ("appState", appState (fst c));
                         ("files", files (fst c))])))
    with (fun c : InitialData * nat =>
            (handle f, serialize JSON_stringify (fst c))).
  revert e Hsel Htr.
  induction Hq as [|[sc q] r Hc Hr IH]; intros e Hsel Htr; simpl.
  - now rewrite app_nil_r.
  - simpl in Hc.
    pose proof (pending_first f sc e Hsel Htr) as Hp.
    destruct (pending_settles JSON_stringify f sc e _ q Hp Hc) as (Hw & _ & _).
    fold (run JSON_parse JSON_stringify message
            (flat_map (fun c => [Changed (fst c); Elapsed (snd c)]) r)
            (advance JSON_stringify q (handleChange sc e))).
    rewrite IH.
    + rewrite Hw, <- app_assoc. reflexivity.
    + rewrite advance_selected.
      destruct Hp as (i & _ & _ & _ & _ & Hs & _). exact Hs.
    + apply tracked_advance. now apply tracked_handleChange.
Qed.

(** X19.  When the pending save fires and the write fails, the failure
    is logged and dropped: the disk is unchanged, no timer is left (the
    save is not retried), and the editor shows what it showed before. *)
Theorem save_failure_is_swallowed (e : Editor) (i due0 : nat)
    (sc : InitialData) (f : FileNode) (dt : nat) (err : Error) :
  timers e = [mkTimer i due0 sc f] ->
  due0 <= now e + dt ->
  writeText (handle f)
    (JSON_stringify
       (JS.VObj [("elements", elements sc); ("appState", appState sc);
                 ("files", files sc)]))
    (disk (ctx e)) = Err err ->
  disk (ctx (advance JSON_stringify dt e)) = disk (ctx e)
  /\ console (ctx (advance JSON_stringify dt e))
     = console (ctx e) ++ ["Failed to save"]
  /\ timers (advance JSON_stringify dt e) = []
  /\ error (advance JSON_stringify dt e) = error e
  /\ initialData (advance JSON_stringify dt e) = initialData e
  /\ render (advance JSON_stringify dt e) = render e.
Proof.
  intros Ht Hdue Hw. rewrite (advance_fires JSON_stringify i due0 sc f e dt Ht Hdue).
  unfold fire, saveFileContent, act, render, selected, serialize. simpl.
  rewrite Hw. simpl.
  repeat split.
Qed.

End EditorMore2.

(** ** More about strings *)

Lemma append_empty_r (s : string) : (s ++ EmptyString)%string = s.
Proof. induction s as [|c s IH]; simpl; [reflexivity|now rewrite IH]. Qed.

Lemma prefix_split (t : string) :
  forall p q,
    String.prefix p (t ++ q) = true ->
    String.length t < String.length p ->
    exists p2, p = (t ++ p2)%string /\ String.prefix p2 q = true.
Proof.
  induction t as [|c t IH]; intros p q Hp Hlen; simpl in *.
  - now exists p.
  - destruct p as [|a p]; simpl in *; [lia|].
    destruct (ascii_dec a c) as [->|]; [|discriminate].
    destruct (IH p q Hp) as (p2 & -> & H2); [lia|]. now exists p2.
Qed.

Lemma prefix_within (p : string) :
  forall t q,
    String.prefix p (t ++ q) = true ->
    String.length p <= String.length t ->
    String.prefix p t = true.
Proof.
  induction p as [|a p IH]; intros t q Hp Hlen; [now destruct t|].
  destruct t as [|c t]; simpl in *; [lia|].
  destruct (ascii_dec a c); [|discriminate]. apply (IH t q Hp). lia.
Qed.

Lemma contains_slash_app (a b : string) :
  contains_slash (a ++ b) = contains_slash a || contains_slash b.
Proof.
  induction a as [|c a IH]; simpl; [reflexivity|].
  now rewrite IH, orb_assoc.
Qed.

Lemma EXT_not_inside (t p2 : string) :
  t <> EmptyString -> EXT <> (t ++ String "." p2)%string.
Proof.
  intros Ht Heq. destruct t as [|c t]; [contradiction|].
  unfold EXT in Heq. simpl in Heq. injection Heq as _ Heq.
  assert (Hdot : forall s, s = (t ++ String "." p2)%string ->
                           JS.includes "." s = true).
  { intros s ->. clear. induction t as [|c t IH]; simpl; [now destruct p2|].
    rewrite IH. apply orb_true_r. }
  specialize (Hdot _ Heq). vm_compute in Hdot. discriminate.
Qed.

Lemma removeFirst_suffix (stem : string) :
  JS.includes EXT stem = false ->
  JS.removeFirst EXT (stem ++ EXT) = stem.
Proof.
  induction stem as [|c t IH]; intros Hno; [reflexivity|].
  assert (Hinc : String.prefix EXT (String c t) = false
                 /\ JS.includes EXT t = false).
  { simpl in Hno. apply orb_false_iff in Hno. exact Hno. }
  destruct Hinc as [Hpre Htail].
  assert (Hnp : String.prefix EXT (String c t ++ EXT) = false).
  { destruct (String.prefix EXT (String c t ++ EXT)) eqn:Hp; [|reflexivity].
    destruct (Nat.le_gt_cases (String.length EXT) (String.length (String c t)))
      as [Hle|Hlt].
    - rewrite (prefix_within _ _ _ Hp Hle) in Hpre. discriminate.
    - destruct (prefix_split _ _ _ Hp Hlt) as (p2 & Heq & Hp2).
      destruct p2 as [|a p2].
      + exfalso.
        assert (Hl : String.length EXT = String.length (String c t))
          by (rewrite Heq at 1; now rewrite append_empty_r).
        lia.
      + unfold EXT in Hp2 at 1. simpl in Hp2.
        destruct (ascii_dec a ".") as [->|]; [|discriminate].
        exfalso. apply (EXT_not_inside (String c t) p2); [discriminate|exact Heq]. }
  change (JS.removeFirst EXT (String c t ++ EXT))
    with (if String.prefix EXT (String c t ++ EXT)
          then JS.skip (String.length EXT) (String c t ++ EXT)
          else String c (JS.removeFirst EXT (t ++ EXT))).
  rewrite Hnp. now rewrite IH.
Qed.

Lemma removeFirst_absent (p s : string) :
  JS.includes p s = false -> JS.removeFirst p s = s.
Proof.
  induction s as [|c s IH]; intros Hno.
  - simpl in *. destruct p; [discriminate|reflexivity].
  - assert (H : String.prefix p (String c s) = false /\ JS.includes p s = false).
    { simpl in Hno. apply orb_false_iff in Hno. exact Hno. }
    destruct H as [Hp Hs].
    change (JS.removeFirst p (String c s))
      with (if String.prefix p (String c s)
            then JS.skip (String.length p) (String c s)
            else String c (JS.removeFirst p s)).
    rewrite Hp. now rewrite IH.
Qed.

(** ** More about the explorer *)

(** X21.  A row shows the name of its node without the [.excalidraw]
    suffix when the stem does not contain [.excalidraw] itself, and shows
    a name that does not contain it unchanged. *)
Theorem displayName_drops_suffix (n : FileNode) :
  (forall stem,
      name n = (stem ++ EXT)%string -> JS.includes EXT stem = false ->
      displayName n = stem)
  /\ (JS.includes EXT (name n) = false -> displayName n = name n).
Proof.
  unfold displayName. split.
  - intros stem -> Hno. now apply removeFirst_suffix.
  - apply removeFirst_absent.
Qed.

Lemma removeEntry_nonempty (parent : Handle) (nm : string) (d : Entry)
    (cs : list (string * Entry)) (x : string * Entry)
    (xs : list (string * Entry)) :
  valid_name nm = true ->
  lookup (hpath parent) d = Some (EDir cs) ->
  JS.assoc nm cs = Some (EDir (x :: xs)) ->
  removeEntry parent nm false d = Err InvalidModificationError.
Proof.
  intros Hv Hl Hc. unfold removeEntry. rewrite Hv. simpl.
  pose proof (alter_lookup (hpath parent)
                (on_children (remove_child nm false)) _ _ Hl) as Ha.
  unfold on_children at 1, remove_child at 1 in Ha. now rewrite Hc in Ha.
Qed.

Section ExplorerMore.
Variable localeCompare : string -> string -> Z.
Variable moveFile : Handle -> Handle -> string -> M unit.

(** X22.  Confirming the deletion of a folder that is not empty shows
    the alert [Failed to delete] and changes neither the disk nor the
    provider's state; declining the confirmation does nothing. *)
Theorem delete_of_full_folder_alerts (n : FileNode) (parent : Handle) (u : UI)
    (cs : list (string * Entry)) (x : string * Entry)
    (xs : list (string * Entry)) :
  valid_name (name n) = true ->
  lookup (hpath parent) (disk (world u)) = Some (EDir cs) ->
  JS.assoc (name n) cs = Some (EDir (x :: xs)) ->
  alerts (handleDelete localeCompare n parent true u)
  = alerts u ++ ["Failed to delete"]
  /\ disk (world (handleDelete localeCompare n parent true u)) = disk (world u)
  /\ state (world (handleDelete localeCompare n parent true u))
     = state (world u)
  /\ handleDelete localeCompare n parent false u = u.
Proof.
  intros Hv Hl Hc.
  pose proof (removeEntry_nonempty parent (name n) _ cs x xs Hv Hl Hc) as Hrm.
  unfold handleDelete, run_or_alert.
  rewrite (deleteEntry_rejected localeCompare _ _ _ _ Hrm). simpl.
  repeat split.
Qed.

Lemma gesture_drag (g : Gesture) (u : UI) :
  dragState (gesture localeCompare moveFile g u) = dragState u
  \/ dragState (gesture localeCompare moveFile g u) = None
  \/ exists n p, kind n = KFile
                 /\ dragState (gesture localeCompare moveFile g u)
                    = Some (mkDrag n p).
Proof.
  destruct g as [n p|n|n|n| |n|n p c]; cbn [gesture].
  - unfold onDragStart. destruct (kind n) eqn:Hk; [|now left].
    right. right. now exists n, p.
  - left. unfold onDragOver. destruct (kind n); [reflexivity|].
    destruct (dragState u) eqn:Hd; simpl; now rewrite Hd.
  - now left.
  - unfold onDrop. cbv zeta.
    replace (dragState (setIsDragOver_false n u)) with (dragState u)
      by reflexivity.
    destruct (kind n); [now left|].
    destruct (dragState u) as [d0|] eqn:Hd; [|left; simpl; now rewrite Hd].
    destruct (isSameEntry (parentHandle d0) (handle n));
      [left; simpl; now rewrite Hd|].
    right. now left.
  - unfold handleRootDrop.
    destruct (dragState u) as [d0|] eqn:Hd; [|left; now rewrite Hd].
    destruct (rootHandle (state (world u))); [|left; now rewrite Hd].
    destruct (isSameEntry (parentHandle d0) h); right; now left.
  - right. now left.
  - left. unfold handleDelete. destruct c; [|reflexivity].
    unfold run_or_alert.
    now destruct (deleteEntry localeCompare p (name n) (world u)) as [[[]|e] w'].
Qed.

Lemma gesture_keeps_files (g : Gesture) (u : UI) :
  (forall d, dragState u = Some d -> kind (node d) = KFile) ->
  forall d, dragState (gesture localeCompare moveFile g u) = Some d ->
            kind (node d) = KFile.
Proof.
  intros Hu d Hd.
  destruct (gesture_drag g u) as [H|[H|(n & p & Hk & H)]]; rewrite H in Hd.
  - now apply Hu.
  - discriminate.
  - now injection Hd as <-.
Qed.

(** X23.  Whatever the user does with the mouse, the node of a drag in
    progress is a file: directories cannot be dragged. *)
Theorem only_files_are_dragged (gs : list Gesture) (u : UI) (d : DragState) :
  dragState u = None ->
  dragState (gestures localeCompare moveFile gs u) = Some d ->
  kind (node d) = KFile.
Proof.
  intros Hnone.
  assert (H : forall u,
             (forall d, dragState u = Some d -> kind (node d) = KFile) ->
             forall d, dragState (gestures localeCompare moveFile gs u) = Some d ->
                       kind (node d) = KFile).
  { induction gs as [|g r IH]; intros u0 Hu0; [exact Hu0|].
    simpl. apply IH. now apply gesture_keeps_files. }
  apply H. intros d0. rewrite Hnone. discriminate.
Qed.

(** X24.  Submitting a name that contains a slash in the inline input
    creates nothing and shows no alert: the error is logged to the console
    once, the disk and the provider's state stay as they were, and the
    input is closed. *)
Theorem inline_submit_swallows_bad_name (a : InlineAdd) (nm : string) (u : UI) :
  contains_slash nm = true ->
  snd (handleInlineSubmit localeCompare (Some a) nm u) = None
  /\ alerts (fst (handleInlineSubmit localeCompare (Some a) nm u)) = alerts u
  /\ disk (world (fst (handleInlineSubmit localeCompare (Some a) nm u)))
     = disk (world u)
  /\ state (world (fst (handleInlineSubmit localeCompare (Some a) nm u)))
     = state (world u)
  /\ List.length (console (world (fst (handleInlineSubmit localeCompare
                                        (Some a) nm u))))
     = S (List.length (console (world u))).
Proof.
  intros Hs.
  assert (Hbad : valid_name nm = false).
  { unfold valid_name. rewrite Hs. simpl. now rewrite !andb_false_r. }
  assert (Hbad' : valid_name (fileNameOf nm) = false).
  { unfold valid_name, fileNameOf.
    destruct (JS.endsWith nm EXT); [now rewrite Hs, !andb_false_r|].
    rewrite contains_slash_app, Hs. simpl. now rewrite !andb_false_r. }
  unfold handleInlineSubmit. split; [reflexivity|]. cbn [fst alerts world].
  destruct (addType a).
  - pose proof (createFile_steps localeCompare (addParent a) nm (world u)) as H.
    cbv zeta in H. fold (fileNameOf nm) in H.
    unfold getFileHandle in H. rewrite Hbad' in H. simpl in H. rewrite H.
    simpl. rewrite length_app. simpl. repeat split. lia.
  - pose proof (createFolder_steps localeCompare (addParent a) nm (world u)) as H.
    unfold getDirectoryHandle in H. rewrite Hbad in H. simpl in H. rewrite H.
    simpl. rewrite length_app. simpl. repeat split. lia.
Qed.
End ExplorerMore.

(** ** Opening and restoring a directory *)

Section SessionFacts.
Import Session.
Variable localeCompare : string -> string -> Z.

Lemma scanDirectory_found (h : Handle) (path : string) (w : World)
    (cs : list (string * Entry)) :
  lookup (hpath h) (disk w) = Some (EDir cs) ->
  scanDirectory localeCompare h path w
  = (Ok (scanDir localeCompare (hpath h) path (EDir cs)), w).
Proof. intros Hl. unfold scanDirectory, entries, ask. now rewrite Hl. Qed.

Lemma scanDirectory_lost (h : Handle) (path : string) (w : World) :
  (forall cs, lookup (hpath h) (disk w) <> Some (EDir cs)) ->
  scanDirectory localeCompare h path w = (Err NotFoundError, w).
Proof.
  intros Hl. unfold scanDirectory, entries, ask.
  destruct (lookup (hpath h) (disk w)) as [[c|cs]|]; trivial.
  now destruct (Hl cs).
Qed.

(** X25.  After [openDirectory] on a directory that resolves, the handle
    is stored, the selection is empty and the tree is the directory's scan;
    after a reload of the page, [restoreDirectory] with the permission
    still granted brings back the same root and tree without asking. *)
Theorem open_then_restore (h : Handle) (s : Session.Session)
    (cs : list (string * Entry)) (request : Result Permission) :
  lookup (hpath h) (disk (world s)) = Some (EDir cs) ->
  let opened := openDirectory localeCompare (Ok h) s in
  let restored :=
    restoreDirectory localeCompare (Ok Granted) request (reload opened) in
  stored opened = Some h
  /\ state (world opened)
     = mkState (Some h) (scanDir localeCompare (hpath h) EmptyString (EDir cs))
         None
  /\ state (world restored) = state (world opened)
  /\ stored restored = Some h
  /\ console (world restored) = [].
Proof.
  intros Hl opened restored.
  assert (Ho : opened
               = mkSession
                   (mkWorld (disk (world s))
                      (mkState (Some h)
                         (scanDir localeCompare (hpath h) EmptyString (EDir cs))
                         None)
                      (console (world s)))
                   (Some h)).
  { unfold opened, openDirectory.
    now rewrite (scanDirectory_found h _ _ cs) by exact Hl. }
  assert (Hr : restored
               = mkSession
                   (mkWorld (disk (world s))
                      (mkState (Some h)
                         (scanDir localeCompare (hpath h) EmptyString (EDir cs))
                         None)
                      [])
                   (Some h)).
  { unfold restored. rewrite Ho. unfold restoreDirectory, reload, adopt.
    cbn [stored world].
    now rewrite (scanDirectory_found h _ _ cs) by exact Hl. }
  rewrite Hr, Ho. now repeat split.
Qed.

(** X26.  An [openDirectory] that does not complete keeps the stored
    handle, the tree and the selection.  A dismissed picker changes
    nothing at all; any other picker error is logged; and when the scan
    of the picked directory fails, the root has already been replaced. *)
Theorem open_that_fails (picked : Result Handle) (s : Session.Session) :
  match picked with
  | Ok h => forall cs, lookup (hpath h) (disk (world s)) <> Some (EDir cs)
  | Err _ => True
  end ->
  stored (openDirectory localeCompare picked s) = stored s
  /\ fileTree (state (world (openDirectory localeCompare picked s)))
     = fileTree (state (world s))
  /\ selectedFile (state (world (openDirectory localeCompare picked s)))
     = selectedFile (state (world s))
  /\ disk (world (openDirectory localeCompare picked s)) = disk (world s)
  /\ match picked with
     | Ok h =>
         rootHandle (state (world (openDirectory localeCompare picked s)))
         = Some h
         /\ console (world (openDirectory localeCompare picked s))
            = console (world s) ++ ["Error opening directory:"]
     | Err AbortError => openDirectory localeCompare picked s = s
     | Err _ =>
         rootHandle (state (world (openDirectory localeCompare picked s)))
         = rootHandle (state (world s))
         /\ console (world (openDirectory localeCompare picked s))
            = console (world s) ++ ["Error opening directory:"]
     end.
Proof.
  destruct picked as [h|e]; intros Hl; unfold openDirectory.
  - rewrite scanDirectory_lost by exact Hl. simpl. now repeat split.
  - destruct e; simpl; repeat split; now destruct s.
Qed.

(** X27.  [restoreDirectory] adopts the stored handle only when the
    permission is granted, by the query or by the request; it does not
    look at the request's answer when the query already grants; and with
    nothing stored it changes nothing. *)
Theorem restore_needs_permission (query request : Result Permission)
    (s : Session.Session) :
  (query <> Ok Granted -> request <> Ok Granted ->
   state (world (restoreDirectory localeCompare query request s))
   = state (world s)
   /\ stored (restoreDirectory localeCompare query request s) = stored s)
  /\ (forall request',
         restoreDirectory localeCompare (Ok Granted) request s
         = restoreDirectory localeCompare (Ok Granted) request' s)
  /\ (stored s = None ->
      restoreDirectory localeCompare query request s = s).
Proof.
  unfold restoreDirectory. split; [|split].
  - intros Hq Hr. destruct (stored s) as [h|] eqn:Hs; [|now split].
    destruct query as [[]|]; try (now destruct (Hq eq_refl)); simpl;
      try (now split);
      destruct request as [[]|]; try (now destruct (Hr eq_refl)); simpl;
      now split.
  - intros r'. now destruct (stored s).
  - now intros ->.
Qed.
End SessionFacts.

(** ** The further properties on the sample inputs *)

Lemma byteCompare_antisym (a b : string) :
  (Samples.byteCompare a b <= 0)%Z -> (Samples.byteCompare b a <= 0)%Z -> a = b.
Proof.
  unfold Samples.byteCompare. rewrite (String.compare_antisym b a).
  destruct (String.compare a b) eqn:Hab; simpl; try lia.
  intros _ _. now apply String.compare_eq_iff.
Qed.

Lemma node_ids_follow_tree_witness :
  In (Samples.zdirNode, Samples.subNode) (edges Samples.tree0)
  /\ id Samples.subNode = joinPath (id Samples.zdirNode) (name Samples.subNode)
  /\ hpath (handle Samples.subNode)
     = hpath (handle Samples.zdirNode) ++ [name Samples.subNode].
Proof.
  assert (H : In (Samples.zdirNode, Samples.subNode) (edges Samples.tree0))
    by (vm_compute; tauto).
  split; [exact H|].
  exact (proj2 (node_ids_follow_tree Samples.byteCompare Samples.disk0 []
                  EmptyString) Samples.zdirNode Samples.subNode H).
Defined.

Lemma node_shape_follows_kind_witness :
  In Samples.zdirNode (all_nodes Samples.tree0)
  /\ hkind (handle Samples.zdirNode) = kind Samples.zdirNode
  /\ (children Samples.zdirNode = None <-> kind Samples.zdirNode = KFile).
Proof.
  assert (H : In Samples.zdirNode (all_nodes Samples.tree0))
    by (vm_compute; tauto).
  split; [exact H|].
  exact (node_shape_follows_kind Samples.byteCompare Samples.disk0 []
           EmptyString Samples.zdirNode H).
Defined.

Lemma children_are_rescans_witness :
  uniqueNames Samples.disk0 = true
  /\ In Samples.zdirNode (all_nodes Samples.tree0)
  /\ exists rel x,
       hpath (handle Samples.zdirNode) = [] ++ rel
       /\ lookup rel Samples.disk0 = Some x
       /\ kindOf x = kind Samples.zdirNode
       /\ (kind Samples.zdirNode = KDirectory ->
           children Samples.zdirNode
           = Some (scanDir Samples.byteCompare ([] ++ rel)
                     (id Samples.zdirNode) x)).
Proof.
  assert (Hu : uniqueNames Samples.disk0 = true) by reflexivity.
  assert (H : In Samples.zdirNode (all_nodes Samples.tree0))
    by (vm_compute; tauto).
  repeat (split; [assumption|]).
  exact (children_are_rescans Samples.byteCompare byteCompare_total
           byteCompare_trans Samples.disk0 Hu [] EmptyString Samples.zdirNode H).
Defined.

Lemma scan_order_independent_witness :
  NoDup (map fst Samples.entries0)
  /\ Permutation Samples.entries0 (rev Samples.entries0)
  /\ scanDir Samples.byteCompare [] EmptyString (EDir Samples.entries0)
     = scanDir Samples.byteCompare [] EmptyString (EDir (rev Samples.entries0)).
Proof.
  assert (Hnd : NoDup (map fst Samples.entries0)).
  { repeat (constructor; [simpl; intuition discriminate|]). constructor. }
  assert (Hp : Permutation Samples.entries0 (rev Samples.entries0))
    by apply Permutation_rev.
  repeat (split; [assumption|]).
  exact (scan_order_independent Samples.byteCompare byteCompare_total
           byteCompare_trans byteCompare_antisym [] EmptyString
           Samples.entries0 (rev Samples.entries0) Hnd Hp).
Defined.

Lemma sibling_keys_distinct_witness :
  uniqueNames Samples.disk0 = true
  /\ In Samples.tree0 (sibling_lists Samples.tree0)
  /\ NoDup (map name Samples.tree0)
  /\ NoDup (map id Samples.tree0).
Proof.
  assert (Hu : uniqueNames Samples.disk0 = true) by reflexivity.
  assert (H : In Samples.tree0 (sibling_lists Samples.tree0))
    by (left; reflexivity).
  repeat (split; [assumption|]).
  exact (sibling_keys_distinct Samples.byteCompare Samples.disk0 [] EmptyString
           Samples.tree0 Hu H).
Defined.

Lemma mutations_keep_names_unique_witness :
  uniqueNames (disk Samples.world0) = true
  /\ uniqueNames
       (disk (snd (perform Samples.byteCompare
                     (CreateFolder Samples.root "new") Samples.world0))) = true.
Proof.
  assert (Hu : uniqueNames (disk Samples.world0) = true) by reflexivity.
  split; [exact Hu|].
  exact (mutations_keep_names_unique Samples.byteCompare
           (CreateFolder Samples.root "new") Samples.world0 Hu).
Defined.

Lemma mutation_leaves_fresh_tree_witness :
  (forall h c, CreateFile Samples.root "new" <> SaveFile h c)
  /\ rootHandle (state Samples.world0) = Some Samples.root
  /\ fst (perform Samples.byteCompare (CreateFile Samples.root "new")
            Samples.world0) = Ok tt
  /\ exists cs,
       lookup (hpath Samples.root)
         (disk (snd (perform Samples.byteCompare
                       (CreateFile Samples.root "new") Samples.world0)))
       = Some (EDir cs)
       /\ fileTree (state (snd (perform Samples.byteCompare
                                  (CreateFile Samples.root "new")
                                  Samples.world0)))
          = scanDir Samples.byteCompare (hpath Samples.root) EmptyString
              (EDir cs).
Proof.
  assert (Hm : forall h c, CreateFile Samples.root "new" <> SaveFile h c)
    by discriminate.
  assert (Hr : rootHandle (state Samples.world0) = Some Samples.root)
    by reflexivity.
  assert (Hok : fst (perform Samples.byteCompare (CreateFile Samples.root "new")
                       Samples.world0) = Ok tt) by (vm_compute; reflexivity).
  repeat (split; [assumption|]).
  exact (mutation_leaves_fresh_tree Samples.byteCompare
           (CreateFile Samples.root "new") Samples.world0 Samples.root
           Hm Hr Hok).
Defined.

Lemma create_delete_round_trip_witness :
  lookup (hpath Samples.root) (disk Samples.world0) = Some (EDir Samples.entries0)
  /\ valid_name "new" = true
  /\ JS.assoc "new" Samples.entries0 = None
  /\ disk (snd (perform Samples.byteCompare (DeleteEntry Samples.root "new")
                  (snd (perform Samples.byteCompare
                          (CreateFolder Samples.root "new") Samples.world0))))
     = disk Samples.world0.
Proof.
  assert (Hl : lookup (hpath Samples.root) (disk Samples.world0)
               = Some (EDir Samples.entries0)) by reflexivity.
  assert (Hv : valid_name "new" = true) by reflexivity.
  assert (Hc : JS.assoc "new" Samples.entries0 = None) by reflexivity.
  repeat (split; [assumption|]).
  exact (proj1 (create_delete_round_trip Samples.byteCompare Samples.root "new"
                  Samples.world0 Samples.entries0 Hl) Hv Hc).
Defined.


Lemma createFile_shows_node_witness :
  rootHandle (state Samples.world0) = Some Samples.root
  /\ lookup (hpath Samples.root) (disk Samples.world0)
     = Some (EDir Samples.entries0)
  /\ NoDup (map fst Samples.entries0)
  /\ valid_name (fileNameOf "sketch") = true
  /\ JS.assoc (fileNameOf "sketch") Samples.entries0 = None
  /\ JS.startsWith (fileNameOf "sketch") "." = false
  /\ In (mkNode "sketch.excalidraw" "sketch.excalidraw" KFile
           (child Samples.root "sketch.excalidraw" KFile) None)
        (fileTree (state (snd (createFile Samples.byteCompare Samples.root
                                 "sketch" Samples.world0)))).
Proof.
  assert (Hr : rootHandle (state Samples.world0) = Some Samples.root)
    by reflexivity.
  assert (Hl : lookup (hpath Samples.root) (disk Samples.world0)
               = Some (EDir Samples.entries0)) by reflexivity.
  assert (Hnd : NoDup (map fst Samples.entries0)).
  { repeat (constructor; [simpl; intuition discriminate|]). constructor. }
  assert (Hv : valid_name (fileNameOf "sketch") = true) by reflexivity.
  assert (Hc : JS.assoc (fileNameOf "sketch") Samples.entries0 = None)
    by reflexivity.
  assert (Hd : JS.startsWith (fileNameOf "sketch") "." = false) by reflexivity.
  repeat (split; [assumption|]).
  exact (proj1 (proj2 (proj2
           (createFile_shows_node Samples.byteCompare Samples.root "sketch"
              Samples.world0 Samples.entries0 Hr Hl Hnd Hv Hc Hd)))).
Defined.

Lemma loadFile_read_failure_witness :
  kind Samples.fileGone = KFile
  /\ readText (handle Samples.fileGone) (disk (ctx (init Samples.world0)))
     = Err NotFoundError
  /\ render (selectFile Samples.parse0 Samples.message0 (Some Samples.fileGone)
              (init Samples.world0))
     = ErrorLoadingFile "A requested file or directory could not be found.".
Proof.
  assert (Hk : kind Samples.fileGone = KFile) by reflexivity.
  assert (Hr : readText (handle Samples.fileGone)
                 (disk (ctx (init Samples.world0))) = Err NotFoundError)
    by reflexivity.
  repeat (split; [assumption|]).
  exact (proj1 (proj2 (proj2 (proj2
           (loadFile_read_failure Samples.parse0 Samples.message0
              (init Samples.world0) Samples.fileGone NotFoundError Hk Hr))))).
Defined.

Lemma writes_come_from_events_witness :
  selectedFile (state Samples.world0) = None
  /\ In (handle Samples.fileA, "{ elements: 1 }")
        (writes (run Samples.parse0 Samples.stringify0 Samples.message0
                   [SelectionChanged (Some Samples.fileA);
                    Changed Samples.scene1; Elapsed 1000]
                   (init Samples.world0)))
  /\ exists f sc,
       In (SelectionChanged (Some f))
          [SelectionChanged (Some Samples.fileA); Changed Samples.scene1;
           Elapsed 1000]
       /\ In (Changed sc)
             [SelectionChanged (Some Samples.fileA); Changed Samples.scene1;
              Elapsed 1000]
       /\ (handle Samples.fileA, "{ elements: 1 }")
          = (handle f,
             Samples.stringify0
               (JS.VObj [("elements", elements sc);
                         ("appState", appState sc); ("files", files sc)])).
Proof.
  assert (Hn : selectedFile (state Samples.world0) = None) by reflexivity.
  assert (Hw : In (handle Samples.fileA, "{ elements: 1 }")
                 (writes (run Samples.parse0 Samples.stringify0 Samples.message0
                            [SelectionChanged (Some Samples.fileA);
                             Changed Samples.scene1; Elapsed 1000]
                            (init Samples.world0))))
    by (vm_compute; tauto).
  repeat (split; [assumption|]).
  exact (writes_come_from_events Samples.parse0 Samples.stringify0
           Samples.message0 _ Samples.world0 Hn _ Hw).
Defined.

Lemma settled_changes_are_all_saved_witness :
  selected Samples.editorA = Some Samples.fileA
  /\ tracked Samples.editorA = true
  /\ Forall (fun c => DELAY <= snd c)
       [(Samples.scene1, 1000); (Samples.scene4, 1500)]
  /\ writes (run Samples.parse0 Samples.stringifyAll Samples.message0
              [Changed Samples.scene1; Elapsed 1000;
               Changed Samples.scene4; Elapsed 1500]
              Samples.editorA)
     = writes Samples.editorA
       ++ [(handle Samples.fileA, "{ elements: 1, appState: 0, files: 0 }");
           (handle Samples.fileA, "{ elements: 2, appState: 1, files: 1 }")].
Proof.
  assert (Hs : selected Samples.editorA = Some Samples.fileA) by reflexivity.
  assert (Ht : tracked Samples.editorA = true) by reflexivity.
  assert (Hq : Forall (fun c => DELAY <= snd c)
                 [(Samples.scene1, 1000); (Samples.scene4, 1500)]).
  { unfold DELAY. repeat constructor; simpl; lia. }
  repeat (split; [assumption|]).
  exact (settled_changes_are_all_saved Samples.parse0 Samples.stringifyAll
           Samples.message0 Samples.editorA Samples.fileA
           [(Samples.scene1, 1000); (Samples.scene4, 1500)] Hs Ht Hq).
Defined.

Lemma save_failure_is_swallowed_witness :
  timers Samples.editorGone
  = [mkTimer 1 1000 Samples.scene1 Samples.fileGone]
  /\ 1000 <= now Samples.editorGone + 1000
  /\ writeText (handle Samples.fileGone) "{ elements: 1 }"
       (disk (ctx Samples.editorGone)) = Err NotFoundError
  /\ disk (ctx (advance Samples.stringify0 1000 Samples.editorGone))
     = disk (ctx Samples.editorGone)
  /\ console (ctx (advance Samples.stringify0 1000 Samples.editorGone))
     = console (ctx Samples.editorGone) ++ ["Failed to save"]
  /\ timers (advance Samples.stringify0 1000 Samples.editorGone) = [].
Proof.
  assert (Ht : timers Samples.editorGone
               = [mkTimer 1 1000 Samples.scene1 Samples.fileGone])
    by reflexivity.
  assert (Hd : 1000 <= now Samples.editorGone + 1000)
    by (change (now Samples.editorGone) with 0; lia).
  assert (Hw : writeText (handle Samples.fileGone) "{ elements: 1 }"
                 (disk (ctx Samples.editorGone)) = Err NotFoundError)
    by reflexivity.
  repeat (split; [assumption|]).
  destruct (save_failure_is_swallowed Samples.stringify0 Samples.editorGone
              1 1000 Samples.scene1 Samples.fileGone 1000 NotFoundError
              Ht Hd Hw) as (H1 & H2 & H3 & _).
  split; [exact H1|]. split; [exact H2|exact H3].
Defined.


Lemma displayName_drops_suffix_witness :
  name Samples.fileB = ("b" ++ EXT)%string
  /\ JS.includes EXT "b" = false
  /\ displayName Samples.fileB = "b".
Proof.
  assert (Hn : name Samples.fileB = ("b" ++ EXT)%string) by reflexivity.
  assert (Hi : JS.includes EXT "b" = false) by reflexivity.
  repeat (split; [assumption|]).
  exact (proj1 (displayName_drops_suffix Samples.fileB) "b" Hn Hi).
Defined.

Lemma delete_of_full_folder_alerts_witness :
  valid_name (name Samples.zdirNode) = true
  /\ lookup (hpath Samples.root) (disk (world Samples.idle))
     = Some (EDir Samples.entries0)
  /\ JS.assoc (name Samples.zdirNode) Samples.entries0
     = Some (EDir [("b.excalidraw", EFile EmptyString); ("sub", EDir [])])
  /\ alerts (handleDelete Samples.byteCompare Samples.zdirNode Samples.root
              true Samples.idle)
     = alerts Samples.idle ++ ["Failed to delete"].
Proof.
  assert (Hv : valid_name (name Samples.zdirNode) = true) by reflexivity.
  assert (Hl : lookup (hpath Samples.root) (disk (world Samples.idle))
               = Some (EDir Samples.entries0)) by reflexivity.
  assert (Hc : JS.assoc (name Samples.zdirNode) Samples.entries0
               = Some (EDir [("b.excalidraw", EFile EmptyString);
                             ("sub", EDir [])])) by reflexivity.
  repeat (split; [assumption|]).
  exact (proj1 (delete_of_full_folder_alerts Samples.byteCompare
                  Samples.zdirNode Samples.root Samples.idle Samples.entries0
                  _ _ Hv Hl Hc)).
Defined.

Lemma only_files_are_dragged_witness :
  dragState Samples.idle = None
  /\ dragState (gestures Samples.byteCompare
                 (moveFile_spec Samples.byteCompare)
                 [DragStart Samples.zdirNode Samples.root;
                  DragStart Samples.fileB Samples.root;
                  DragOver Samples.zdirNode]
                 Samples.idle)
     = Some (mkDrag Samples.fileB Samples.root)
  /\ kind (node (mkDrag Samples.fileB Samples.root)) = KFile.
Proof.
  assert (Hn : dragState Samples.idle = None) by reflexivity.
  assert (Hd : dragState (gestures Samples.byteCompare
                            (moveFile_spec Samples.byteCompare)
                            [DragStart Samples.zdirNode Samples.root;
                             DragStart Samples.fileB Samples.root;
                             DragOver Samples.zdirNode]
                            Samples.idle)
               = Some (mkDrag Samples.fileB Samples.root)) by reflexivity.
  repeat (split; [assumption|]).
  exact (only_files_are_dragged Samples.byteCompare
           (moveFile_spec Samples.byteCompare) _ Samples.idle _ Hn Hd).
Defined.

Lemma inline_submit_swallows_bad_name_witness :
  contains_slash "a/b" = true
  /\ disk (world (fst (handleInlineSubmit Samples.byteCompare
                         (Some (mkInlineAdd AddFile Samples.root "__root__"))
                         "a/b" Samples.idle)))
     = disk (world Samples.idle).
Proof.
  assert (Hs : contains_slash "a/b" = true) by reflexivity.
  split; [exact Hs|].
  exact (proj1 (proj2 (proj2
           (inline_submit_swallows_bad_name Samples.byteCompare
              (mkInlineAdd AddFile Samples.root "__root__") "a/b"
              Samples.idle Hs)))).
Defined.

Lemma open_then_restore_witness :
  lookup (hpath Samples.root) (disk (Session.world Samples.session0))
  = Some (EDir Samples.entries0)
  /\ state (Session.world
             (Session.restoreDirectory Samples.byteCompare
                (Ok Session.Granted) (Ok Session.Denied)
                (Session.reload
                   (Session.openDirectory Samples.byteCompare
                      (Ok Samples.root) Samples.session0))))
     = state (Session.world
                (Session.openDirectory Samples.byteCompare (Ok Samples.root)
                   Samples.session0)).
Proof.
  assert (Hl : lookup (hpath Samples.root)
                 (disk (Session.world Samples.session0))
               = Some (EDir Samples.entries0)) by reflexivity.
  split; [exact Hl|].
  exact (proj1 (proj2 (proj2
           (open_then_restore Samples.byteCompare Samples.root
              Samples.session0 Samples.entries0 (Ok Session.Denied) Hl)))).
Defined.

Lemma open_that_fails_witness :
  (forall cs, lookup (hpath Samples.nowhere)
                (disk (Session.world Samples.session0)) <> Some (EDir cs))
  /\ Session.stored (Session.openDirectory Samples.byteCompare
                       (Ok Samples.nowhere) Samples.session0)
     = Session.stored Samples.session0
  /\ fileTree (state (Session.world
                        (Session.openDirectory Samples.byteCompare
                           (Ok Samples.nowhere) Samples.session0)))
     = fileTree (state (Session.world Samples.session0)).
Proof.
  assert (Hl : forall cs, lookup (hpath Samples.nowhere)
                            (disk (Session.world Samples.session0))
                          <> Some (EDir cs)) by discriminate.
  split; [exact Hl|].
  destruct (open_that_fails Samples.byteCompare (Ok Samples.nowhere)
              Samples.session0 Hl) as (H1 & H2 & _).
  split; [exact H1|exact H2].
Defined.

Lemma restore_needs_permission_witness :
  Ok Session.Denied <> Ok Session.Granted
  /\ state (Session.world
             (Session.restoreDirectory Samples.byteCompare
                (Ok Session.Denied) (Ok Session.Denied)
                (Session.reload
                   (Session.openDirectory Samples.byteCompare
                      (Ok Samples.root) Samples.session0))))
     = state (Session.world
                (Session.reload
                   (Session.openDirectory Samples.byteCompare
                      (Ok Samples.root) Samples.session0))).
Proof.
  assert (Hq : @Ok Session.Permission Session.Denied <> Ok Session.Granted)
    by discriminate.
  split; [exact Hq|].
  exact (proj1 (proj1 (restore_needs_permission Samples.byteCompare
                         (Ok Session.Denied) (Ok Session.Denied)
                         (Session.reload
                            (Session.openDirectory Samples.byteCompare
                               (Ok Samples.root) Samples.session0)))
                 Hq Hq)).
Defined.
